(** * HDHomeRun2XMLTV: streaming XMLTV transforms and the window merger

    A shallow embedding of
      - src/xmltv/streaming-filter.ts   (streamFilterEPG),
      - src/xmltv/streaming-dummy.ts    (parseDuration, escapeXML,
        formatTimestamp, generateDummyProgrammes, streamDummyProgramming),
      - src/xmltv/dummy-programming.ts  (parseDuration, generateDummyProgrammes,
        getChannelName, addDummyProgramming),
      - src/api/hdhomerun-client.ts     (mergeEPGData, fetchEPGData),
      - src/xmltv/generator.ts          (formatTimestamp),
      - src/scheduler/epg-updater.ts and src/server/express-server.ts
        (the names of the files with placeholders),
    together with the fragments of the JavaScript runtime they rely on
    (String.prototype.indexOf / slice / replace, parseInt, Date).

    Conventions of the model.
      - A JavaScript string is a list of code units; the model covers code
        units 0..255, written [ascii].
      - A JavaScript number that the code only uses as an integer is a [Z];
        a number that may be NaN is an [option Z] with [None] for NaN.
      - A number that need not be an integer (the placeholder duration) is
        a double: a finite one is the rational [Q] that it denotes, and
        every operation on such numbers rounds its exact result to the
        nearest double ([JS.toDouble]).
      - The local time zone has a constant UTC offset (no daylight-saving
        transitions), given in minutes by the environment.
      - A [Transform] stream is a state machine: [transform] is called once
        per chunk, in order, [flush] once at the end of the input, and the
        file written by [pipeline] is the concatenation of everything pushed. *)

From Stdlib Require Import ZArith QArith Qround Qminmax Qabs Qpower Ascii String List Lia Bool.
From stdpp Require Import base option list gmap.
Import ListNotations.

Local Open Scope Z_scope.

(** ** JavaScript strings *)

Module Text.

Abbreviation text := (list ascii).

Definition txt (s : string) : text := list_ascii_of_string s.

(** [s.startsWith(p)] *)
Fixpoint startsWith (s p : text) {struct p} : bool :=
  match p, s with
  | [], _ => true
  | _ :: _, [] => false
  | c :: p', d :: s' => if Ascii.eqb c d then startsWith s' p' else false
  end.

(** Leftmost occurrence of [needle] in [s]; [i] is the index of the head
    of [s] in the enclosing string. *)
Fixpoint search (needle s : text) (i : nat) : option nat :=
  if startsWith s needle then Some i
  else match s with
       | [] => None
       | _ :: s' => search needle s' (S i)
       end.

(** [s.indexOf(needle, position)]; [None] is the result -1. *)
Definition indexOf (s needle : text) (position : nat) : option nat :=
  search needle (drop position s) (Nat.min position (length s)).

(** [s.includes(needle)] *)
Definition includes (s needle : text) : bool :=
  match indexOf s needle 0 with Some _ => true | None => false end.

(** [s.slice(a, b)] for indices [0 <= a] and [0 <= b]. *)
Definition slice (s : text) (a b : nat) : text := take (b - a) (drop a s).

(** [s.slice(a)] for an index [0 <= a]. *)
Definition slice_from (s : text) (a : nat) : text := drop a s.

(** [s.slice(-n)]: the last [n] code units (all of [s] when it is shorter). *)
Definition slice_last (s : text) (n : nat) : text := drop (length s - n) s.

(** [s.slice(0, -n)]: everything but the last [n] code units. *)
Definition slice_but_last (s : text) (n : nat) : text := take (length s - n) s.

(** Truthiness of a string: the empty string is falsy. *)
Definition truthy (s : text) : bool :=
  match s with [] => false | _ :: _ => true end.

(** [s.replace(/c/g, r)] for a one-character pattern [c] and a replacement
    [r] without dollar signs. *)
Definition replaceAllChar (c : ascii) (r : text) (s : text) : text :=
  flat_map (fun d => if Ascii.eqb d c then r else [d]) s.

(** GetSubstitution for a string pattern: in the replacement text, [$$]
    stands for a dollar sign, [$&] for the matched text, [$`] for the text
    before the match and [$'] for the text after it. *)
Fixpoint getSubstitution (matched before after : text) (r : text) : text :=
  match r with
  | [] => []
  | c :: r' =>
      if Ascii.eqb c "$" then
        match r' with
        | d :: r'' =>
            if Ascii.eqb d "$" then "$"%char :: getSubstitution matched before after r''
            else if Ascii.eqb d "&" then matched ++ getSubstitution matched before after r''
            else if Ascii.eqb d "`" then before ++ getSubstitution matched before after r''
            else if Ascii.eqb d "'" then after ++ getSubstitution matched before after r''
            else c :: getSubstitution matched before after r'
        | [] => [c]
        end
      else c :: getSubstitution matched before after r'
  end.

(** [s.replace(pattern, r)] for a string [pattern]: only the first
    occurrence is replaced. *)
Definition replaceFirst (s pattern r : text) : text :=
  match indexOf s pattern 0 with
  | None => s
  | Some i =>
      let before := take i s in
      let after := drop (i + length pattern) s in
      before ++ getSubstitution pattern before after r ++ after
  end.

(** [s.split(sep)] for a non-empty separator. The fuel bounds the number of
    separators; [length s] is always enough. *)
Fixpoint split_fuel (fuel : nat) (s sep : text) : list text :=
  match fuel with
  | O => [s]
  | S fuel' =>
      match indexOf s sep 0 with
      | None => [s]
      | Some i => take i s :: split_fuel fuel' (drop (i + length sep) s) sep
      end
  end.

Definition split (s sep : text) : list text := split_fuel (length s) s sep.

(** [s.toLowerCase()] on code units 0..255. *)
Definition lowerChar (c : ascii) : ascii :=
  let n := nat_of_ascii c in
  if ((65 <=? n) && (n <=? 90))%nat then ascii_of_nat (n + 32)
  else if ((192 <=? n) && (n <=? 222) && negb (n =? 215))%nat then ascii_of_nat (n + 32)
  else c.

Definition toLowerCase (s : text) : text := map lowerChar s.

Definition isDigit (c : ascii) : bool :=
  let n := nat_of_ascii c in ((48 <=? n) && (n <=? 57))%nat.

Definition digitValue (c : ascii) : Z := Z.of_nat (nat_of_ascii c) - 48.

(** The longest prefix of [s] whose elements satisfy [p], and the rest. *)
Fixpoint span (p : ascii -> bool) (s : text) : text * text :=
  match s with
  | [] => ([], [])
  | c :: s' => if p c then let '(a, b) := span p s' in (c :: a, b) else ([], s)
  end.

(** Value of a run of decimal digits. *)
Definition decimalValue (ds : text) : Z :=
  fold_left (fun acc c => 10 * acc + digitValue c) ds 0.

(** [String(n)] for an integer [n]. *)
Fixpoint digitsOfPos_fuel (fuel : nat) (n : Z) (acc : text) : text :=
  match fuel with
  | O => acc
  | S fuel' =>
      let acc' := ascii_of_nat (Z.to_nat (48 + n mod 10)) :: acc in
      if n / 10 =? 0 then acc' else digitsOfPos_fuel fuel' (n / 10) acc'
  end.

Definition stringOfInt (n : Z) : text :=
  if n <? 0 then "-"%char :: digitsOfPos_fuel (S (Z.to_nat (Z.log2 (- n)))) (- n) []
  else digitsOfPos_fuel (S (Z.to_nat (Z.log2 n))) n [].

(** [s.padStart(n, '0')] *)
Definition padStart0 (n : nat) (s : text) : text :=
  repeat "0"%char (n - length s) ++ s.

End Text.
Import Text.

(** ** JavaScript numbers and dates *)

Module JS.

(** A number that may be NaN. *)
Definition number := option Z.

Definition NaN : number := None.

(** [a < b] on numbers: false as soon as one side is NaN. *)
Definition lt (a b : number) : bool :=
  match a, b with
  | Some x, Some y => x <? y
  | _, _ => false
  end.

(** [a - k] for an integer constant [k]. *)
Definition minus (a : number) (k : Z) : number :=
  match a with Some x => Some (x - k) | None => None end.

(** StrWhiteSpaceChar, restricted to code units 0..255. *)
Definition isWhiteSpace (c : ascii) : bool :=
  let n := nat_of_ascii c in
  ((n =? 9) || (n =? 10) || (n =? 11) || (n =? 12) || (n =? 13) || (n =? 32) || (n =? 160))%nat.

Definition hexDigitValue (c : ascii) : option Z :=
  let n := Z.of_nat (nat_of_ascii c) in
  if (48 <=? n) && (n <=? 57) then Some (n - 48)
  else if (97 <=? n) && (n <=? 102) then Some (n - 87)
  else if (65 <=? n) && (n <=? 70) then Some (n - 55)
  else None.

Definition isHexDigit (c : ascii) : bool :=
  match hexDigitValue c with Some _ => true | None => false end.

Definition hexValue (ds : text) : Z :=
  fold_left (fun acc c => 16 * acc + default 0 (hexDigitValue c)) ds 0.

(** [parseInt(s)] without a radix: leading white space is skipped, a sign
    is read, a prefix [0x] or [0X] selects base sixteen, and the longest
    run of digits is converted; no digit at all gives NaN. *)
Definition parseInt (s : text) : number :=
  let s1 := snd (span isWhiteSpace s) in
  let '(sign, s2) :=
    match s1 with
    | c :: r => if Ascii.eqb c "-" then (-1, r)
                else if Ascii.eqb c "+" then (1, r) else (1, s1)
    | [] => (1, s1)
    end in
  if startsWith s2 (txt "0x") || startsWith s2 (txt "0X") then
    match fst (span isHexDigit (drop 2 s2)) with
    | [] => NaN
    | ds => Some (sign * hexValue ds)
    end
  else
    match fst (span isDigit s2) with
    | [] => NaN
    | ds => Some (sign * decimalValue ds)
    end.

Definition msPerSecond : Z := 1000.
Definition msPerMinute : Z := 60000.
Definition msPerHour : Z := 3600000.
Definition msPerDay : Z := 86400000.

Definition Day (t : Z) : Z := t / msPerDay.
Definition TimeWithinDay (t : Z) : Z := t mod msPerDay.
Definition HourFromTime (t : Z) : Z := (t / msPerHour) mod 24.
Definition MinFromTime (t : Z) : Z := (t / msPerMinute) mod 60.
Definition SecFromTime (t : Z) : Z := (t / msPerSecond) mod 60.
Definition msFromTime (t : Z) : Z := t mod msPerSecond.

Definition MakeTime (hour min sec ms : Z) : Z :=
  hour * msPerHour + min * msPerMinute + sec * msPerSecond + ms.

Definition MakeDate (day time : Z) : Z := day * msPerDay + time.

Definition DayFromYear (y : Z) : Z :=
  365 * (y - 1970) + (y - 1969) / 4 - (y - 1901) / 100 + (y - 1601) / 400.

Definition InLeapYear (y : Z) : bool :=
  ((y mod 4 =? 0) && negb (y mod 100 =? 0)) || (y mod 400 =? 0).

Definition daysBeforeMonth (leap : bool) (m : Z) : Z :=
  nth (Z.to_nat m) [0; 31; 59; 90; 120; 151; 181; 212; 243; 273; 304; 334] 0
  + (if leap && (2 <=? m) then 1 else 0).

(** MakeDay: months outside 0..11 carry into the year, and the day of the
    month is an offset from the first of that month. *)
Definition MakeDay (year month date : Z) : Z :=
  let ym := year + month / 12 in
  let mn := month mod 12 in
  DayFromYear ym + daysBeforeMonth (InLeapYear ym) mn + date - 1.

(** Calendar fields of a day number (days since 1970-01-01): year, month
    0..11 and day of the month 1..31. *)
Definition civil (day : Z) : Z * Z * Z :=
  let z := day + 719468 in
  let era := z / 146097 in
  let doe := z mod 146097 in
  let yoe := (doe - doe / 1460 + doe / 36524 - doe / 146096) / 365 in
  let doy := doe - (365 * yoe + yoe / 4 - yoe / 100) in
  let mp := (5 * doy + 2) / 153 in
  let d := doy - (153 * mp + 2) / 5 + 1 in
  let m := if mp <? 10 then mp + 2 else mp - 10 in
  let y := yoe + era * 400 + (if m <=? 1 then 1 else 0) in
  (y, m, d).

Definition YearFromTime (t : Z) : Z := fst (fst (civil (Day t))).
Definition MonthFromTime (t : Z) : Z := snd (fst (civil (Day t))).
Definition DateFromTime (t : Z) : Z := snd (civil (Day t)).

Definition TimeClip (t : Z) : number :=
  if Z.abs t <=? 8640000000000000 then Some t else NaN.

(** The clock and the time zone of one invocation. *)
Record env := {
  now : Z;              (* [Date.now()], milliseconds since the epoch, UTC *)
  tzOffsetMinutes : Z   (* local time minus UTC, in minutes *)
}.

Definition LocalTZA (e : env) : Z := tzOffsetMinutes e * msPerMinute.
Definition LocalTime (e : env) (t : Z) : Z := t + LocalTZA e.
Definition UTC (e : env) (t : Z) : Z := t - LocalTZA e.

(** A [Date] object is its time value. *)
Definition Date := number.

(** [new Date(year, month, day, hours, minutes, seconds)] *)
Definition newDate (e : env) (year month day hours minutes seconds : number) : Date :=
  match year, month, day, hours, minutes, seconds with
  | Some y, Some m, Some dt, Some h, Some mi, Some s =>
      let yr := if (0 <=? y) && (y <=? 99) then 1900 + y else y in
      TimeClip (UTC e (MakeDate (MakeDay yr m dt) (MakeTime h mi s 0)))
  | _, _, _, _, _, _ => NaN
  end.

(** [d.setHours(0, 0, 0, 0)] *)
Definition setHours0 (e : env) (d : Date) : Date :=
  match d with
  | Some t => TimeClip (UTC e (MakeDate (Day (LocalTime e t)) (MakeTime 0 0 0 0)))
  | None => NaN
  end.

(** [d.setDate(d.getDate() + n)]: MakeDay with the year and month of [d]
    and the day of the month of [d] plus [n], that is, [n] days after the
    local day of [d], at the same time of day. *)
Definition setDatePlus (e : env) (d : Date) (n : Z) : Date :=
  match d with
  | Some t =>
      let lt := LocalTime e t in
      TimeClip (UTC e (MakeDate (Day lt + n) (TimeWithinDay lt)))
  | None => NaN
  end.

(** *** Numbers that are not integers

    A finite double is the rational that it denotes; the two infinities
    are kept apart by their sign, and the two zeros are not told apart.
    [toDouble] is the rounding of IEEE 754 binary64 (round to nearest,
    ties to even, gradual underflow, overflow to an infinity): an
    arithmetic operation of the language returns the exact result rounded
    by it. *)
Inductive double := Finite (q : Q) | Infinity (negative : bool).

Definition pow2 (x : Z) : Q := Qpower 2 x.

(** The exponent of the leading bit of a positive rational. *)
Definition ilog2 (q : Q) : Z :=
  let k := Z.log2 (Qnum q) - Z.log2 (Zpos (Qden q)) in
  if Qle_bool (pow2 k) q then k else k - 1.

Definition roundHalfEven (q : Q) : Z :=
  let f := Qfloor q in
  match Qcompare (q - inject_Z f) (1 # 2) with
  | Lt => f
  | Gt => f + 1
  | Eq => if Z.even f then f else f + 1
  end.

(** The significand has 53 bits, so the unit in the last place of a
    number with leading bit [2 ^ k] is [2 ^ (k - 52)], and never less than
    [2 ^ -1074]. *)
Definition toDouble (q : Q) : double :=
  if Qeq_bool q 0 then Finite 0
  else
    let a := Qabs q in
    let x := Z.max (ilog2 a - 52) (-1074) in
    let r := Qred (inject_Z (roundHalfEven (a / pow2 x)) * pow2 x) in
    if Qle_bool (pow2 1024) r then Infinity (negb (Qle_bool 0 q))
    else Finite (if Qle_bool 0 q then r else Qred (- r)).

(** [a + b] on finite numbers. A sum with a zero is the other operand; on
    doubles this is what rounding the exact sum gives as well. *)
Definition addNumbers (a b : Q) : double :=
  if Qeq_bool a 0 then Finite b
  else if Qeq_bool b 0 then Finite a
  else toDouble (a + b).

(** [a / b] for a finite positive [b]. *)
Definition divideBy (a : double) (b : Q) : double :=
  match a with
  | Finite q => toDouble (q / b)
  | Infinity negative => Infinity negative
  end.

(** ToIntegerOrInfinity on a finite number: rounding towards zero. *)
Definition truncate (q : Q) : Z :=
  if Qle_bool 0 q then Qfloor q else Qceiling q.

(** [d.setHours(d.getHours() + h)] for a number of hours [h]: the sum is
    a double, and MakeTime converts its hour argument with
    ToIntegerOrInfinity, which drops the fractional part; an infinite
    hour gives an invalid date. The hour is an integer from there on, and
    the arithmetic of MakeTime and MakeDate is that of integers, as in
    [setHours0] and [setDatePlus]. *)
Definition setHoursPlus (e : env) (d : Date) (h : Q) : Date :=
  match d with
  | Some t =>
      let lt := LocalTime e t in
      match addNumbers (inject_Z (HourFromTime lt)) h with
      | Finite sum =>
          let hour := truncate sum in
          TimeClip (UTC e (MakeDate (Day lt)
                             (MakeTime hour (MinFromTime lt) (SecFromTime lt) (msFromTime lt))))
      | Infinity _ => NaN
      end
  | None => NaN
  end.

End JS.

(** ** The date filter (streaming-filter.ts) *)

Module Filter.
Import JS.

(** [FilterOptions]: [days] may be absent ([None]), NaN ([Some None]) or an
    integer. The one caller passes [parseInt(daysParam, 10)]. *)
Record FilterOptions := { days : option number }.

(** [!options.days]: undefined, NaN and 0 are falsy. *)
Definition noDays (options : FilterOptions) : bool :=
  match days options with
  | None => true
  | Some None => true
  | Some (Some n) => n =? 0
  end.

(** Lines 30-33: local midnight of the invocation day plus [n] days. *)
Definition cutoffTimestamp (e : env) (n : Z) : number :=
  setDatePlus e (setHours0 e (Some (now e))) n.

Definition dquote : ascii := "034"%char.

Definition notQuote (c : ascii) : bool := negb (Ascii.eqb c dquote).

(** Line 79, [openTag.match] on the pattern: the letters start, an equals
    sign, a quote, a group of one or more non-quote characters, a quote.
    The result is group 1 of the leftmost match. At each position the run
    of non-quote characters is taken as long as possible; the match
    succeeds when the run is not empty and a quote follows it. *)
Fixpoint matchStart (s : text) : option text :=
  let here :=
    if startsWith s (txt "start=" ++ [dquote]) then
      match span notQuote (drop 7 s) with
      | ((_ :: _) as value, _ :: _) => Some value
      | _ => None
      end
    else None in
  match here with
  | Some value => Some value
  | None => match s with
            | [] => None
            | _ :: s' => matchStart s'
            end
  end.

(** Lines 99-107: the date that the start attribute is read as. *)
Definition programmeDate (e : env) (programmeStart : text) : Date :=
  let year := parseInt (slice programmeStart 0 4) in
  let month := minus (parseInt (slice programmeStart 4 6)) 1 in
  let day := parseInt (slice programmeStart 6 8) in
  let hours := parseInt (slice programmeStart 8 10) in
  let minutes := parseInt (slice programmeStart 10 12) in
  let seconds := parseInt (slice programmeStart 12 14) in
  newDate e year month day hours minutes seconds.

(** Lines 97-115: the decision on one complete programme element. *)
Definition keepProgramme (e : env) (cutoff : number) (programmeStart : text) : bool :=
  if truthy programmeStart then
    lt (programmeDate e programmeStart) cutoff
  else
    true.

(** The variables of one [transform] call. [currentProgramme] is a local
    of the loop body below: the source clears it before every use. *)
Record scan := {
  buffer : text;
  pos : nat;
  output : text;
  insideProgramme : bool;
  programmeStart : text
}.

Inductive control := Break (s : scan) | Next (s : scan).

(** Lines 49-67: look for the start of a programme tag. The test
    [pos < buffer.length - 1000] is written without subtraction. *)
Definition seek (s : scan) : control :=
  if insideProgramme s then Next s
  else
    match indexOf (buffer s) (txt "<programme") (pos s) with
    | None =>
        if (pos s + 1000 <? length (buffer s))%nat then
          Break {| buffer := slice_last (buffer s) 1000;
                   pos := pos s;
                   output := output s ++ slice_but_last (buffer s) 1000;
                   insideProgramme := false;
                   programmeStart := programmeStart s |}
        else Break s
    | Some programmeStartIdx =>
        Next {| buffer := buffer s;
                pos := programmeStartIdx;
                output := output s ++ slice (buffer s) (pos s) programmeStartIdx;
                insideProgramme := true;
                programmeStart := [] |}
    end.

(** Lines 69-118: read the opening tag, wait for the closing tag, decide. *)
Definition complete (e : env) (cutoff : number) (s : scan) : control :=
  match indexOf (buffer s) (txt ">") (pos s) with
  | None => Break s
  | Some openTagEnd =>
      let programmeStart' :=
        if truthy (programmeStart s) then programmeStart s
        else
          let openTag := slice (buffer s) (pos s) (openTagEnd + 1) in
          match matchStart openTag with
          | Some value => value
          | None => programmeStart s
          end in
      match indexOf (buffer s) (txt "</programme>") (pos s) with
      | None =>
          Break {| buffer := buffer s;
                   pos := pos s;
                   output := output s;
                   insideProgramme := insideProgramme s;
                   programmeStart := programmeStart' |}
      | Some programmeEndIdx =>
          let currentProgramme := slice (buffer s) (pos s) (programmeEndIdx + 12) in
          Next {| buffer := buffer s;
                  pos := (programmeEndIdx + 12)%nat;
                  output := output s ++
                            (if keepProgramme e cutoff programmeStart'
                             then currentProgramme else []);
                  insideProgramme := false;
                  programmeStart := [] |}
      end
  end.

(** The [while (true)] loop of lines 48-119. [None] means that the fuel
    ran out before the loop reached a [break]. *)
Fixpoint loop (fuel : nat) (e : env) (cutoff : number) (s : scan) : option scan :=
  match fuel with
  | O => None
  | S fuel' =>
      match seek s with
      | Break s' => Some s'
      | Next s1 =>
          match complete e cutoff s1 with
          | Break s' => Some s'
          | Next s2 => loop fuel' e cutoff s2
          end
      end
  end.

(** What survives from one [transform] call to the next. *)
Record state := {
  st_buffer : text;
  st_insideProgramme : bool;
  st_programmeStart : text
}.

Definition initial : state :=
  {| st_buffer := []; st_insideProgramme := false; st_programmeStart := [] |}.

(** Lines 41-129: one call of [transform]; the result is the next state
    and the text pushed. *)
Definition transform (e : env) (cutoff : number) (st : state) (chunk : text)
  : option (state * text) :=
  let buffer0 := st_buffer st ++ chunk in
  match loop (S (length buffer0)) e cutoff
             {| buffer := buffer0; pos := 0; output := [];
                insideProgramme := st_insideProgramme st;
                programmeStart := st_programmeStart st |} with
  | None => None
  | Some s =>
      Some ({| st_buffer := slice_from (buffer s) (pos s);
               st_insideProgramme := insideProgramme s;
               st_programmeStart := programmeStart s |},
            output s)
  end.

(** Lines 130-136: the rest of the buffer is pushed. *)
Definition flush (st : state) : text := st_buffer st.

(** The pipeline: every chunk through [transform], then [flush]. *)
Fixpoint run (e : env) (cutoff : number) (st : state) (chunks : list text)
  : option text :=
  match chunks with
  | [] => Some (flush st)
  | chunk :: rest =>
      match transform e cutoff st chunk with
      | None => None
      | Some (st', pushed) =>
          match run e cutoff st' rest with
          | None => None
          | Some out => Some (pushed ++ out)
          end
      end
  end.

(** [streamFilterEPG]: [chunks] is the input file as the read stream
    delivers it, the result is the content of the output file. *)
Definition streamFilterEPG (e : env) (chunks : list text) (options : FilterOptions)
  : option text :=
  if noDays options then Some (concat chunks)
  else
    match days options with
    | Some (Some n) => run e (cutoffTimestamp e n) initial chunks
    | _ => Some (concat chunks)
    end.

(** A file read one code unit at a time. *)
Definition bytewise (doc : text) : list text := map (fun c => [c]) doc.

End Filter.

(** ** Placeholder programmes (streaming-dummy.ts) *)

(** The source of streaming-dummy.ts follows the filter in
    src/xmltv/streaming-filter.ts; the line numbers below are those of
    that file. *)

Module Dummy.
Import JS.

(** Group 1 of the duration pattern: a run of digits, then optionally a dot
    and another run of digits. The result is the integer digits, the
    fraction digits and the text after the number. *)
Definition matchNumber (s : text) : option (text * text * text) :=
  match span isDigit s with
  | ([], _) => None
  | (ds, rest) =>
      match rest with
      | c :: rest' =>
          if Ascii.eqb c "." then
            match span isDigit rest' with
            | ([], _) => Some (ds, [], rest)
            | (fs, rest2) => Some (ds, fs, rest2)
            end
          else Some (ds, [], rest)
      | [] => Some (ds, [], rest)
      end
  end.

(** Group 2: the alternatives, in the order in which the pattern tries
    them. *)
Definition units : list text :=
  [txt "hr"; txt "hour"; txt "hours"; txt "min"; txt "mins"; txt "minutes"; txt "minute"].

Definition matchUnit (s : text) : option text :=
  List.find (fun u => startsWith s u) units.

(** The leftmost match of the whole pattern. *)
Fixpoint matchDuration (s : text) : option (text * text * option text) :=
  match matchNumber s with
  | Some (ds, fs, rest) => Some (ds, fs, matchUnit rest)
  | None => match s with
            | [] => None
            | _ :: s' => matchDuration s'
            end
  end.

(** [parseFloat] on digits with an optional fraction: the double nearest
    to the decimal number. *)
Definition parseFloat (ds fs : text) : double :=
  toDouble (inject_Z (decimalValue ds) + (decimalValue fs # Pos.pow 10 (Pos.of_nat (length fs)))).

(** [Math.max(0.5, Math.min(12, hours))] *)
Definition clamp (hours : double) : Q :=
  match hours with
  | Finite h => Qmax (1 # 2) (Qmin 12 h)
  | Infinity negative => if negative then 1 # 2 else 12
  end.

(** [parseDuration], lines 173-190 (the copy in dummy-programming.ts,
    lines 42-67, has the same body). *)
Definition parseDuration (durationStr : text) : Q :=
  let normalized := toLowerCase durationStr in
  if decide (normalized = txt "true") then 1%Q
  else if decide (normalized = txt "1") then 1%Q
  else if decide (normalized = txt "yes") then 1%Q
  else
    match matchDuration normalized with
    | Some (ds, fs, unit) =>
        let value := parseFloat ds fs in
        let unit' := default (txt "hr") unit in
        let hours := if startsWith unit' (txt "min") then divideBy value 60 else value in
        clamp hours
    | None => 1%Q
    end.

(** [escapeXML], lines 214-221: the five replacements, in source order. *)
Definition escapeXML (t : text) : text :=
  replaceAllChar "'" (txt "&apos;")
    (replaceAllChar "034" (txt "&quot;")
       (replaceAllChar ">" (txt "&gt;")
          (replaceAllChar "<" (txt "&lt;")
             (replaceAllChar "&" (txt "&amp;") t)))).

Definition pad2 (n : Z) : text := padStart0 2 (stringOfInt n).

(** [formatTimestamp], lines 195-209. An invalid date prints NaN in
    every field. *)
Definition formatTimestamp (e : env) (date : Date) : text :=
  match date with
  | Some t =>
      let lt := LocalTime e t in
      let year := YearFromTime lt in
      let month := pad2 (MonthFromTime lt + 1) in
      let day := pad2 (DateFromTime lt) in
      let hours := pad2 (HourFromTime lt) in
      let minutes := pad2 (MinFromTime lt) in
      let seconds := pad2 (SecFromTime lt) in
      let tzOffset := tzOffsetMinutes e in
      let tzSign := if 0 <=? tzOffset then txt "+" else txt "-" in
      let tzHours := pad2 (Z.abs tzOffset / 60) in
      let tzMinutes := pad2 (Z.abs tzOffset mod 60) in
      stringOfInt year ++ month ++ day ++ hours ++ minutes ++ seconds
        ++ txt " " ++ tzSign ++ tzHours ++ tzMinutes
  | None =>
      txt "NaNNaNNaNNaNNaNNaN -NaNNaN"
  end.

Record ChannelInfo := { id : text; name : text }.

Definition newline : text := ["010"%char].

Definition quoted (t : text) : text := [Filter.dquote] ++ t ++ [Filter.dquote].

(** The template literal of lines 245-248. *)
Definition programmeXML (e : env) (channel : ChannelInfo) (title description : text)
    (currentTime nextTime : Date) : text :=
  txt "  <programme channel=" ++ quoted (escapeXML (id channel))
    ++ txt " start=" ++ quoted (formatTimestamp e currentTime)
    ++ txt " stop=" ++ quoted (formatTimestamp e nextTime)
    ++ txt ">" ++ newline
    ++ txt "    <title lang=" ++ quoted (txt "en") ++ txt ">"
    ++ escapeXML title ++ txt "</title>" ++ newline
    ++ txt "    <desc lang=" ++ quoted (txt "en") ++ txt ">"
    ++ escapeXML description ++ txt "</desc>" ++ newline
    ++ txt "  </programme>" ++ newline.

(** The blocks of the loop of lines 241-251, as pairs of a start and a
    stop time. [None] means that the loop is still running when the fuel
    is used up. *)
Fixpoint blocks (fuel : nat) (e : env) (durationHours : Q) (endDate currentTime : Date)
  : option (list (Date * Date)) :=
  match fuel with
  | O => None
  | S fuel' =>
      if lt currentTime endDate then
        let nextTime := setHoursPlus e currentTime durationHours in
        match blocks fuel' e durationHours endDate nextTime with
        | Some rest => Some ((currentTime, nextTime) :: rest)
        | None => None
        end
      else Some []
  end.

Definition startDate (e : env) : Date := setHours0 e (Some (now e)).

Definition endDate (e : env) (days : Z) : Date := setDatePlus e (startDate e) days.

(** [generateDummyProgrammes], lines 226-252: everything the generator
    yields, in order. *)
Definition generateDummyProgrammes (fuel : nat) (e : env) (channel : ChannelInfo)
    (durationHours : Q) (title descTemplate : text) (days : Z) : option (list text) :=
  let description := replaceFirst descTemplate (txt "{channel}") (name channel) in
  match blocks fuel e durationHours (endDate e days) (startDate e) with
  | Some bs =>
      Some (map (fun b => programmeXML e channel title description (fst b) (snd b)) bs)
  | None => None
  end.

Record StreamingDummyOptions := {
  duration : text;
  title : option text;
  description : option text;
  daysFilter : option number
}.

Record LineupItem := { GuideNumber : text; GuideName : text }.

(** What the code reads from the tree that [XMLParser.parse] returns. The
    parser is a library; its result for the input file is an input of the
    model. *)
Inductive DisplayName :=
| DNString (s : text)
| DNObject (text_node : option text).

Record ParsedChannel := { attr_id : option text; display_name : DisplayName }.

Record Parsed := {
  channel : list ParsedChannel;
  programme : list (option text)
}.

(** [x || fallback] for an optional string. *)
Definition orElse (x : option text) (fallback : text) : text :=
  match x with
  | Some s => if truthy s then s else fallback
  | None => fallback
  end.

(** [xs.filter(Boolean)] on optional strings. *)
Definition filterBoolean (xs : list (option text)) : list text :=
  omap (fun x => match x with
                 | Some s => if truthy s then Some s else None
                 | None => None
                 end) xs.

(** Lines 291-292. *)
Definition channelsWithPrograms (parsed : Parsed) : gset text :=
  list_to_set (filterBoolean (programme parsed)).

Definition existingChannels (parsed : Parsed) : gset text :=
  list_to_set (filterBoolean (map attr_id (channel parsed))).

(** Lines 298-302. *)
Definition missingChannels (parsed : Parsed) (lineup : list LineupItem) : list ChannelInfo :=
  omap (fun item =>
          if truthy (GuideNumber item)
             && negb (bool_decide (GuideNumber item ∈ existingChannels parsed))
          then Some {| id := GuideNumber item; name := GuideName item |}
          else None) lineup.

(** Lines 305-314. *)
Definition channelsNeedingDummy (parsed : Parsed) (lineup : list LineupItem) : list ChannelInfo :=
  omap (fun ch =>
          match attr_id ch with
          | Some cid =>
              if truthy cid && negb (bool_decide (cid ∈ channelsWithPrograms parsed)) then
                let lineupItem := List.find (fun l => bool_decide (GuideNumber l = cid)) lineup in
                let displayName :=
                  match display_name ch with
                  | DNString s => s
                  | DNObject t => orElse t cid
                  end in
                Some {| id := cid;
                        name := orElse (GuideName <$> lineupItem) displayName |}
              else None
          | None => None
          end) (channel parsed).

(** Lines 341-347: the new channel definitions. *)
Definition channelXML (c : ChannelInfo) : text :=
  txt "  <channel id=" ++ quoted (escapeXML (id c)) ++ txt ">" ++ newline
    ++ txt "    <display-name lang=" ++ quoted (txt "en") ++ txt ">"
    ++ escapeXML (name c) ++ txt "</display-name>" ++ newline
    ++ txt "  </channel>" ++ newline.

(** Lines 349-355: the placeholder programmes of every channel of the
    list, in order. *)
Fixpoint dummyProgrammes (fuel : nat) (e : env) (durationHours : Q) (title descTemplate : text)
    (days : Z) (cs : list ChannelInfo) : option text :=
  match cs with
  | [] => Some []
  | c :: cs' =>
      match generateDummyProgrammes fuel e c durationHours title descTemplate days with
      | None => None
      | Some ps =>
          match dummyProgrammes fuel e durationHours title descTemplate days cs' with
          | None => None
          | Some rest => Some (concat ps ++ rest)
          end
      end
  end.

(** Everything that lines 340-355 push between the text before the
    closing tag and the closing tag itself. *)
Definition insertion (fuel : nat) (e : env) (durationHours : Q) (title descTemplate : text)
    (days : Z) (missing needing : list ChannelInfo) : option text :=
  match dummyProgrammes fuel e durationHours title descTemplate days (needing ++ missing) with
  | Some ps => Some (concat (map channelXML missing) ++ ps)
  | None => None
  end.

Record state := { insideClosingTag : bool; buffer : text }.

Definition initial : state := {| insideClosingTag := false; buffer := [] |}.

(** Lines 328-371: one call of [transform]. [ins] is what the branch
    that finds the closing tag inserts; it is only looked at there. *)
Definition transform (ins : option text) (st : state) (chunk : text)
  : option (state * text) :=
  let buffer0 := buffer st ++ chunk in
  if includes buffer0 (txt "</tv>") && negb (insideClosingTag st) then
    let parts := split buffer0 (txt "</tv>") in
    match ins with
    | None => None
    | Some inserted =>
        Some ({| insideClosingTag := true; buffer := [] |},
              nth 0 parts [] ++ inserted ++ txt "</tv>" ++ nth 1 parts [])
    end
  else if negb (insideClosingTag st) then
    if 10000 <? Z.of_nat (length buffer0) then
      Some ({| insideClosingTag := false; buffer := slice_last buffer0 1000 |},
            slice_but_last buffer0 1000)
    else Some ({| insideClosingTag := false; buffer := buffer0 |}, [])
  else Some ({| insideClosingTag := insideClosingTag st; buffer := buffer0 |}, []).

(** Lines 372-377. *)
Definition flush (st : state) : text :=
  if truthy (buffer st) && negb (insideClosingTag st) then buffer st else [].

Fixpoint run (ins : option text) (st : state) (chunks : list text) : option text :=
  match chunks with
  | [] => Some (flush st)
  | chunk :: rest =>
      match transform ins st chunk with
      | None => None
      | Some (st', pushed) =>
          match run ins st' rest with
          | None => None
          | Some out => Some (pushed ++ out)
          end
      end
  end.

Record result := { written : text; channelsAdded : nat; dummyChannels : nat }.

(** [options.daysFilter || 7] *)
Definition daysOrDefault (d : option number) : Z :=
  match d with
  | Some (Some n) => if n =? 0 then 7 else n
  | _ => 7
  end.

(** What lines 275-276 make of the input file: [readFile] or
    [parser.parse] throws, or the parser returns a tree without or with a
    [tv] root. The parser is a library; its result is an input of the
    model. *)
Inductive ParseResult :=
| ParseThrows
| NoRoot
| Root (tv : Parsed).

(** How a call ends: the promise is fulfilled with the two counts (and
    [written] is the content of the output file), or it is rejected
    before the output file is opened. [Running] means that a generator
    loop is still running when the fuel is used up. *)
Inductive outcome :=
| Returns (r : result)
| Throws
| Running.

(** [streamDummyProgramming], lines 257-391. [chunks] is the input file
    as the read stream delivers it, [parsed] what lines 275-276 make of
    the same file, [lineup] the answer of the device (empty when the
    request fails). The clock is read once per invocation. Lines 288-289
    read [parsed.tv.channel] outside any [try]: without a [tv] root that
    is a TypeError. *)
Definition streamDummyProgramming (fuel : nat) (e : env) (chunks : list text)
    (parsed : ParseResult) (lineup : list LineupItem) (options : StreamingDummyOptions)
  : outcome :=
  let durationHours := parseDuration (duration options) in
  let title := orElse (title options) (txt "No Information") in
  let descTemplate :=
    orElse (description options)
           (txt "No program information is currently available for {channel}.") in
  let days := daysOrDefault (daysFilter options) in
  match parsed with
  | ParseThrows => Throws
  | NoRoot => Throws
  | Root tv =>
      let missing := missingChannels tv lineup in
      let needing := channelsNeedingDummy tv lineup in
      match missing, needing with
      | [], [] =>
          Returns {| written := concat chunks; channelsAdded := 0; dummyChannels := 0 |}
      | _, _ =>
          let ins := insertion fuel e durationHours title descTemplate days missing needing in
          match run ins initial chunks with
          | None => Running
          | Some out =>
              Returns {| written := out;
                         channelsAdded := length missing;
                         dummyChannels := (length missing + length needing)%nat |}
          end
      end
  end.

End Dummy.

(** ** The one-shot variant (dummy-programming.ts) *)

Module DummyProgramming.
Import JS.

(** [parseDuration], lines 42-67. *)
Definition parseDuration (durationStr : text) : Q :=
  let normalized := toLowerCase durationStr in
  if decide (normalized = txt "true") then 1%Q
  else if decide (normalized = txt "1") then 1%Q
  else if decide (normalized = txt "yes") then 1%Q
  else
    match Dummy.matchDuration normalized with
    | Some (ds, fs, unit) =>
        let value := Dummy.parseFloat ds fs in
        let unit' := default (txt "hr") unit in
        let hours :=
          if startsWith unit' (txt "min") then divideBy value 60
          else value in
        Dummy.clamp hours
    | None => 1%Q
    end.

(** The template literal of lines 131-134; [formatXMLTVTimestamp] has the
    body of [formatTimestamp]. *)
Definition programmeXML (e : env) (channelId title description : text)
    (currentTime nextTime : Date) : text :=
  txt "  <programme channel=" ++ Dummy.quoted (Dummy.escapeXML channelId)
    ++ txt " start=" ++ Dummy.quoted (Dummy.formatTimestamp e currentTime)
    ++ txt " stop=" ++ Dummy.quoted (Dummy.formatTimestamp e nextTime)
    ++ txt ">" ++ Dummy.newline
    ++ txt "    <title lang=" ++ Dummy.quoted (txt "en") ++ txt ">"
    ++ Dummy.escapeXML title ++ txt "</title>" ++ Dummy.newline
    ++ txt "    <desc lang=" ++ Dummy.quoted (txt "en") ++ txt ">"
    ++ Dummy.escapeXML description ++ txt "</desc>" ++ Dummy.newline
    ++ txt "  </programme>".

(** [generateDummyProgrammes], lines 111-141: the same loop over a horizon
    of seven days. *)
Definition generateDummyProgrammes (fuel : nat) (e : env) (channelId channelName : text)
    (durationHours : Q) (title descriptionTemplate : text) : option (list text) :=
  let description := replaceFirst descriptionTemplate (txt "{channel}") channelName in
  match Dummy.blocks fuel e durationHours (Dummy.endDate e 7) (Dummy.startDate e) with
  | Some bs =>
      Some (map (fun b => programmeXML e channelId title description (fst b) (snd b)) bs)
  | None => None
  end.


(** What [parser.parse] makes of the content: it throws, or it returns a
    tree without or with a [tv] root. The parser is a library; its result
    is an input of the model. *)
Inductive ParseResult :=
| ParseThrows
| NoRoot
| Root (tv : Dummy.Parsed).






(** The template literal of lines 239-241. *)
Definition channelXML (lineupItem : Dummy.LineupItem) : text :=
  txt "  <channel id=" ++ Dummy.quoted (Dummy.escapeXML (Dummy.GuideNumber lineupItem))
    ++ txt ">" ++ Dummy.newline
    ++ txt "    <display-name lang=" ++ Dummy.quoted (txt "en") ++ txt ">"
    ++ Dummy.escapeXML (Dummy.GuideName lineupItem) ++ txt "</display-name>" ++ Dummy.newline
    ++ txt "  </channel>".





End DummyProgramming.

(** ** The window merger (hdhomerun-client.ts) *)

Module Merge.

(** types/hdhomerun.ts *)
Record ProgrammeGuide := {
  StartTime : Z;
  EndTime : Z;
  Title : text;
  Synopsis : option text;
  EpisodeNumber : option text;
  EpisodeTitle : option text;
  OriginalAirdate : option Z;
  ImageURL : option text;
  Filter : option (list text)
}.

Record ChannelGuide := {
  GuideNumber : text;
  GuideName : text;
  Affiliate : option text;
  ChannelImageURL : option text;
  Guide : list ProgrammeGuide
}.

Abbreviation EPGResponse := (list ChannelGuide).

Definition withGuide (ch : ChannelGuide) (g : list ProgrammeGuide) : ChannelGuide :=
  {| GuideNumber := GuideNumber ch; GuideName := GuideName ch;
     Affiliate := Affiliate ch; ChannelImageURL := ChannelImageURL ch;
     Guide := g |}.

(** Lines 191-193: [some] with the comparison of the start times. *)
Definition exists_ (guide : list ProgrammeGuide) (newProgram : ProgrammeGuide) : bool :=
  existsb (fun p => StartTime p =? StartTime newProgram) guide.

(** Lines 190-198: the inner loop, on the programme list of the base
    channel. *)
Definition mergeGuide (guide newGuide : list ProgrammeGuide) : list ProgrammeGuide :=
  fold_left (fun g newProgram => if exists_ g newProgram then g else g ++ [newProgram])
            newGuide guide.

(** Lines 185-199: one iteration of the outer loop. [find] returns the
    first channel with the guide number; its programme list is updated in
    place. *)
Definition mergeChannel (baseGuide : EPGResponse) (newChannel : ChannelGuide) : EPGResponse :=
  match list_find (fun ch => GuideNumber ch = GuideNumber newChannel) baseGuide with
  | Some (i, baseChannel) =>
      <[i := withGuide baseChannel (mergeGuide (Guide baseChannel) (Guide newChannel))]> baseGuide
  | None => baseGuide
  end.

(** [mergeEPGData], lines 183-201. *)
Definition mergeEPGData (baseGuide newData : EPGResponse) : EPGResponse :=
  fold_left mergeChannel newData baseGuide.

(** The loop of [fetchEPGData], lines 106-122, on the windows that were
    fetched. *)
Definition mergeWindows (baseGuide : EPGResponse) (windows : list EPGResponse) : EPGResponse :=
  fold_left mergeEPGData windows baseGuide.

End Merge.

(** ** The XMLTV generator (xmltv/generator.ts) *)

Module XMLTVGenerator.
Import JS.

(** [formatTimestamp]: the body of [Dummy.formatTimestamp] on
    [new Date(unixTimestamp * 1000)]. *)
Definition formatTimestamp (e : env) (unixTimestamp : Z) : text :=
  Dummy.formatTimestamp e (TimeClip (unixTimestamp * 1000)).


End XMLTVGenerator.

(** ** The window loop (hdhomerun-client.ts) *)

Module Client.
Import JS.

(** How a call ends: with a guide, with the error of a request that
    [fetchEPGChunk] rethrows, or not within the fuel. *)
Inductive outcome :=
| Done (guide : Merge.EPGResponse)
| Thrown
| Running.

(** [a <= b], [a + b] and [a * b] on numbers that may be NaN. *)
Definition le (a b : number) : bool :=
  match a, b with
  | Some x, Some y => x <=? y
  | _, _ => false
  end.

Definition plus (a b : number) : number :=
  match a, b with
  | Some x, Some y => Some (x + y)
  | _, _ => NaN
  end.

Definition times (a b : number) : number :=
  match a, b with
  | Some x, Some y => Some (x * y)
  | _, _ => NaN
  end.

(** The loop of lines 106-122. [fetchEPGChunk] is the request: its
    argument is the start of the window, its result [None] when the
    request throws; a response without data counts as an empty one. *)
Fixpoint loop (fuel : nat) (fetchEPGChunk : number -> option Merge.EPGResponse)
    (maxTimestamp timestampIncrementHrs nextTimestamp : number)
    (baseGuide : Merge.EPGResponse) : outcome :=
  match fuel with
  | O => Running
  | S fuel' =>
      if le nextTimestamp maxTimestamp then
        match fetchEPGChunk nextTimestamp with
        | None => Thrown
        | Some [] => Done baseGuide
        | Some chunkData =>
            loop fuel' fetchEPGChunk maxTimestamp timestampIncrementHrs
              (plus nextTimestamp timestampIncrementHrs)
              (Merge.mergeEPGData baseGuide chunkData)
        end
      else Done baseGuide
  end.

(** [fetchEPGData], lines 89-126, once the device token is there.
    [first] is the request without a start. The settings come from
    [parseInt] and may be NaN. *)
Definition fetchEPGData (fuel : nat) (e : env) (first : option Merge.EPGResponse)
    (fetchEPGChunk : number -> option Merge.EPGResponse) (days hoursIncrement : number)
  : outcome :=
  let now := Some (now e / 1000) in
  let maxTimestamp := plus now (times days (Some 86400)) in
  let timestampIncrementHrs := times (Some (86400 / 24)) hoursIncrement in
  match first with
  | None => Thrown
  | Some baseGuide =>
      loop fuel fetchEPGChunk maxTimestamp timestampIncrementHrs
        (plus now timestampIncrementHrs) baseGuide
  end.

End Client.

(** ** File names (epg-updater.ts, express-server.ts) *)

Module EPGUpdater.

(** [update]: the name of the file with placeholders,
    [versionedPath.replace('.xml', '-with-dummy.xml')]. *)
Definition dummyPath (versionedPath : text) : text :=
  replaceFirst versionedPath (txt ".xml") (txt "-with-dummy.xml").

End EPGUpdater.

Module EPGServer.

(** [serveEPG]: the file to start from when a custom title or description
    is requested, given the target of the symbolic link. *)
Definition currentFile (realPath : text) : text :=
  if includes realPath (txt "-with-dummy.xml")
  then replaceFirst realPath (txt "-with-dummy.xml") (txt ".xml")
  else realPath.

End EPGServer.

(** * Vocabulary of the properties *)

(** [needle] occurs nowhere in [s]. *)
Definition absent (needle s : text) : Prop :=
  forall k, startsWith (drop k s) needle = false.

Definition openMarker : text := txt "<programme".
Definition closeMarker : text := txt "</programme>".
Definition closingTag : text := txt "</tv>".


(** The invariant of a guide: within one channel no two programmes share
    a start time. *)
Definition distinctStarts (guide : list Merge.ProgrammeGuide) : Prop :=
  NoDup (Merge.StartTime <$> guide).

Definition guideInvariant (g : Merge.EPGResponse) : Prop :=
  Forall (fun ch => distinctStarts (Merge.Guide ch)) g.

(** [ch'] is [ch] with programmes appended, each taken whole from a
    channel of [source] with the same guide number. *)
Definition appended (source : list Merge.ChannelGuide) (ch ch' : Merge.ChannelGuide) : Prop :=
  exists extra,
    ch' = Merge.withGuide ch (Merge.Guide ch ++ extra) /\
    Forall (fun p => exists nc, nc ∈ source /\
                                Merge.GuideNumber nc = Merge.GuideNumber ch /\
                                p ∈ Merge.Guide nc)
           extra.


(** The placeholder programmes of one channel, one per block. *)
Definition placeholders (e : JS.env) (ch : Dummy.ChannelInfo) (title descTemplate : text)
    (bs : list (JS.Date * JS.Date)) : text :=
  concat (map (fun b =>
                 Dummy.programmeXML e ch title
                   (replaceFirst descTemplate (txt "{channel}") (Dummy.name ch))
                   (fst b) (snd b)) bs).

(** The content of the output file of a call that returns. *)
Definition writtenBy (o : Dummy.outcome) : option text :=
  match o with
  | Dummy.Returns r => Some (Dummy.written r)
  | Dummy.Throws => None
  | Dummy.Running => None
  end.

(** The entity that stands for one code unit. *)
Definition escapeChar (c : ascii) : text :=
  if Ascii.eqb c "&" then txt "&amp;"
  else if Ascii.eqb c "<" then txt "&lt;"
  else if Ascii.eqb c ">" then txt "&gt;"
  else if Ascii.eqb c "034" then txt "&quot;"
  else if Ascii.eqb c "'" then txt "&apos;"
  else [c].

(** The code units that have a meaning in XML markup, the ampersand apart. *)
Definition markup (c : ascii) : bool :=
  Ascii.eqb c "<" || Ascii.eqb c ">" || Ascii.eqb c "034" || Ascii.eqb c "'".

(** The code units of a time stamp: digits, a blank, a sign, and the
    letters of NaN. *)
Definition stampChar (c : ascii) : bool :=
  isDigit c || Ascii.eqb c " " || Ascii.eqb c "+" || Ascii.eqb c "-"
  || Ascii.eqb c "N" || Ascii.eqb c "a".

(** The opening tag of a placeholder programme, from the opening marker
    to the closing angle bracket. *)
Definition placeholderTag (e : JS.env) (ch : Dummy.ChannelInfo) (cur next : JS.Date) : text :=
  txt "<programme channel=" ++ Dummy.quoted (Dummy.escapeXML (Dummy.id ch))
    ++ txt " start=" ++ Dummy.quoted (Dummy.formatTimestamp e cur)
    ++ txt " stop=" ++ Dummy.quoted (Dummy.formatTimestamp e next)
    ++ txt ">".

(** The number that the digits [ds], a dot and the digits [fs] denote. *)
Definition decimal (ds fs : text) : Q :=
  inject_Z (decimalValue ds) + (decimalValue fs # Pos.pow 10 (Pos.of_nat (length fs))).

(** The text of a number with the integer digits [ds] and the fraction
    digits [fs]. *)
Definition numberText (ds fs : text) : text :=
  match fs with
  | [] => ds
  | _ :: _ => ds ++ "."%char :: fs
  end.

(** What may follow a number in the duration pattern: no further digit,
    and no dot when the number has no fraction. *)
Definition afterNumber (fs rest : text) : bool :=
  match rest with
  | [] => true
  | c :: _ => negb (isDigit c) && (truthy fs || negb (Ascii.eqb c "."))
  end.

(** Every programme of [newGuide] finds its start time in [guide]. *)
Definition covered (guide newGuide : list Merge.ProgrammeGuide) : Prop :=
  Forall (fun p => Merge.exists_ guide p = true) newGuide.

(** The channel that [mergeChannel] would update for [newChannel] covers
    the programmes of [newChannel]. *)
Definition absorbed (baseGuide : Merge.EPGResponse) (newChannel : Merge.ChannelGuide) : Prop :=
  match list_find (fun ch => Merge.GuideNumber ch = Merge.GuideNumber newChannel) baseGuide with
  | Some (_, baseChannel) => covered (Merge.Guide baseChannel) (Merge.Guide newChannel)
  | None => True
  end.

(** The windows that start at [t], [t + step], ..., at most [n] of them,
    up to the first empty one; [None] when a request throws before. *)
Fixpoint fetched (fetchEPGChunk : JS.number -> option Merge.EPGResponse) (n : nat) (t step : Z)
  : option (list Merge.EPGResponse) :=
  match n with
  | O => Some []
  | S n' =>
      match fetchEPGChunk (Some t) with
      | None => None
      | Some [] => Some []
      | Some w =>
          match fetched fetchEPGChunk n' (t + step) step with
          | Some ws => Some (w :: ws)
          | None => None
          end
      end
  end.

(** [n] blocks of [step] milliseconds, back to back from [t] on. *)
Fixpoint tiles (t step : Z) (n : nat) : list (JS.Date * JS.Date) :=
  match n with
  | O => []
  | S n' => (Some t, Some (t + step)) :: tiles (t + step) step n'
  end.

(** ** Exhaustive checks *)

(** [p] holds of the [n] integers from [from] on. *)
Fixpoint allFrom (p : Z -> bool) (n : nat) (from : Z) : bool :=
  match n with
  | O => true
  | S n' => p from && allFrom p n' (from + 1)
  end.

(** The fields of [JS.civil] that depend on the day of the era only. *)
Definition eraFields (doe : Z) : Z * Z * Z :=
  let yoe := (doe - doe / 1460 + doe / 36524 - doe / 146096) / 365 in
  let doy := doe - (365 * yoe + yoe / 4 - yoe / 100) in
  let mp := (5 * doy + 2) / 153 in
  let d := doy - (153 * mp + 2) / 5 + 1 in
  let m := if mp <? 10 then mp + 2 else mp - 10 in
  (yoe + (if m <=? 1 then 1 else 0), m, d).

(** MakeDay inverts the fields of one day of the era. *)
Definition eraCheck (doe : Z) : bool :=
  let '(y, m, d) := eraFields doe in
  (0 <=? m) && (m <=? 11) && (1 <=? d) && (d <=? 31) &&
  (JS.DayFromYear y + JS.daysBeforeMonth (JS.InLeapYear y) m + d - 1 =? doe - 719468).

(** A year of four digits is printed with four digits and read back. *)
Definition yearCheck (y : Z) : bool :=
  bool_decide (length (stringOfInt y) = 4%nat) &&
  forallb isDigit (stringOfInt y) &&
  bool_decide (JS.parseInt (stringOfInt y) = Some y).

(** A field of at most two digits is printed with two digits and read back. *)
Definition fieldCheck (n : Z) : bool :=
  bool_decide (length (Dummy.pad2 n) = 2%nat) &&
  forallb isDigit (Dummy.pad2 n) &&
  bool_decide (JS.parseInt (Dummy.pad2 n) = Some n).

(** ** Sample inputs *)

(** 2024-01-10 12:00:00 UTC, read in a zone at UTC and in a zone five hours
    behind it. *)
Definition envUTC : JS.env := {| JS.now := 1704888000000; JS.tzOffsetMinutes := 0 |}.
Definition envEST : JS.env := {| JS.now := 1704888000000; JS.tzOffsetMinutes := -300 |}.

Definition days3 : Filter.FilterOptions := {| Filter.days := Some (Some 3) |}.

(** A programme followed by 1001 blanks. *)
Definition docTrailing : text := txt "<programme></programme>" ++ repeat " "%char 1001.


(** A programme element of more than a thousand code units followed by
    1001 blanks, and the beginning of another programme element. *)
Definition longProgramme : text := txt "<programme>" ++ repeat "x"%char 1000 ++ closeMarker.

Definition cutHead : text := longProgramme ++ repeat " "%char 1001.

Definition cutTail : text :=
  txt "<programme start=" ++ Dummy.quoted (txt "20240110120000 +0000") ++ txt "><title>News".

(** A document with one channel and one programme with the given start
    attribute. *)
Definition docWithStart (start : text) : text :=
  txt "<tv><channel id=" ++ Dummy.quoted (txt "5.1") ++ txt "></channel>"
    ++ txt "<programme start=" ++ Dummy.quoted start
    ++ txt " channel=" ++ Dummy.quoted (txt "5.1") ++ txt "><title>News</title></programme>"
    ++ txt "</tv>".

(** The document whose programme starts at the local midnight of
    2024-01-13 in a zone five hours behind UTC. *)
Definition docAtCutoff : text := docWithStart (txt "20240113000000 -0500").

(** The same document without its programme. *)
Definition docWithoutProgramme : text :=
  txt "<tv><channel id=" ++ Dummy.quoted (txt "5.1") ++ txt "></channel></tv>".

Definition sampleProgramme (start : Z) (title : string) : Merge.ProgrammeGuide :=
  {| Merge.StartTime := start; Merge.EndTime := start + 1800; Merge.Title := txt title;
     Merge.Synopsis := None; Merge.EpisodeNumber := None; Merge.EpisodeTitle := None;
     Merge.OriginalAirdate := None; Merge.ImageURL := None; Merge.Filter := None |}.

Definition sampleChannel (number name : string) (guide : list Merge.ProgrammeGuide)
  : Merge.ChannelGuide :=
  {| Merge.GuideNumber := txt number; Merge.GuideName := txt name;
     Merge.Affiliate := None; Merge.ChannelImageURL := None; Merge.Guide := guide |}.

(** A base guide with one channel, and a later window that repeats one of
    its start times under another title, brings one new programme and
    reports a channel that the base does not have. *)
Definition sampleBase : Merge.EPGResponse :=
  [sampleChannel "5.1" "KQED"
     [sampleProgramme 1704888000 "News"; sampleProgramme 1704889800 "Weather"]].

Definition sampleWindow : Merge.EPGResponse :=
  [sampleChannel "5.1" "KQED"
     [sampleProgramme 1704889800 "Sports"; sampleProgramme 1704891600 "Late Show"];
   sampleChannel "9.1" "KQEH" [sampleProgramme 1704888000 "Movie"]].

Definition sampleMerged : Merge.EPGResponse :=
  [sampleChannel "5.1" "KQED"
     [sampleProgramme 1704888000 "News"; sampleProgramme 1704889800 "Weather";
      sampleProgramme 1704891600 "Late Show"]].

(** A document with the channels 5.1 and 7.1 and one programme, of channel
    5.1; the device also lists channel 9.1. *)
Definition samplePre : text :=
  txt "<tv>" ++ Dummy.newline
    ++ txt "  <channel id=" ++ Dummy.quoted (txt "5.1") ++ txt "><display-name>KQED</display-name></channel>"
    ++ Dummy.newline
    ++ txt "  <channel id=" ++ Dummy.quoted (txt "7.1") ++ txt "><display-name>KGO</display-name></channel>"
    ++ Dummy.newline
    ++ txt "  <programme start=" ++ Dummy.quoted (txt "20240110120000 -0500")
    ++ txt " stop=" ++ Dummy.quoted (txt "20240110130000 -0500")
    ++ txt " channel=" ++ Dummy.quoted (txt "5.1") ++ txt "><title>News</title></programme>"
    ++ Dummy.newline.

Definition samplePost : text := Dummy.newline.

Definition sampleDocument : text := samplePre ++ txt "</tv>" ++ samplePost.

Definition sampleParsed : Dummy.Parsed :=
  {| Dummy.channel :=
       [ {| Dummy.attr_id := Some (txt "5.1"); Dummy.display_name := Dummy.DNString (txt "KQED") |};
         {| Dummy.attr_id := Some (txt "7.1"); Dummy.display_name := Dummy.DNString (txt "KGO") |} ];
     Dummy.programme := [Some (txt "5.1")] |}.

Definition sampleLineup : list Dummy.LineupItem :=
  [ {| Dummy.GuideNumber := txt "5.1"; Dummy.GuideName := txt "KQED-HD" |};
    {| Dummy.GuideNumber := txt "7.1"; Dummy.GuideName := txt "KGO-HD" |};
    {| Dummy.GuideNumber := txt "9.1"; Dummy.GuideName := txt "KQEH-HD" |} ].

Definition sampleOptions : Dummy.StreamingDummyOptions :=
  {| Dummy.duration := txt "6hr"; Dummy.title := None; Dummy.description := None;
     Dummy.daysFilter := Some (Some 1) |}.

(** The same document with blanks before the closing root tag, so that the
    tag ends at code unit 65536, the size of the chunks of a file read
    stream, and the final line feed arrives in a chunk of its own. *)
Definition paddedPre : text := samplePre ++ repeat " "%char (65531 - length samplePre).

Definition sampleBlocks : list (JS.Date * JS.Date) :=
  default [] (Dummy.blocks 100 envEST (Dummy.parseDuration (txt "6hr"))
                (Dummy.endDate envEST 1) (Dummy.startDate envEST)).

Definition sampleInserted : text :=
  Dummy.channelXML {| Dummy.id := txt "9.1"; Dummy.name := txt "KQEH-HD" |}
    ++ placeholders envEST {| Dummy.id := txt "7.1"; Dummy.name := txt "KGO-HD" |}
         (txt "No Information")
         (txt "No program information is currently available for {channel}.") sampleBlocks
    ++ placeholders envEST {| Dummy.id := txt "9.1"; Dummy.name := txt "KQEH-HD" |}
         (txt "No Information")
         (txt "No program information is currently available for {channel}.") sampleBlocks.

(** * Properties *)

(** ** Searching in strings *)

Section Search.

Lemma startsWith_app (p r : text) : startsWith (p ++ r) p = true.
Proof.
  induction p as [|c p IH]; simpl; [done|].
  by rewrite Ascii.eqb_refl.
Qed.

Lemma startsWith_inv (s p : text) : startsWith s p = true -> s = p ++ drop (length p) s.
Proof.
  revert s. induction p as [|c p IH]; intros s H; simpl in *; [done|].
  destruct s as [|d s]; [done|].
  destruct (Ascii.eqb c d) eqn:E; [|done].
  apply Ascii.eqb_eq in E. subst d. simpl. f_equal. by apply IH.
Qed.

Lemma startsWith_extend (s p r : text) :
  startsWith s p = true -> startsWith (s ++ r) p = true.
Proof.
  intros H. rewrite (startsWith_inv _ _ H), <- app_assoc. apply startsWith_app.
Qed.

Lemma startsWith_length (s p : text) : startsWith s p = true -> (length p <= length s)%nat.
Proof.
  intros H. rewrite (startsWith_inv _ _ H), length_app. lia.
Qed.

Lemma search_None (needle s : text) (i : nat) :
  search needle s i = None <-> absent needle s.
Proof.
  revert i. induction s as [|c s IH]; intros i; simpl.
  - destruct (startsWith [] needle) eqn:E.
    + split; [done|]. intros H. specialize (H 0%nat). simpl in H. congruence.
    + split; [|done]. intros _ k. by rewrite drop_nil.
  - destruct (startsWith (c :: s) needle) eqn:E.
    + split; [done|]. intros H. specialize (H 0%nat). simpl in H. congruence.
    + rewrite IH. split.
      * intros H [|k]; [done|]. apply H.
      * intros H k. apply (H (S k)).
Qed.

Lemma search_Some (needle s : text) (i j : nat) :
  search needle s i = Some j ->
  (i <= j)%nat /\ startsWith (drop (j - i) s) needle = true /\
  (forall k, (k < j - i)%nat -> startsWith (drop k s) needle = false).
Proof.
  revert i. induction s as [|c s IH]; intros i; simpl.
  - destruct (startsWith [] needle) eqn:E; [|done].
    intros [= <-]. rewrite Nat.sub_diag. split; [lia|]. split; [exact E|]. intros k Hk. lia.
  - destruct (startsWith (c :: s) needle) eqn:E.
    + intros [= <-]. rewrite Nat.sub_diag. split; [lia|]. split; [exact E|]. intros k Hk. lia.
    + intros H. apply IH in H as (Hle & Hat & Hbefore).
      replace (j - i)%nat with (S (j - S i)) by lia.
      split; [lia|]. split; [exact Hat|].
      intros [|k] Hk; [exact E|]. apply Hbefore. lia.
Qed.

Lemma search_first (needle s : text) (i j : nat) :
  startsWith (drop j s) needle = true ->
  (forall k, (k < j)%nat -> startsWith (drop k s) needle = false) ->
  (j <= length s)%nat ->
  search needle s i = Some (i + j)%nat.
Proof.
  revert i j. induction s as [|c s IH]; intros i j Hat Hbefore Hlen; simpl in *.
  - assert (j = 0%nat) as -> by lia. simpl in Hat. rewrite Hat. f_equal. lia.
  - destruct j as [|j].
    + simpl in Hat. rewrite Hat. f_equal. lia.
    + pose proof (Hbefore 0%nat ltac:(lia)) as H0. simpl in H0. rewrite H0.
      rewrite (IH (S i) j); [f_equal; lia|done| |lia].
      intros k Hk. apply (Hbefore (S k)). lia.
Qed.

Lemma absent_infix (needle a s b : text) :
  absent needle (a ++ s ++ b) -> absent needle s.
Proof.
  intros H k. destruct (startsWith (drop k s) needle) eqn:E; [|done].
  destruct (decide (k <= length s)%nat) as [Hk|Hk].
  - specialize (H (length a + k)%nat).
    rewrite drop_app_add', drop_app_le in H by done.
    by rewrite (startsWith_extend _ _ b E) in H.
  - rewrite drop_ge in E by lia.
    specialize (H (length a + length s)%nat).
    rewrite drop_app_add', drop_app_length in H by done.
    replace b with ([] ++ b) in H by done.
    by rewrite (startsWith_extend _ _ b E) in H.
Qed.

Lemma absent_indexOf (needle s : text) (position : nat) :
  absent needle s -> indexOf s needle position = None.
Proof.
  intros H. unfold indexOf. apply search_None. intros k.
  rewrite drop_drop. apply H.
Qed.

Lemma indexOf_absent (needle s : text) :
  indexOf s needle 0 = None -> absent needle s.
Proof. unfold indexOf. rewrite drop_0. apply search_None. Qed.

End Search.

(** ** The scanner of the date filter *)

Section FilterScanner.
Variable e : JS.env.
Variable cutoff : JS.number.



(** Without an opening marker the scanner stays outside of programmes. *)
Lemma transform_no_open (st : Filter.state) (chunk : text) :
  Filter.st_insideProgramme st = false ->
  absent openMarker (Filter.st_buffer st ++ chunk) ->
  exists st' pushed,
    Filter.transform e cutoff st chunk = Some (st', pushed) /\
    Filter.st_insideProgramme st' = false /\
    pushed ++ Filter.st_buffer st' = Filter.st_buffer st ++ chunk.
Proof.
  intros Hin Habs. unfold Filter.transform.
  set (b := Filter.st_buffer st ++ chunk) in *.
  cbn [Filter.loop]. unfold Filter.seek. cbn [Filter.insideProgramme Filter.buffer Filter.pos Filter.output Filter.programmeStart].
  rewrite Hin. fold openMarker. rewrite (absent_indexOf _ _ _ Habs).
  destruct (0 + 1000 <? length b)%nat.
  - eexists _, _. split; [reflexivity|]. split; [done|].
    cbn. unfold slice_but_last, slice_last, slice_from. rewrite drop_0. apply take_drop.
  - eexists _, _. split; [reflexivity|]. split; done.
Qed.

Lemma run_no_open (chunks : list text) (st : Filter.state) :
  Filter.st_insideProgramme st = false ->
  absent openMarker (Filter.st_buffer st ++ concat chunks) ->
  Filter.run e cutoff st chunks = Some (Filter.st_buffer st ++ concat chunks).
Proof.
  revert st. induction chunks as [|chunk rest IH]; intros st Hin Habs.
  - simpl. unfold Filter.flush. by rewrite app_nil_r.
  - simpl in *.
    destruct (transform_no_open st chunk Hin) as (st' & pushed & Ht & Hin' & Heq).
    { rewrite app_assoc in Habs.
      apply (absent_infix _ [] _ (concat rest)). exact Habs. }
    rewrite Ht. rewrite IH.
    + by rewrite !app_assoc, Heq.
    + done.
    + rewrite app_assoc, <- Heq, <- !app_assoc in Habs.
      apply (absent_infix _ pushed _ []). by rewrite app_nil_r.
Qed.

End FilterScanner.

(** ** The loop of the filter reaches a [break] *)

Section FilterTotal.
Variable e : JS.env.
Variable cutoff : JS.number.

Lemma indexOf_bounds (s needle : text) (position j : nat) :
  (0 < length needle)%nat ->
  indexOf s needle position = Some j ->
  (Nat.min position (length s) <= j)%nat /\ (j + length needle <= length s)%nat.
Proof.
  unfold indexOf. intros Hn H. apply search_Some in H as (Hle & Hat & _).
  split; [done|]. apply startsWith_length in Hat.
  rewrite !length_drop in Hat. lia.
Qed.

Lemma seek_measure (s s1 : Filter.scan) :
  Filter.seek s = Filter.Next s1 ->
  Filter.buffer s1 = Filter.buffer s /\
  (length (Filter.buffer s) - Filter.pos s1 <= length (Filter.buffer s) - Filter.pos s)%nat.
Proof.
  unfold Filter.seek. destruct (Filter.insideProgramme s).
  - intros [= <-]. done.
  - destruct (indexOf _ _ _) as [idx|] eqn:E.
    + intros [= <-]. simpl. split; [done|].
      apply indexOf_bounds in E; [lia|]. simpl. lia.
    + by destruct (_ <? _)%nat.
Qed.

Lemma complete_measure (s s2 : Filter.scan) :
  Filter.complete e cutoff s = Filter.Next s2 ->
  Filter.buffer s2 = Filter.buffer s /\
  (length (Filter.buffer s) - Filter.pos s2 < length (Filter.buffer s) - Filter.pos s)%nat.
Proof.
  unfold Filter.complete. destruct (indexOf _ (txt ">") _); [|done].
  destruct (indexOf _ (txt "</programme>") _) as [idx|] eqn:E; [|done].
  intros [= <-]. simpl. split; [done|].
  apply indexOf_bounds in E; [|simpl; lia].
  change (length (txt "</programme>")) with 12%nat in E. lia.
Qed.

Lemma loop_total (fuel : nat) (s : Filter.scan) :
  (length (Filter.buffer s) - Filter.pos s < fuel)%nat ->
  is_Some (Filter.loop fuel e cutoff s).
Proof.
  revert s. induction fuel as [|fuel IH]; intros s Hm; [lia|].
  simpl. destruct (Filter.seek s) as [s'|s1] eqn:E1; [done|].
  apply seek_measure in E1 as [Hb1 Hm1].
  destruct (Filter.complete e cutoff s1) as [s'|s2] eqn:E2; [done|].
  apply complete_measure in E2 as [Hb2 Hm2].
  apply IH. rewrite Hb2, Hb1 in *. lia.
Qed.

Lemma transform_total (st : Filter.state) (chunk : text) :
  is_Some (Filter.transform e cutoff st chunk).
Proof.
  unfold Filter.transform.
  match goal with |- context [Filter.loop ?f _ _ ?s] =>
    destruct (loop_total f s) as [s' ->]; [simpl; lia|done] end.
Qed.

Lemma run_total (chunks : list text) (st : Filter.state) :
  is_Some (Filter.run e cutoff st chunks).
Proof.
  revert st. induction chunks as [|chunk rest IH]; intros st; simpl; [done|].
  destruct (transform_total st chunk) as [[st' pushed] ->].
  by destruct (IH st') as [out ->].
Qed.

End FilterTotal.

(** ** The date filter on an input that ends inside a programme *)

(** The input is [head ++ tail], where [tail] begins with an opening
    programme marker and holds no closing marker. As long as the buffer
    starts in [head], no call of [transform] moves its start more than
    nine code units into [tail], and not at all when the opening marker of
    [tail] is complete in the buffer; once the buffer starts in [tail],
    everything is passed on. *)

Section FilterTailLoop.
Variable e : JS.env.
Variable cutoff : JS.number.
Variables head tail : text.
Hypothesis tail_opens : startsWith tail openMarker = true.
Hypothesis tail_open : absent closeMarker tail.




Variable B : text.
Variable m : nat.
Hypothesis closes_before : forall i, startsWith (drop i B) closeMarker = true -> (i + 12 <= m)%nat.
Hypothesis opens_at : (m + 10 <= length B)%nat -> startsWith (drop m B) openMarker = true.


End FilterTailLoop.

Section FilterTail.
Variable e : JS.env.
Variable cutoff : JS.number.
Variables head tail : text.
Hypothesis tail_opens : startsWith tail openMarker = true.
Hypothesis tail_open : absent closeMarker tail.




End FilterTail.

(** For every input, every chunking and every option the filter returns. *)
Lemma streamFilterEPG_total (e : JS.env) (chunks : list text) (options : Filter.FilterOptions) :
  is_Some (Filter.streamFilterEPG e chunks options).
Proof.
  unfold Filter.streamFilterEPG. destruct (Filter.noDays options); [done|].
  destruct (Filter.days options) as [[n|]|]; try done. apply run_total.
Qed.

(** ** One programme in one chunk *)

(** The document is [pre], one programme element and [post]; the element
    is the opening marker, [attrs], a closing angle bracket, [body] and the
    closing marker. The hypotheses place the three searches of the loop;
    [post] holds no further programme and at most a thousand code units.
    The text around the element is written unchanged, the element itself
    is written exactly when [keepProgramme] accepts the start attribute
    read from its opening tag. *)
Lemma filter_one_programme (e : JS.env) (cutoff : JS.number) (pre attrs body post : text) :
  let openTag := openMarker ++ attrs ++ txt ">" in
  let element := openTag ++ body ++ closeMarker in
  let doc := pre ++ element ++ post in
  indexOf doc openMarker 0 = Some (length pre) ->
  indexOf doc (txt ">") (length pre) = Some (length pre + length openTag - 1)%nat ->
  indexOf doc closeMarker (length pre)
  = Some (length pre + length openTag + length body)%nat ->
  indexOf doc openMarker (length pre + length element) = None ->
  (length post <= 1000)%nat ->
  Filter.run e cutoff Filter.initial [doc]
  = Some (pre ++ (if Filter.keepProgramme e cutoff (default [] (Filter.matchStart openTag))
                  then element else [])
              ++ post).
Proof.
  intros openTag element doc H1 H2 H3 H4 Hpost.
  assert (length openTag = (11 + length attrs)%nat) as HlenTag.
  { unfold openTag. rewrite !length_app. simpl. lia. }
  assert (length element = (length openTag + length body + 12)%nat) as HlenEl.
  { unfold element. rewrite !length_app. simpl. lia. }
  assert (length doc = S (length pre + length element + length post - 1)) as Hlen.
  { unfold doc. rewrite !length_app. lia. }
  cbn [Filter.run]. unfold Filter.transform. cbn [Filter.initial Filter.st_buffer
    Filter.st_insideProgramme Filter.st_programmeStart app].
  fold doc. rewrite Hlen. set (fuel := (length pre + length element + length post - 1)%nat).
  cbn [Filter.loop]. unfold Filter.seek at 1.
  cbn [Filter.insideProgramme Filter.buffer Filter.pos Filter.output Filter.programmeStart].
  fold openMarker. rewrite H1.
  unfold Filter.complete at 1.
  cbn [Filter.insideProgramme Filter.buffer Filter.pos Filter.output Filter.programmeStart].
  rewrite H2. fold closeMarker. rewrite H3. cbn [truthy].
  assert (slice doc 0 (length pre) = pre) as Hpre.
  { unfold slice, doc. by rewrite drop_0, Nat.sub_0_r, take_app_length. }
  assert (slice doc (length pre) (length pre + length openTag - 1 + 1) = openTag) as Htag.
  { unfold slice, doc, element. rewrite drop_app_length.
    replace (length pre + length openTag - 1 + 1 - length pre)%nat with (length openTag) by lia.
    by rewrite <- (app_assoc openTag), take_app_length. }
  assert (slice doc (length pre) (length pre + length openTag + length body + 12) = element)
    as Hel.
  { unfold slice, doc. rewrite drop_app_length.
    replace (length pre + length openTag + length body + 12 - length pre)%nat
      with (length element) by lia.
    by rewrite take_app_length. }
  rewrite Hpre, Htag, Hel.
  destruct fuel as [|fuel'] eqn:Hfuel; [unfold fuel in Hfuel; lia|].
  cbn [Filter.loop]. unfold Filter.seek.
  cbn [Filter.insideProgramme Filter.buffer Filter.pos Filter.output Filter.programmeStart].
  fold openMarker.
  replace (length pre + length openTag + length body + 12)%nat
    with (length pre + length element)%nat by lia.
  rewrite H4.
  assert ((length pre + length element + 1000 <? length doc)%nat = false) as ->.
  { apply Nat.ltb_ge. unfold doc. rewrite !length_app. lia. }
  cbn [Filter.buffer Filter.pos Filter.output Filter.insideProgramme Filter.programmeStart
       Filter.flush Filter.st_buffer app].
  unfold slice_from, doc. rewrite (app_assoc pre element post), <- length_app, drop_app_length.
  destruct (Filter.matchStart openTag) as [v|]; cbn [default];
    by rewrite <- !app_assoc.
Qed.

(** ** The cutoff of the date filter *)

Lemma TimeClip_inRange (t : Z) :
  Z.abs t <= 8640000000000000 -> JS.TimeClip t = Some t.
Proof. intros H. unfold JS.TimeClip. apply Z.leb_le in H. by rewrite H. Qed.

Lemma cutoffTimestamp_midnight (e : JS.env) (n : Z) :
  Z.abs (JS.UTC e (JS.Day (JS.LocalTime e (JS.now e)) * JS.msPerDay)) <= 8640000000000000 ->
  Filter.cutoffTimestamp e n =
  JS.TimeClip (JS.UTC e ((JS.Day (JS.LocalTime e (JS.now e)) + n) * JS.msPerDay)).
Proof.
  intros Hr. unfold Filter.cutoffTimestamp, JS.setHours0, JS.setDatePlus.
  set (D := JS.Day (JS.LocalTime e (JS.now e))) in *.
  assert (JS.MakeDate D (JS.MakeTime 0 0 0 0) = D * JS.msPerDay) as ->.
  { unfold JS.MakeDate, JS.MakeTime. lia. }
  rewrite (TimeClip_inRange _ Hr).
  assert (JS.LocalTime e (JS.UTC e (D * JS.msPerDay)) = D * JS.msPerDay) as ->.
  { unfold JS.LocalTime, JS.UTC. lia. }
  unfold JS.Day at 1, JS.TimeWithinDay.
  rewrite Z.div_mul, Z.mod_mul by done.
  unfold JS.MakeDate. by rewrite Z.add_0_r.
Qed.

Lemma keepProgramme_lt (e : JS.env) (start : text) (d c : Z) :
  start <> [] ->
  Filter.programmeDate e start = Some d ->
  (Filter.keepProgramme e (Some c) start = true <-> d < c).
Proof.
  intros Hne Hd. unfold Filter.keepProgramme.
  destruct start; [done|]. cbn [truthy]. rewrite Hd. simpl. apply Z.ltb_lt.
Qed.

(** ** The window merger *)

Section MergeProps.
Import Merge.

Lemma withGuide_same (ch : ChannelGuide) : withGuide ch (Guide ch) = ch.
Proof. by destruct ch. Qed.

Lemma appended_refl (source : list ChannelGuide) (ch : ChannelGuide) :
  appended source ch ch.
Proof. exists []. split; [|done]. by rewrite app_nil_r, withGuide_same. Qed.

Lemma appended_trans (s1 s2 : list ChannelGuide) (a b c : ChannelGuide) :
  appended s1 a b -> appended s2 b c -> appended (s1 ++ s2) a c.
Proof.
  intros (x1 & -> & H1) (x2 & -> & H2). exists (x1 ++ x2). split.
  - unfold withGuide. simpl. by rewrite app_assoc.
  - apply Forall_app. split.
    + eapply Forall_impl; [exact H1|]. intros p (nc & Hin & Hn & Hp).
      exists nc. split; [|done]. apply elem_of_app. by left.
    + eapply Forall_impl; [exact H2|]. intros p (nc & Hin & Hn & Hp).
      exists nc. split; [|done]. apply elem_of_app. by right.
Qed.

Lemma exists_false (guide : list ProgrammeGuide) (p : ProgrammeGuide) :
  exists_ guide p = false -> StartTime p ∉ StartTime <$> guide.
Proof.
  intros H Hin. apply list_elem_of_fmap in Hin as (q & Heq & Hq).
  assert (exists_ guide p = true) as Ht; [|congruence].
  apply existsb_exists. exists q. split; [by apply list_elem_of_In|].
  apply Z.eqb_eq. congruence.
Qed.

Lemma mergeGuide_spec (newGuide guide : list ProgrammeGuide) :
  exists extra,
    mergeGuide guide newGuide = guide ++ extra /\
    Forall (fun p => p ∈ newGuide) extra /\
    (distinctStarts guide -> distinctStarts (guide ++ extra)).
Proof.
  unfold mergeGuide. revert guide.
  induction newGuide as [|p rest IH]; intros guide; simpl.
  - exists []. rewrite app_nil_r. done.
  - destruct (exists_ guide p) eqn:E.
    + destruct (IH guide) as (extra & Heq & Hin & Hnd).
      exists extra. split; [done|]. split; [|done].
      eapply Forall_impl; [exact Hin|]. intros q Hq. by apply elem_of_cons; right.
    + destruct (IH (guide ++ [p])) as (extra & Heq & Hin & Hnd).
      exists (p :: extra). rewrite Heq, <- app_assoc. split; [done|]. split.
      * constructor; [by apply elem_of_cons; left|].
        eapply Forall_impl; [exact Hin|]. intros q Hq. by apply elem_of_cons; right.
      * intros Hg.
        replace (guide ++ p :: extra) with ((guide ++ [p]) ++ extra)
          by (by rewrite <- app_assoc).
        apply Hnd.
        unfold distinctStarts in *. rewrite fmap_app. apply NoDup_app.
        split; [done|]. split.
        -- intros x Hx Hx'. apply list_elem_of_singleton in Hx'. subst x.
           by apply (exists_false _ _ E).
        -- apply NoDup_singleton.
Qed.

Lemma mergeChannel_spec (baseGuide : EPGResponse) (newChannel : ChannelGuide) :
  length (mergeChannel baseGuide newChannel) = length baseGuide /\
  (guideInvariant baseGuide -> guideInvariant (mergeChannel baseGuide newChannel)) /\
  (forall i ch, baseGuide !! i = Some ch ->
     exists ch', mergeChannel baseGuide newChannel !! i = Some ch' /\
                 appended [newChannel] ch ch').
Proof.
  unfold mergeChannel.
  destruct (list_find _ baseGuide) as [[j baseChannel]|] eqn:E.
  - cbv beta iota. apply list_find_Some in E as (Hj & Hnum & _).
    destruct (mergeGuide_spec (Guide newChannel) (Guide baseChannel))
      as (extra & Heq & Hin & Hnd).
    rewrite Heq. split; [apply length_insert|]. split.
    + intros Hinv. apply Forall_insert; [done|]. simpl. apply Hnd.
      eapply (Forall_lookup_1 _ _ _ _ Hinv Hj).
    + intros i ch Hi. destruct (decide (i = j)) as [->|Hne].
      * assert (ch = baseChannel) as -> by congruence.
        eexists. split; [apply list_lookup_insert_eq; by eapply lookup_lt_Some|].
        exists extra. split; [done|].
        eapply Forall_impl; [exact Hin|]. intros p Hp.
        exists newChannel. split; [by apply list_elem_of_singleton|]. done.
      * exists ch. split; [by rewrite list_lookup_insert_ne|]. apply appended_refl.
  - split; [done|]. split; [done|]. intros i ch Hi.
    exists ch. split; [done|]. apply appended_refl.
Qed.

Lemma mergeEPGData_spec (newData baseGuide : EPGResponse) :
  length (mergeEPGData baseGuide newData) = length baseGuide /\
  (guideInvariant baseGuide -> guideInvariant (mergeEPGData baseGuide newData)) /\
  (forall i ch, baseGuide !! i = Some ch ->
     exists ch', mergeEPGData baseGuide newData !! i = Some ch' /\
                 appended newData ch ch').
Proof.
  unfold mergeEPGData. revert baseGuide.
  induction newData as [|nc rest IH]; intros baseGuide; simpl.
  - split; [done|]. split; [done|]. intros i ch Hi.
    exists ch. split; [done|]. apply appended_refl.
  - destruct (mergeChannel_spec baseGuide nc) as (Hl1 & Hi1 & Hf1).
    destruct (IH (mergeChannel baseGuide nc)) as (Hl2 & Hi2 & Hf2).
    split; [congruence|]. split; [by intros H; apply Hi2, Hi1|].
    intros i ch Hi. destruct (Hf1 i ch Hi) as (ch1 & Hc1 & Ha1).
    destruct (Hf2 i ch1 Hc1) as (ch2 & Hc2 & Ha2).
    exists ch2. split; [done|]. apply (appended_trans [nc] rest _ _ _ Ha1 Ha2).
Qed.

Lemma mergeWindows_spec (windows : list EPGResponse) (baseGuide : EPGResponse) :
  length (mergeWindows baseGuide windows) = length baseGuide /\
  (guideInvariant baseGuide -> guideInvariant (mergeWindows baseGuide windows)) /\
  (forall i ch, baseGuide !! i = Some ch ->
     exists ch', mergeWindows baseGuide windows !! i = Some ch' /\
                 appended (concat windows) ch ch').
Proof.
  unfold mergeWindows. revert baseGuide.
  induction windows as [|w rest IH]; intros baseGuide; simpl.
  - split; [done|]. split; [done|]. intros i ch Hi.
    exists ch. split; [done|]. apply appended_refl.
  - destruct (mergeEPGData_spec w baseGuide) as (Hl1 & Hi1 & Hf1).
    destruct (IH (mergeEPGData baseGuide w)) as (Hl2 & Hi2 & Hf2).
    split; [congruence|]. split; [by intros H; apply Hi2, Hi1|].
    intros i ch Hi. destruct (Hf1 i ch Hi) as (ch1 & Hc1 & Ha1).
    destruct (Hf2 i ch1 Hc1) as (ch2 & Hc2 & Ha2).
    exists ch2. split; [done|]. apply (appended_trans w (concat rest) _ _ _ Ha1 Ha2).
Qed.

Lemma elem_of_concat {A : Type} (x : A) (ls : list (list A)) :
  x ∈ concat ls -> exists l, x ∈ l /\ l ∈ ls.
Proof.
  induction ls as [|l ls IH]; simpl; intros H.
  - by apply elem_of_nil in H.
  - apply elem_of_app in H as [H|H].
    + exists l. split; [done|]. by apply elem_of_cons; left.
    + destruct (IH H) as (l' & Hx & Hl). exists l'. split; [done|]. by apply elem_of_cons; right.
Qed.

Lemma distinctStarts_inj (guide : list ProgrammeGuide) (p q : ProgrammeGuide) :
  distinctStarts guide -> p ∈ guide -> q ∈ guide ->
  StartTime p = StartTime q -> p = q.
Proof.
  unfold distinctStarts. induction guide as [|x guide IH]; intros Hnd Hp Hq Heq.
  - by apply elem_of_nil in Hp.
  - rewrite fmap_cons in Hnd. apply NoDup_cons in Hnd as [Hx Hnd].
    apply elem_of_cons in Hp as [->|Hp]; apply elem_of_cons in Hq as [->|Hq].
    + done.
    + exfalso. apply Hx. rewrite Heq. by apply list_elem_of_fmap_2.
    + exfalso. apply Hx. rewrite <- Heq. by apply list_elem_of_fmap_2.
    + by apply IH.
Qed.

End MergeProps.

(** ** Rounding to the nearest double *)

Section Rounding.

Lemma two_nonzero : ~ (2 == 0)%Q.
Proof. discriminate. Qed.

Lemma pow2_pos (x : Z) : (0 < JS.pow2 x)%Q.
Proof. apply Qpower_0_lt. reflexivity. Qed.

Lemma pow2_Z (x : Z) : 0 <= x -> (JS.pow2 x == inject_Z (2 ^ x))%Q.
Proof. intros H. unfold JS.pow2. rewrite Zpower_Qpower by exact H. reflexivity. Qed.

Lemma ilog2_le (a : Q) : (0 < a)%Q -> (JS.pow2 (JS.ilog2 a) <= a)%Q.
Proof.
  intros Ha. unfold JS.ilog2.
  destruct (Qle_bool _ a) eqn:E; [apply Qle_bool_iff; exact E|].
  destruct a as [n d]. cbn [Qnum Qden].
  assert (0 < n) as Hn by (unfold Qlt in Ha; simpl in Ha; lia).
  pose proof (Z.log2_spec n Hn) as [Hn1 _].
  pose proof (Z.log2_spec (Z.pos d) ltac:(lia)) as [_ Hd2].
  pose proof (Z.log2_nonneg n) as Hn0. pose proof (Z.log2_nonneg (Z.pos d)) as Hd0.
  replace (Z.log2 n - Z.log2 (Z.pos d) - 1) with (Z.log2 n - Z.succ (Z.log2 (Z.pos d))) by lia.
  unfold JS.pow2. rewrite Qpower_minus by exact two_nonzero.
  fold (JS.pow2 (Z.log2 n)). fold (JS.pow2 (Z.succ (Z.log2 (Z.pos d)))).
  rewrite !pow2_Z by lia. rewrite (Qmake_Qdiv n d).
  set (x := 2 ^ Z.log2 n) in *. set (y := 2 ^ Z.succ (Z.log2 (Z.pos d))) in *.
  assert (0 < y) by lia.
  apply Qle_shift_div_r; [change 0%Q with (inject_Z 0); rewrite <- Zlt_Qlt; lia|].
  unfold Qdiv. rewrite <- Qmult_assoc, (Qmult_comm (/ _)), Qmult_assoc.
  apply Qle_shift_div_l; [change 0%Q with (inject_Z 0); rewrite <- Zlt_Qlt; lia|].
  rewrite <- !inject_Z_mult, <- Zle_Qle. nia.
Qed.

Lemma ilog2_lt (a : Q) (y : Z) : (0 < a)%Q -> (a < JS.pow2 (y + 1))%Q -> JS.ilog2 a <= y.
Proof.
  intros Ha Hy. pose proof (ilog2_le a Ha) as Hl.
  assert (JS.ilog2 a < y + 1); [|lia].
  apply (Qpower_lt_compat_l_inv 2); [|reflexivity].
  apply Qle_lt_trans with a; assumption.
Qed.

Lemma roundHalfEven_ge (q : Q) (n : Z) : (inject_Z n <= q)%Q -> n <= JS.roundHalfEven q.
Proof.
  intros H. apply Qfloor_resp_le in H. rewrite Qfloor_Z in H. unfold JS.roundHalfEven.
  destruct (Qcompare _ _); [destruct (Z.even _)| |]; lia.
Qed.

Lemma roundHalfEven_le (q : Q) (n : Z) : (q <= inject_Z n)%Q -> JS.roundHalfEven q <= n.
Proof.
  intros H. unfold JS.roundHalfEven.
  pose proof (Qfloor_le q) as Hf.
  assert (Qfloor q <= n) as Hfn.
  { apply Qfloor_resp_le in H. rewrite Qfloor_Z in H. exact H. }
  destruct (Z.eq_dec (Qfloor q) n) as [E|E].
  - assert (q - inject_Z (Qfloor q) == 0)%Q as Hz.
    { rewrite E. apply Qle_antisym.
      + apply (Qplus_le_l _ _ (inject_Z n)). ring_simplify. exact H.
      + apply (Qplus_le_l _ _ (inject_Z n)). ring_simplify. rewrite <- E. exact Hf. }
    rewrite Hz. simpl. lia.
  - destruct (Qcompare _ _); [destruct (Z.even _)| |]; lia.
Qed.

(** Rounding is monotone against the numbers that every double format
    with a finer unit in the last place contains: a positive [a] below
    [2 ^ (y + 53)] is rounded to a multiple of [2 ^ x] for some [x <= y],
    so its double lies between any two multiples of [2 ^ y] that enclose
    [a]. *)
Lemma toDouble_bounds (a : Q) (y lo hi : Z) :
  (0 < a)%Q -> (a < JS.pow2 (y + 53))%Q -> -1074 <= y ->
  (inject_Z lo * JS.pow2 y <= a)%Q -> (a <= inject_Z hi * JS.pow2 y)%Q ->
  (inject_Z hi * JS.pow2 y < JS.pow2 1024)%Q ->
  exists r, JS.toDouble a = JS.Finite r /\
    (inject_Z lo * JS.pow2 y <= r)%Q /\ (r <= inject_Z hi * JS.pow2 y)%Q.
Proof.
  intros Ha Hy Hy0 Hlo Hhi Hfin.
  unfold JS.toDouble.
  assert (Qeq_bool a 0 = false) as ->.
  { destruct (Qeq_bool a 0) eqn:E; [|reflexivity]. apply Qeq_bool_iff in E.
    rewrite E in Ha. discriminate Ha. }
  assert (Qle_bool 0 a = true) as Hpos by (apply Qle_bool_iff; apply Qlt_le_weak; exact Ha).
  rewrite Hpos.
  assert (Qabs a = a) as -> by (destruct a as [[|n|n] d]; try reflexivity; discriminate Ha).
  pose proof (ilog2_lt a (y + 52) Ha) as Hl.
  replace (y + 52 + 1) with (y + 53) in Hl by lia. specialize (Hl Hy).
  set (x := Z.max (JS.ilog2 a - 52) (-1074)).
  assert (x <= y) as Hx by lia.
  assert (JS.pow2 y == inject_Z (2 ^ (y - x)) * JS.pow2 x)%Q as Hpy.
  { rewrite <- pow2_Z by lia. unfold JS.pow2. rewrite <- Qpower_plus by exact two_nonzero.
    replace (y - x + x) with y by lia. reflexivity. }
  pose proof (pow2_pos x) as Hpx.
  set (m := JS.roundHalfEven (a / JS.pow2 x)).
  assert (lo * 2 ^ (y - x) <= m) as Hm1.
  { apply roundHalfEven_ge. apply Qle_shift_div_l; [exact Hpx|].
    rewrite inject_Z_mult, <- Qmult_assoc, <- Hpy. exact Hlo. }
  assert (m <= hi * 2 ^ (y - x)) as Hm2.
  { apply roundHalfEven_le. apply Qle_shift_div_r; [exact Hpx|].
    rewrite inject_Z_mult, <- Qmult_assoc, <- Hpy. exact Hhi. }
  assert (inject_Z lo * JS.pow2 y <= inject_Z m * JS.pow2 x)%Q as Hr1.
  { rewrite Hpy, Qmult_assoc, <- inject_Z_mult.
    apply Qmult_le_compat_r; [rewrite <- Zle_Qle; exact Hm1|apply Qlt_le_weak; exact Hpx]. }
  assert (inject_Z m * JS.pow2 x <= inject_Z hi * JS.pow2 y)%Q as Hr2.
  { rewrite Hpy, Qmult_assoc, <- inject_Z_mult.
    apply Qmult_le_compat_r; [rewrite <- Zle_Qle; exact Hm2|apply Qlt_le_weak; exact Hpx]. }
  destruct (Qle_bool (JS.pow2 1024) _) eqn:E.
  { apply Qle_bool_iff in E. rewrite Qred_correct in E. exfalso.
    apply (Qlt_irrefl (JS.pow2 1024)).
    apply Qle_lt_trans with (inject_Z hi * JS.pow2 y)%Q; [|exact Hfin].
    apply Qle_trans with (inject_Z m * JS.pow2 x)%Q; assumption. }
  eexists. split; [reflexivity|]. rewrite Qred_correct. split; assumption.
Qed.

(** Every double is its own rounding: the doubles are the multiples
    [m * 2 ^ y] with a significand [m] below [2 ^ 53] and an exponent [y]
    of at least -1074, below [2 ^ 1024]. *)
Lemma toDouble_exact (m y : Z) :
  0 < m < 2 ^ 53 -> -1074 <= y -> (inject_Z m * JS.pow2 y < JS.pow2 1024)%Q ->
  exists r, JS.toDouble (inject_Z m * JS.pow2 y) = JS.Finite r /\
            (r == inject_Z m * JS.pow2 y)%Q.
Proof.
  intros Hm Hy Hfin.
  pose proof (pow2_pos y) as Hp.
  destruct (toDouble_bounds (inject_Z m * JS.pow2 y) y m m) as (r & Hr & H1 & H2).
  - rewrite <- (Qmult_0_l (JS.pow2 y)). apply Qmult_lt_compat_r; [exact Hp|].
    change 0%Q with (inject_Z 0). rewrite <- Zlt_Qlt. lia.
  - unfold JS.pow2. rewrite Qpower_plus by exact two_nonzero.
    rewrite Qmult_comm. apply Qmult_lt_l; [exact Hp|].
    change (2 ^ 53)%Q with (inject_Z (2 ^ 53)). rewrite <- Zlt_Qlt. lia.
  - exact Hy.
  - apply Qle_refl.
  - apply Qle_refl.
  - exact Hfin.
  - exists r. split; [exact Hr|]. by apply Qle_antisym.
Qed.

(** On a double [b], the sum with zero is what rounding gives. *)
Lemma addNumbers_zero (m y : Z) :
  0 < m < 2 ^ 53 -> -1074 <= y -> (inject_Z m * JS.pow2 y < JS.pow2 1024)%Q ->
  let b := (inject_Z m * JS.pow2 y)%Q in
  JS.addNumbers 0 b = JS.Finite b /\
  exists r, JS.toDouble (0 + b) = JS.Finite r /\ (r == b)%Q.
Proof.
  intros Hm Hy Hfin b. split; [reflexivity|].
  destruct (toDouble_exact m y Hm Hy Hfin) as (r & Hr & Heq).
  assert (JS.toDouble (0 + b) = JS.toDouble b) as ->; [|by exists r].
  unfold b. destruct (inject_Z m * JS.pow2 y)%Q as [n d]. unfold Qplus. simpl.
  rewrite Z.mul_1_r. reflexivity.
Qed.

End Rounding.

(** ** The clock arithmetic of the placeholder generator *)

Section Hours.

Lemma truncate_floor (q : Q) : (0 <= q)%Q -> JS.truncate q = Qfloor q.
Proof. intros H. unfold JS.truncate. apply Qle_bool_iff in H. by rewrite H. Qed.

Lemma Qfloor_between (q : Q) (n : Z) :
  (inject_Z n <= q)%Q -> (q < inject_Z (n + 1))%Q -> Qfloor q = n.
Proof.
  intros H1 H2. apply Qfloor_resp_le in H1. rewrite Qfloor_Z in H1.
  assert (Qfloor q < n + 1); [|lia].
  rewrite Zlt_Qlt. apply Qle_lt_trans with q; [apply Qfloor_le|exact H2].
Qed.

Lemma Qfloor_add_hour (h : Z) (d : Q) : Qfloor (inject_Z h + d) = h + Qfloor d.
Proof.
  destruct d as [a b]. unfold Qfloor, Qplus, inject_Z. simpl.
  rewrite Z.mul_1_r. rewrite Z.div_add_l by done. done.
Qed.

(** The hour that [setHours] is given: the clock hour [h] plus the
    duration [d], rounded to a double and truncated. It is never less than
    [h] plus the whole hours of [d]; it is more when the fraction of [d]
    is so close to one that the sum rounds up to the next integer. *)
Lemma hour_sum (h : Z) (d : Q) :
  0 <= h <= 23 -> (0 <= d)%Q -> (d <= 12)%Q ->
  exists s, JS.addNumbers (inject_Z h) d = JS.Finite s /\
    h + Qfloor d <= JS.truncate s /\
    ((d <= inject_Z (Qfloor d + 1) - JS.pow2 (-47))%Q -> JS.truncate s = h + Qfloor d).
Proof.
  intros Hh Hd0 Hd12. unfold JS.addNumbers.
  destruct (Qeq_bool (inject_Z h) 0) eqn:Eh.
  { apply Qeq_bool_iff in Eh. assert (h = 0) as ->.
    { unfold Qeq in Eh. simpl in Eh. lia. }
    exists d. split; [done|]. rewrite truncate_floor by done. split; [lia|intros _; lia]. }
  destruct (Qeq_bool d 0) eqn:Ed.
  { apply Qeq_bool_iff in Ed. exists (inject_Z h). split; [done|].
    rewrite truncate_floor by (change 0%Q with (inject_Z 0); rewrite <- Zle_Qle; lia).
    rewrite Qfloor_Z, (Qfloor_comp _ _ Ed). change (Qfloor 0) with 0.
    split; [lia|intros _; lia]. }
  assert (h <> 0) as Hh0.
  { intros ->. discriminate Eh. }
  set (a := (inject_Z h + d)%Q).
  assert (inject_Z h <= a)%Q as Hha.
  { unfold a. rewrite <- (Qplus_0_r (inject_Z h)) at 1. by apply Qplus_le_r. }
  assert (0 < a)%Q as Ha.
  { apply Qlt_le_trans with (inject_Z h); [|exact Hha].
    change 0%Q with (inject_Z 0). rewrite <- Zlt_Qlt. lia. }
  assert (a <= 35)%Q as Ha35.
  { unfold a. apply Qle_trans with (inject_Z h + 12)%Q; [by apply Qplus_le_r|].
    change 35%Q with (inject_Z 23 + 12)%Q. apply Qplus_le_l. rewrite <- Zle_Qle. lia. }
  assert (JS.pow2 (-47) == 1 # 140737488355328)%Q as Hp by reflexivity.
  assert (forall n : Z, inject_Z (n * 140737488355328) * JS.pow2 (-47) == inject_Z n)%Q as Hgrid.
  { intros n. rewrite Hp, inject_Z_mult. unfold Qeq. simpl. lia. }
  assert (a < JS.pow2 (-47 + 53))%Q as Hlt.
  { apply Qle_lt_trans with 35%Q; [exact Ha35|reflexivity]. }
  assert (inject_Z (h + Qfloor d) <= a)%Q as Hlo.
  { unfold a. rewrite inject_Z_plus. apply Qplus_le_r. apply Qfloor_le. }
  destruct (toDouble_bounds a (-47) ((h + Qfloor d) * 140737488355328) (35 * 140737488355328))
    as (r & Hr & Hr1 & _); try done.
  { by rewrite Hgrid. }
  { by rewrite Hgrid. }
  rewrite Hgrid in Hr1.
  assert (0 <= Qfloor d) as Hfl.
  { change 0 with (Qfloor 0). by apply Qfloor_resp_le. }
  assert (0 <= r)%Q as Hr0.
  { apply Qle_trans with (inject_Z (h + Qfloor d)); [|exact Hr1].
    change 0%Q with (inject_Z 0). rewrite <- Zle_Qle. lia. }
  exists r. split; [exact Hr|]. rewrite truncate_floor by exact Hr0. split.
  { apply Qfloor_resp_le in Hr1. by rewrite Qfloor_Z in Hr1. }
  intros Hfrac.
  destruct (toDouble_bounds a (-47) ((h + Qfloor d) * 140737488355328)
              ((h + Qfloor d + 1) * 140737488355328 - 1))
    as (r' & Hr' & _ & Hr2); try done.
  { by rewrite Hgrid. }
  { unfold Z.sub. rewrite inject_Z_plus, Qmult_plus_distr_l, Hgrid.
    unfold a. rewrite !inject_Z_plus, <- !Qplus_assoc. apply Qplus_le_r.
    apply Qle_trans with (inject_Z (Qfloor d + 1) - JS.pow2 (-47))%Q; [exact Hfrac|].
    rewrite inject_Z_plus, Hp. apply Qle_lteq. right. unfold Qeq. simpl. lia. }
  { apply Qle_lt_trans with (inject_Z (h + Qfloor d + 1)).
    - unfold Z.sub. rewrite inject_Z_plus, Qmult_plus_distr_l, Hgrid.
      rewrite <- (Qplus_0_r (inject_Z (h + Qfloor d + 1))) at 2. apply Qplus_le_r. done.
    - apply Qle_lt_trans with (inject_Z 36); [|reflexivity].
      rewrite <- Zle_Qle. assert (Qfloor d <= 12); [|lia].
      change 12 with (Qfloor 12). by apply Qfloor_resp_le. }
  rewrite Hr in Hr'. injection Hr' as <-.
  apply Qfloor_between; [exact Hr1|].
  apply Qle_lt_trans with (inject_Z ((h + Qfloor d + 1) * 140737488355328 - 1) * JS.pow2 (-47))%Q;
    [exact Hr2|].
  unfold Z.sub. rewrite inject_Z_plus, Qmult_plus_distr_l, Hgrid.
  rewrite <- (Qplus_0_r (inject_Z (h + Qfloor d + 1))) at 2. apply Qplus_lt_r. done.
Qed.

Lemma time_fields (t : Z) :
  JS.MakeDate (JS.Day t)
    (JS.MakeTime (JS.HourFromTime t) (JS.MinFromTime t) (JS.SecFromTime t) (JS.msFromTime t))
  = t.
Proof.
  unfold JS.MakeDate, JS.MakeTime, JS.Day, JS.HourFromTime, JS.MinFromTime,
    JS.SecFromTime, JS.msFromTime, JS.msPerDay, JS.msPerHour, JS.msPerMinute, JS.msPerSecond.
  Z.to_euclidean_division_equations. lia.
Qed.

Lemma HourFromTime_range (t : Z) : 0 <= JS.HourFromTime t <= 23.
Proof.
  unfold JS.HourFromTime. pose proof (Z.mod_pos_bound (t / JS.msPerHour) 24). lia.
Qed.

(** Setting the hour to [hour] moves the clock by the difference. *)
Lemma set_hour (e : JS.env) (t hour : Z) :
  let lt := JS.LocalTime e t in
  JS.UTC e (JS.MakeDate (JS.Day lt)
              (JS.MakeTime hour (JS.MinFromTime lt) (JS.SecFromTime lt) (JS.msFromTime lt)))
  = t + (hour - JS.HourFromTime lt) * JS.msPerHour.
Proof.
  intros lt. unfold JS.UTC.
  pose proof (time_fields lt) as Hf.
  unfold JS.MakeDate, JS.MakeTime in *. unfold lt, JS.LocalTime in *. lia.
Qed.


(** When the fraction of [d] is not within [2 ^ -47] of one, the clock
    moves by exactly the whole hours of [d]: the fraction is lost. *)
Lemma setHoursPlus_whole (e : JS.env) (t : Z) (d : Q) :
  (0 <= d)%Q -> (d <= 12)%Q -> (d <= inject_Z (Qfloor d + 1) - JS.pow2 (-47))%Q ->
  JS.setHoursPlus e (Some t) d = JS.TimeClip (t + Qfloor d * JS.msPerHour).
Proof.
  intros Hd0 Hd12 Hfrac. unfold JS.setHoursPlus.
  destruct (hour_sum (JS.HourFromTime (JS.LocalTime e t)) d (HourFromTime_range _) Hd0 Hd12)
    as (s & -> & _ & Hs).
  rewrite set_hour, (Hs Hfrac). f_equal. lia.
Qed.

(** At a full day of local time the hour is zero, the sum is the
    duration itself, and the clock moves by its whole hours. *)
Lemma setHoursPlus_midnight (e : JS.env) (t : Z) (d : Q) :
  JS.HourFromTime (JS.LocalTime e t) = 0 -> (0 <= d)%Q ->
  JS.setHoursPlus e (Some t) d = JS.TimeClip (t + Qfloor d * JS.msPerHour).
Proof.
  intros Hh Hd. unfold JS.setHoursPlus. rewrite Hh.
  change (JS.addNumbers (inject_Z 0) d) with (JS.Finite d). cbv iota.
  rewrite set_hour, Hh, truncate_floor by done. f_equal. lia.
Qed.

End Hours.

(** ** The loop of the placeholder generator *)

Section Blocks.
Variable e : JS.env.


(** A duration below one hour never moves the clock from a full day of
    local time. *)
Lemma blocks_stuck (d : Q) (t E : Z) (fuel : nat) :
  (0 <= d)%Q -> Qfloor d = 0 -> JS.HourFromTime (JS.LocalTime e t) = 0 ->
  Z.abs t <= 8640000000000000 -> t < E ->
  Dummy.blocks fuel e d (Some E) (Some t) = None.
Proof.
  intros Hd Hfl Hh Hr Hlt. induction fuel as [|fuel IH]; cbn [Dummy.blocks JS.lt]; [done|].
  apply Z.ltb_lt in Hlt. rewrite Hlt.
  rewrite setHoursPlus_midnight by done.
  rewrite Hfl, Z.mul_0_l, Z.add_0_r, (TimeClip_inRange _ Hr).
  by rewrite IH.
Qed.


Lemma startDate_eq :
  Dummy.startDate e =
  JS.TimeClip (JS.UTC e (JS.Day (JS.LocalTime e (JS.now e)) * JS.msPerDay)).
Proof.
  unfold Dummy.startDate, JS.setHours0. do 2 f_equal.
  unfold JS.MakeDate, JS.MakeTime. lia.
Qed.

(** The generator starts at a full day of local time. *)
Lemma midnight_hour (day : Z) :
  JS.HourFromTime (JS.LocalTime e (JS.UTC e (day * JS.msPerDay))) = 0.
Proof.
  unfold JS.LocalTime, JS.UTC, JS.HourFromTime, JS.msPerDay, JS.msPerHour.
  replace (_ - _ + _) with (day * 24 * 3600000) by lia.
  rewrite Z.div_mul by done. by rewrite Z.mod_mul.
Qed.

Lemma startDate_hour (t : Z) :
  Dummy.startDate e = Some t -> JS.HourFromTime (JS.LocalTime e t) = 0.
Proof.
  rewrite startDate_eq. unfold JS.TimeClip. destruct (_ <=? _); [|done]. intros [= <-].
  apply midnight_hour.
Qed.

Lemma endDate_eq (days : Z) :
  Z.abs (JS.UTC e (JS.Day (JS.LocalTime e (JS.now e)) * JS.msPerDay)) <= 8640000000000000 ->
  Dummy.endDate e days =
  JS.TimeClip (JS.UTC e ((JS.Day (JS.LocalTime e (JS.now e)) + days) * JS.msPerDay)).
Proof. apply cutoffTimestamp_midnight. Qed.



End Blocks.

(** ** The scanner of the placeholder injector *)

Section InjectorScanner.
Variable ins : option text.





End InjectorScanner.


Section InjectorClosing.




End InjectorClosing.


(** * The claims *)

(** ** C1 *)

(** C1 (chunk invariance of the date filter) does not hold of the code. On a
    programme followed by 1001 blanks, delivered as one chunk, the branch
    of line 55 pushes [buffer.slice(0, -1000)] although the text before
    [pos] has been pushed already, and line 127 then cuts the shortened
    buffer at the old [pos]: the programme is written twice and 23 blanks
    are lost. Delivered one code unit at a time the same document is
    copied unchanged. *)
Theorem C1_chunking_changes_output :
  Filter.streamFilterEPG envUTC (Filter.bytewise docTrailing) days3 = Some docTrailing /\
  Filter.streamFilterEPG envUTC [docTrailing] days3
  = Some (txt "<programme></programme><programme></programme>" ++ repeat " "%char 978) /\
  Filter.streamFilterEPG envUTC [docTrailing] days3
  <> Filter.streamFilterEPG envUTC (Filter.bytewise docTrailing) days3.
Proof.
  assert (Filter.streamFilterEPG envUTC (Filter.bytewise docTrailing) days3 = Some docTrailing)
    as H1 by (vm_compute; reflexivity).
  assert (Filter.streamFilterEPG envUTC [docTrailing] days3
          = Some (txt "<programme></programme><programme></programme>" ++ repeat " "%char 978))
    as H2 by (vm_compute; reflexivity).
  split; [exact H1|]. split; [exact H2|].
  rewrite H1, H2. intros H. apply (f_equal (fun o => option_map (fun t => nth 23 t "x"%char) o)) in H.
  vm_compute in H. discriminate H.
Qed.

(** ** C10 *)

(** C10: with [days] equal to 0, just as with [days] absent, the filter
    copies the input file. *)
Theorem C10_zero_days_copies (e : JS.env) (chunks : list text) :
  Filter.streamFilterEPG e chunks {| Filter.days := Some (Some 0) |} = Some (concat chunks) /\
  Filter.streamFilterEPG e chunks {| Filter.days := None |} = Some (concat chunks).
Proof. split; reflexivity. Qed.

(** ** C9 *)

(** C9: the five sample durations, for [parseDuration] of
    streaming-dummy.ts and for its copy in dummy-programming.ts. *)
Theorem C9_parseDuration_samples :
  ((Dummy.parseDuration (txt "30min") == 1 # 2)%Q /\
   (Dummy.parseDuration (txt "2hr") == 2)%Q /\
   (Dummy.parseDuration (txt "true") == 1)%Q /\
   (Dummy.parseDuration (txt "0.2") == 1 # 2)%Q /\
   (Dummy.parseDuration (txt "20hr") == 12)%Q) /\
  ((DummyProgramming.parseDuration (txt "30min") == 1 # 2)%Q /\
   (DummyProgramming.parseDuration (txt "2hr") == 2)%Q /\
   (DummyProgramming.parseDuration (txt "true") == 1)%Q /\
   (DummyProgramming.parseDuration (txt "0.2") == 1 # 2)%Q /\
   (DummyProgramming.parseDuration (txt "20hr") == 12)%Q).
Proof. repeat split; vm_compute; reflexivity. Qed.

(** ** C3 *)

Lemma keepProgramme_invalid (e : JS.env) (cutoff : JS.number) (start : text) :
  start <> [] -> Filter.programmeDate e start = None ->
  Filter.keepProgramme e cutoff start = false.
Proof.
  intros Hne Hd. unfold Filter.keepProgramme. destruct start; [done|].
  cbn [truthy]. by rewrite Hd.
Qed.

(** C3 (an element whose start attribute is present but is not a timestamp
    is passed through) does not hold of the code. Only an element without
    a start attribute takes the branch of line 114. A start attribute in
    ISO notation gives NaN for the minutes, an invalid date, and the
    comparison of line 109 is false whatever the cutoff is: the element is
    dropped. *)
Theorem C3_unparseable_start_is_dropped :
  (forall e cutoff,
     Filter.keepProgramme e cutoff (txt "2024-01-10T12:00:00Z") = false) /\
  Filter.streamFilterEPG envUTC [docWithStart (txt "2024-01-10T12:00:00Z")] days3
  = Some docWithoutProgramme /\
  Filter.streamFilterEPG envUTC (Filter.bytewise (docWithStart (txt "2024-01-10T12:00:00Z"))) days3
  = Some docWithoutProgramme /\
  Filter.streamFilterEPG envUTC [docWithStart []] days3 = Some (docWithStart []).
Proof.
  split; [intros e cutoff; apply keepProgramme_invalid; [done|reflexivity]|].
  repeat split; vm_compute; reflexivity.
Qed.

(** ** C5 *)

Lemma Qfloor_below_one (d : Q) : (0 <= d)%Q -> (d < 1)%Q -> Qfloor d = 0.
Proof.
  intros H0 H1. apply Z.le_antisymm.
  - apply Z.lt_succ_r. change (Z.succ 0) with 1. rewrite Zlt_Qlt.
    apply Qle_lt_trans with d; [apply Qfloor_le|exact H1].
  - change 0 with (Qfloor 0). by apply Qfloor_resp_le.
Qed.

(** C5 (the generator ends and its blocks have the requested length) does
    not hold of the code for a duration below one hour, such as the 0.5
    hours of the documented value 30min. [setHours] drops the fraction of
    its argument, so the next block starts where the current one starts
    and the loop never ends: whatever the fuel, the generator is still
    running. This holds for the generator of streaming-dummy.ts (line
    241) and for the one of dummy-programming.ts (line 127, horizon of
    seven days), for every clock whose local midnight and horizon end are
    representable dates and every horizon of at least one day. *)
Theorem C5_short_blocks_never_end (fuel : nat) (e : JS.env) (channel : Dummy.ChannelInfo)
    (d : Q) (title descTemplate : text) (days : Z) :
  (1 # 2 <= d)%Q -> (d < 1)%Q -> 1 <= days ->
  Z.abs (JS.UTC e (JS.Day (JS.LocalTime e (JS.now e)) * JS.msPerDay)) <= 8640000000000000 ->
  Z.abs (JS.UTC e ((JS.Day (JS.LocalTime e (JS.now e)) + days) * JS.msPerDay))
    <= 8640000000000000 ->
  Dummy.generateDummyProgrammes fuel e channel d title descTemplate days = None /\
  (days = 7 ->
   DummyProgramming.generateDummyProgrammes fuel e (Dummy.id channel) (Dummy.name channel)
     d title descTemplate = None).
Proof.
  intros Hlo Hhi Hdays Hs He.
  assert (0 <= d)%Q as H0 by (apply Qle_trans with (1 # 2)%Q; done).
  assert (Dummy.blocks fuel e d (Dummy.endDate e days) (Dummy.startDate e) = None) as Hb.
  { rewrite (endDate_eq _ _ Hs), startDate_eq.
    rewrite (TimeClip_inRange _ Hs), (TimeClip_inRange _ He).
    rewrite blocks_stuck; [done|done|by apply Qfloor_below_one|apply midnight_hour|done|].
    unfold JS.UTC, JS.msPerDay. lia. }
  split.
  - unfold Dummy.generateDummyProgrammes. by rewrite Hb.
  - intros ->. unfold DummyProgramming.generateDummyProgrammes. by rewrite Hb.
Qed.

Lemma C5_short_blocks_never_end_witness :
  Dummy.generateDummyProgrammes 1000 envEST
    {| Dummy.id := txt "5.1"; Dummy.name := txt "KQED" |}
    (Dummy.parseDuration (txt "30min")) (txt "No Information")
    (txt "No program information is currently available for {channel}.") 7
  = None /\
  DummyProgramming.generateDummyProgrammes 1000 envEST (txt "5.1") (txt "KQED")
    (Dummy.parseDuration (txt "30min")) (txt "No Information")
    (txt "No program information is currently available for {channel}.")
  = None.
Proof.
  assert ((1 # 2 <= Dummy.parseDuration (txt "30min"))%Q) as Hlo by (vm_compute; discriminate).
  assert ((Dummy.parseDuration (txt "30min") < 1)%Q) as Hhi by (vm_compute; reflexivity).
  assert (1 <= 7) as Hdays by lia.
  assert (Z.abs (JS.UTC envEST (JS.Day (JS.LocalTime envEST (JS.now envEST)) * JS.msPerDay))
          <= 8640000000000000) as Hs by (vm_compute; discriminate).
  assert (Z.abs (JS.UTC envEST ((JS.Day (JS.LocalTime envEST (JS.now envEST)) + 7)
                                * JS.msPerDay))
          <= 8640000000000000) as He by (vm_compute; discriminate).
  pose proof (C5_short_blocks_never_end 1000 envEST
                {| Dummy.id := txt "5.1"; Dummy.name := txt "KQED" |}
                (Dummy.parseDuration (txt "30min")) (txt "No Information")
                (txt "No program information is currently available for {channel}.")
                7 Hlo Hhi Hdays Hs He) as [H1 H2].
  split; [exact H1|exact (H2 eq_refl)].
Defined.

(** ** C2 *)




(** The loss of leading code units happens: after a programme element of
    1023 code units and 1001 blanks, an opening marker whose first seven
    code units end the chunk is cut off with the blanks (line 56 keeps the
    last thousand code units and line 127 drops 1023 of them), and the
    rest of the element is written as ordinary text. When the chunk ends
    before the marker, the element is written from its marker on. *)
Lemma split_marker_is_cut :
  Filter.streamFilterEPG envUTC [cutHead ++ take 7 cutTail; drop 7 cutTail] days3
  = Some (longProgramme ++ longProgramme ++ repeat " "%char 8 ++ drop 7 cutTail) /\
  Filter.streamFilterEPG envUTC [cutHead; cutTail] days3
  = Some (longProgramme ++ longProgramme ++ repeat " "%char 1 ++ cutTail).
Proof. split; vm_compute; reflexivity. Qed.

(** ** C4 *)

(** The decisions of the date filter: the cutoff is the local midnight of
    the invocation day plus the day limit; a programme whose start
    attribute reads as a date is kept exactly when that date is strictly
    before the cutoff; with a limit of three days a programme that starts
    at the cutoff is dropped and one that starts a second earlier is kept,
    as decisions and in the output of the filter on a document, as one
    chunk or code unit by code unit. An input without programme markers
    is written unchanged under every chunking, and in a document read as
    one chunk the text before a programme element and up to a thousand
    code units after it are written unchanged whether the element is kept
    or dropped. *)
Lemma date_filter_boundary :
  (forall e n,
     Z.abs (JS.UTC e (JS.Day (JS.LocalTime e (JS.now e)) * JS.msPerDay)) <= 8640000000000000 ->
     Filter.cutoffTimestamp e n
     = JS.TimeClip (JS.UTC e ((JS.Day (JS.LocalTime e (JS.now e)) + n) * JS.msPerDay))) /\
  (forall e start d c,
     start <> [] -> Filter.programmeDate e start = Some d ->
     (Filter.keepProgramme e (Some c) start = true <-> d < c)) /\
  (forall e start c,
     start <> [] -> Filter.cutoffTimestamp e 3 = Some c ->
     (Filter.programmeDate e start = Some c ->
      Filter.keepProgramme e (Filter.cutoffTimestamp e 3) start = false) /\
     (Filter.programmeDate e start = Some (c - 1000) ->
      Filter.keepProgramme e (Filter.cutoffTimestamp e 3) start = true)) /\
  (Filter.programmeDate envEST (txt "20240113000000 -0500") = Filter.cutoffTimestamp envEST 3 /\
   Filter.streamFilterEPG envEST [docWithStart (txt "20240113000000 -0500")] days3
   = Some docWithoutProgramme /\
   Filter.streamFilterEPG envEST (Filter.bytewise (docWithStart (txt "20240113000000 -0500"))) days3
   = Some docWithoutProgramme /\
   Filter.streamFilterEPG envEST [docWithStart (txt "20240112235959 -0500")] days3
   = Some (docWithStart (txt "20240112235959 -0500")) /\
   Filter.streamFilterEPG envEST (Filter.bytewise (docWithStart (txt "20240112235959 -0500"))) days3
   = Some (docWithStart (txt "20240112235959 -0500"))) /\
  (forall e n chunks,
     n <> 0 -> absent openMarker (concat chunks) ->
     Filter.streamFilterEPG e chunks {| Filter.days := Some (Some n) |} = Some (concat chunks)) /\
  (forall e n pre attrs body post,
     let openTag := openMarker ++ attrs ++ txt ">" in
     let element := openTag ++ body ++ closeMarker in
     let doc := pre ++ element ++ post in
     n <> 0 ->
     indexOf doc openMarker 0 = Some (length pre) ->
     indexOf doc (txt ">") (length pre) = Some (length pre + length openTag - 1)%nat ->
     indexOf doc closeMarker (length pre)
     = Some (length pre + length openTag + length body)%nat ->
     indexOf doc openMarker (length pre + length element) = None ->
     (length post <= 1000)%nat ->
     Filter.streamFilterEPG e [doc] {| Filter.days := Some (Some n) |}
     = Some (pre ++ (if Filter.keepProgramme e (Filter.cutoffTimestamp e n)
                          (default [] (Filter.matchStart openTag))
                     then element else [])
                 ++ post)).
Proof.
  split; [exact cutoffTimestamp_midnight|].
  split; [exact keepProgramme_lt|].
  split.
  { intros e start c Hne Hc. rewrite Hc. split; intros Hd.
    - destruct (Filter.keepProgramme e (Some c) start) eqn:E; [|done].
      apply (keepProgramme_lt e start c c Hne Hd) in E. lia.
    - apply (keepProgramme_lt e start (c - 1000) c Hne Hd). lia. }
  split; [repeat split; vm_compute; reflexivity|].
  split.
  - intros e n chunks Hn Habs. unfold Filter.streamFilterEPG, Filter.noDays. cbn [Filter.days].
    apply Z.eqb_neq in Hn. rewrite Hn.
    apply (run_no_open e _ chunks Filter.initial); [done|exact Habs].
  - intros e n pre attrs body post openTag element doc Hn H1 H2 H3 H4 Hpost.
    unfold Filter.streamFilterEPG, Filter.noDays. cbn [Filter.days].
    apply Z.eqb_neq in Hn. rewrite Hn.
    by apply filter_one_programme.
Qed.

Lemma date_filter_boundary_sample :
  Filter.cutoffTimestamp envEST 3 = Some 1705122000000 /\
  (Filter.keepProgramme envEST (Some 1705122000000) (txt "20240112235959 -0500") = true
   <-> 1705121999000 < 1705122000000) /\
  Filter.keepProgramme envEST (Filter.cutoffTimestamp envEST 3) (txt "20240113000000 -0500")
  = false /\
  Filter.keepProgramme envEST (Filter.cutoffTimestamp envEST 3) (txt "20240112235959 -0500")
  = true /\
  Filter.streamFilterEPG envEST [txt "<tv><channel id="; txt "x></channel></tv>"]
    {| Filter.days := Some (Some 3) |}
  = Some (concat [txt "<tv><channel id="; txt "x></channel></tv>"]) /\
  Filter.streamFilterEPG envEST
    [txt "<tv>" ++ (openMarker ++ txt " channel=x" ++ txt ">" ++ txt "<title>News</title>"
                      ++ closeMarker) ++ txt "</tv>"]
    {| Filter.days := Some (Some 3) |}
  = Some (txt "<tv>"
            ++ (if Filter.keepProgramme envEST (Filter.cutoffTimestamp envEST 3)
                     (default [] (Filter.matchStart (openMarker ++ txt " channel=x" ++ txt ">")))
                then openMarker ++ txt " channel=x" ++ txt ">" ++ txt "<title>News</title>"
                       ++ closeMarker
                else [])
            ++ txt "</tv>").
Proof.
  destruct date_filter_boundary as (Hcut & Hkeep & Hedge & _ & Hpass & Hone).
  split; [rewrite Hcut; [reflexivity|vm_compute; discriminate]|].
  split; [apply Hkeep; [done|reflexivity]|].
  split; [apply (Hedge envEST _ 1705122000000); [done|reflexivity|reflexivity]|].
  split; [apply (Hedge envEST _ 1705122000000); [done|reflexivity|reflexivity]|].
  split; [apply Hpass; [lia|]; apply indexOf_absent; vm_compute; reflexivity|].
  apply (Hone envEST 3 (txt "<tv>") (txt " channel=x") (txt "<title>News</title>")
           (txt "</tv>")); [lia|reflexivity|reflexivity|reflexivity|reflexivity|simpl; lia].
Defined.

(** C4 (a programme that starts exactly at the cutoff is excluded, and
    all other content is passed through) does not hold of the code when
    more than a thousand code units follow the last programme element of
    a buffer. The programme of the sample document starts at the cutoff
    of a limit of three days, and the decision of line 109 is to drop it.
    With 1001 blanks after the document, read as one chunk, line 55 then
    pushes [buffer.slice(0, -1000)], which starts at 0 instead of [pos]:
    the text before the programme is written a second time, the dropped
    programme is written after all, and line 127 loses 117 blanks. Read
    as two chunks or code unit by code unit the same input is written as
    C4 says: without the programme and otherwise unchanged. *)
Theorem C4_programme_at_the_cutoff_is_written :
  Filter.programmeDate envEST (txt "20240113000000 -0500") = Filter.cutoffTimestamp envEST 3 /\
  Filter.keepProgramme envEST (Filter.cutoffTimestamp envEST 3) (txt "20240113000000 -0500")
  = false /\
  Filter.streamFilterEPG envEST [docAtCutoff ++ repeat " "%char 1001] days3
  = Some (take 32 docAtCutoff ++ docAtCutoff ++ repeat " "%char 884) /\
  Filter.streamFilterEPG envEST [docAtCutoff; repeat " "%char 1001] days3
  = Some (docWithoutProgramme ++ repeat " "%char 1001) /\
  Filter.streamFilterEPG envEST (Filter.bytewise (docAtCutoff ++ repeat " "%char 1001)) days3
  = Some (docWithoutProgramme ++ repeat " "%char 1001).
Proof. repeat split; vm_compute; reflexivity. Qed.

(** ** C7 *)

Lemma merge_first_wins (base : Merge.EPGResponse) (windows : list Merge.EPGResponse) :
  guideInvariant base ->
  guideInvariant (Merge.mergeWindows base windows) /\
  (forall i ch, base !! i = Some ch ->
     exists ch',
       Merge.mergeWindows base windows !! i = Some ch' /\
       Merge.Guide ch `prefix_of` Merge.Guide ch' /\
       appended (concat windows) ch ch' /\
       (forall p q, p ∈ Merge.Guide ch -> q ∈ Merge.Guide ch' ->
                    Merge.StartTime q = Merge.StartTime p -> q = p)).
Proof.
  intros Hinv. destruct (mergeWindows_spec windows base) as (Hlen & Hpres & Hframe).
  split; [by apply Hpres|].
  intros i ch Hi. destruct (Hframe i ch Hi) as (ch' & Hi' & Happ).
  exists ch'. split; [done|].
  assert (Merge.Guide ch `prefix_of` Merge.Guide ch') as Hpre.
  { destruct Happ as (extra & -> & _). by exists extra. }
  split; [done|]. split; [done|].
  intros p q Hp Hq Heq.
  assert (distinctStarts (Merge.Guide ch')) as Hd.
  { exact (Forall_lookup_1 _ _ _ _ (Hpres Hinv) Hi'). }
  apply (distinctStarts_inj _ q p Hd); [done| |done].
  destruct Hpre as [extra ->]. apply elem_of_app. by left.
Qed.

(** C7: when no channel of the base guide has two programmes with the same
    start time, the guide merged from any sequence of windows has none
    either. At every point of the sequence the one already present wins,
    whole: the programmes that a channel has after the earlier windows
    (with no earlier window, the programmes of the base) are a prefix of
    its final list, a final programme with the start time of one of them
    is that very programme, and every programme added later is a whole
    programme of a later window channel with the same guide number. On
    the sample guide the repeated start time keeps its first title. *)
Theorem C7_merge_keeps_distinct_starts (base : Merge.EPGResponse)
    (earlier later : list Merge.EPGResponse) :
  guideInvariant base ->
  guideInvariant (Merge.mergeWindows base (earlier ++ later)) /\
  (forall i ch, Merge.mergeWindows base earlier !! i = Some ch ->
     exists ch',
       Merge.mergeWindows base (earlier ++ later) !! i = Some ch' /\
       Merge.Guide ch `prefix_of` Merge.Guide ch' /\
       appended (concat later) ch ch' /\
       (forall p q, p ∈ Merge.Guide ch -> q ∈ Merge.Guide ch' ->
                    Merge.StartTime q = Merge.StartTime p -> q = p)) /\
  Merge.mergeEPGData sampleBase sampleWindow = sampleMerged.
Proof.
  intros Hinv.
  assert (Merge.mergeWindows base (earlier ++ later)
          = Merge.mergeWindows (Merge.mergeWindows base earlier) later) as ->.
  { unfold Merge.mergeWindows. apply fold_left_app. }
  destruct (merge_first_wins base earlier Hinv) as [Hinv1 _].
  destruct (merge_first_wins (Merge.mergeWindows base earlier) later Hinv1) as [Hinv2 Hwin].
  split; [exact Hinv2|]. split; [exact Hwin|reflexivity].
Qed.

Lemma C7_merge_keeps_distinct_starts_witness :
  guideInvariant (Merge.mergeWindows sampleBase ([sampleWindow] ++ [sampleWindow; sampleBase])).
Proof.
  apply (C7_merge_keeps_distinct_starts sampleBase [sampleWindow] [sampleWindow; sampleBase]).
  unfold guideInvariant, distinctStarts. apply (bool_decide_unpack _). vm_compute. exact I.
Defined.

(** ** C8 *)

(** C8: the merged guide has the channels of the base, in the same order
    and with the same guide numbers, whatever channels the windows report;
    every channel keeps its name, affiliate and image, and its programme
    list is the list of the base followed by programmes taken from window
    channels with the same guide number. *)
Theorem C8_merge_frame (base : Merge.EPGResponse) (windows : list Merge.EPGResponse) :
  Merge.GuideNumber <$> Merge.mergeWindows base windows = Merge.GuideNumber <$> base /\
  length (Merge.mergeWindows base windows) = length base /\
  (forall i ch, base !! i = Some ch ->
     exists ch' extra,
       Merge.mergeWindows base windows !! i = Some ch' /\
       Merge.GuideNumber ch' = Merge.GuideNumber ch /\
       Merge.GuideName ch' = Merge.GuideName ch /\
       Merge.Affiliate ch' = Merge.Affiliate ch /\
       Merge.ChannelImageURL ch' = Merge.ChannelImageURL ch /\
       Merge.Guide ch' = Merge.Guide ch ++ extra /\
       Forall (fun p => exists w nc, w ∈ windows /\ nc ∈ w /\
                                     Merge.GuideNumber nc = Merge.GuideNumber ch /\
                                     p ∈ Merge.Guide nc) extra) /\
  Merge.mergeEPGData sampleBase sampleWindow = sampleMerged.
Proof.
  destruct (mergeWindows_spec windows base) as (Hlen & _ & Hframe).
  assert (forall i ch, base !! i = Some ch ->
     exists ch' extra,
       Merge.mergeWindows base windows !! i = Some ch' /\
       Merge.GuideNumber ch' = Merge.GuideNumber ch /\
       Merge.GuideName ch' = Merge.GuideName ch /\
       Merge.Affiliate ch' = Merge.Affiliate ch /\
       Merge.ChannelImageURL ch' = Merge.ChannelImageURL ch /\
       Merge.Guide ch' = Merge.Guide ch ++ extra /\
       Forall (fun p => exists w nc, w ∈ windows /\ nc ∈ w /\
                                     Merge.GuideNumber nc = Merge.GuideNumber ch /\
                                     p ∈ Merge.Guide nc) extra) as Hall.
  { intros i ch Hi. destruct (Hframe i ch Hi) as (ch' & Hi' & extra & -> & Hex).
    exists (Merge.withGuide ch (Merge.Guide ch ++ extra)), extra.
    repeat (split; [done|]).
    eapply Forall_impl; [exact Hex|]. intros p (nc & Hnc & Hnum & Hp).
    apply elem_of_concat in Hnc as (w & Hncw & Hw).
    by exists w, nc. }
  split; [|split; [done|split; [exact Hall|reflexivity]]].
  apply list_eq. intros i. rewrite !list_lookup_fmap.
  destruct (base !! i) as [ch|] eqn:Hi.
  - destruct (Hall i ch Hi) as (ch' & extra & -> & Hnum & _). simpl. by rewrite Hnum.
  - apply lookup_ge_None in Hi. rewrite <- Hlen in Hi.
    apply lookup_ge_None in Hi. by rewrite Hi.
Qed.

(** ** C6 *)

(** C6 (the output is the input with the insertion before the closing
    root tag, every other byte unchanged) does not hold of the code when
    input follows the chunk that completes the closing root tag. The
    sample document has the channels 5.1 and 7.1 and a programme of 5.1,
    the device lists 5.1, 7.1 and 9.1: channel 9.1 is missing and the
    channels 7.1 and 9.1 get placeholders, four blocks of six hours from
    the local midnight. Read as one chunk, the document is written as C6
    says. Padded so that the closing root tag ends at code unit 65536, it
    is read as two chunks; the first call of [transform] finds the tag,
    writes the insertion and sets [insideClosingTag]; the line feed of the
    second chunk is added to the buffer, and neither [transform] nor
    [flush] pushes anything once [insideClosingTag] is set. The output
    ends with the closing root tag: the last code unit of the input is
    lost, although line 359 writes the text after the tag when it is in
    the same chunk. *)
Theorem C6_text_after_the_closing_chunk_is_lost :
  Dummy.missingChannels sampleParsed sampleLineup
  = [ {| Dummy.id := txt "9.1"; Dummy.name := txt "KQEH-HD" |} ] /\
  Dummy.channelsNeedingDummy sampleParsed sampleLineup
  = [ {| Dummy.id := txt "7.1"; Dummy.name := txt "KGO-HD" |} ] /\
  sampleBlocks = tiles 1704862800000 21600000 4 /\
  writtenBy (Dummy.streamDummyProgramming 100 envEST [sampleDocument]
               (Dummy.Root sampleParsed) sampleLineup sampleOptions)
  = Some (samplePre ++ sampleInserted ++ closingTag ++ samplePost) /\
  Z.of_nat (length (paddedPre ++ closingTag)) = 65536 /\
  writtenBy (Dummy.streamDummyProgramming 100 envEST [paddedPre ++ closingTag; samplePost]
               (Dummy.Root sampleParsed) sampleLineup sampleOptions)
  = Some (paddedPre ++ sampleInserted ++ closingTag) /\
  paddedPre ++ sampleInserted ++ closingTag
  <> paddedPre ++ sampleInserted ++ closingTag ++ samplePost.
Proof.
  split; [vm_compute; reflexivity|].
  split; [vm_compute; reflexivity|].
  split; [vm_compute; reflexivity|].
  split; [apply (bool_decide_unpack _); vm_compute; exact I|].
  split; [vm_compute; reflexivity|].
  split; [apply (bool_decide_unpack _); vm_compute; exact I|].
  intros H. do 2 apply app_inv_head in H. apply (f_equal length) in H. discriminate H.
Qed.

(** * Further properties of the date filter *)

Section FilterLoop.
Variable e : JS.env.
Variable cutoff : JS.number.

Lemma loop_fuel_mono (fuel fuel' : nat) (s r : Filter.scan) :
  Filter.loop fuel e cutoff s = Some r -> (fuel <= fuel')%nat ->
  Filter.loop fuel' e cutoff s = Some r.
Proof.
  revert fuel' s. induction fuel as [|fuel IH]; intros fuel' s H Hle; [done|].
  destruct fuel' as [|fuel']; [lia|]. simpl in *.
  destruct (Filter.seek s) as [s'|s1]; [done|].
  destruct (Filter.complete e cutoff s1) as [s'|s2]; [done|].
  apply IH; [done|lia].
Qed.

Lemma seek_pos (s s1 : Filter.scan) :
  Filter.seek s = Filter.Next s1 ->
  Filter.buffer s1 = Filter.buffer s /\
  (Nat.min (Filter.pos s) (length (Filter.buffer s)) <= Filter.pos s1)%nat.
Proof.
  unfold Filter.seek. destruct (Filter.insideProgramme s).
  - intros [= <-]. split; [done|lia].
  - destruct (indexOf _ _ _) as [idx|] eqn:E.
    + intros [= <-]. simpl. split; [done|].
      apply indexOf_bounds in E; [lia|]. simpl. lia.
    + by destruct (_ <? _)%nat.
Qed.

Lemma complete_pos (s s2 : Filter.scan) :
  Filter.complete e cutoff s = Filter.Next s2 ->
  Filter.buffer s2 = Filter.buffer s /\
  (Nat.min (Filter.pos s) (length (Filter.buffer s)) + 12 <= Filter.pos s2)%nat /\
  (Filter.pos s2 <= length (Filter.buffer s))%nat.
Proof.
  unfold Filter.complete. destruct (indexOf _ (txt ">") _); [|done].
  destruct (indexOf _ (txt "</programme>") _) as [idx|] eqn:E; [|done].
  intros [= <-]. simpl. split; [done|].
  apply indexOf_bounds in E; [|simpl; lia].
  change (length (txt "</programme>")) with 12%nat in E. lia.
Qed.

Lemma loop_enough (fuel : nat) (s : Filter.scan) :
  ((length (Filter.buffer s) - Filter.pos s) / 12 < fuel)%nat ->
  is_Some (Filter.loop fuel e cutoff s).
Proof.
  revert s. induction fuel as [|fuel IH]; intros s Hm; [lia|].
  simpl. destruct (Filter.seek s) as [s'|s1] eqn:E1; [done|].
  apply seek_pos in E1 as [Hb1 Hp1].
  destruct (Filter.complete e cutoff s1) as [s'|s2] eqn:E2; [done|].
  apply complete_pos in E2 as (Hb2 & Hp2 & Hle2).
  apply IH. rewrite Hb2, Hb1 in *.
  set (len := length (Filter.buffer s)) in *.
  assert (12 + (len - Filter.pos s2) <= len - Filter.pos s)%nat as Hstep by lia.
  assert (1 + (len - Filter.pos s2) / 12 <= (len - Filter.pos s) / 12)%nat; [|lia].
  replace (1 + (len - Filter.pos s2) / 12)%nat with ((1 * 12 + (len - Filter.pos s2)) / 12)%nat.
  - apply Nat.Div0.div_le_mono. lia.
  - rewrite Nat.div_add_l by done. done.
Qed.

End FilterLoop.

(** X1: the [while (true)] loop of the filter ends on every buffer. An
    iteration that does not reach a [break] has found a closing programme
    marker and moves [pos] at least twelve code units forward inside the
    buffer, so one call of [transform] runs the loop body at most a
    twelfth of the buffer length plus one times; with that, every call of
    [transform] and the whole filter return for every input. *)
Theorem X1_filter_loop_ends (e : JS.env) (cutoff : JS.number) (st : Filter.state)
    (chunk : text) (chunks : list text) (options : Filter.FilterOptions) :
  (exists s,
     Filter.loop (length (Filter.st_buffer st ++ chunk) / 12 + 1) e cutoff
       {| Filter.buffer := Filter.st_buffer st ++ chunk; Filter.pos := 0;
          Filter.output := [];
          Filter.insideProgramme := Filter.st_insideProgramme st;
          Filter.programmeStart := Filter.st_programmeStart st |} = Some s /\
     Filter.transform e cutoff st chunk
     = Some ({| Filter.st_buffer := slice_from (Filter.buffer s) (Filter.pos s);
                Filter.st_insideProgramme := Filter.insideProgramme s;
                Filter.st_programmeStart := Filter.programmeStart s |},
             Filter.output s)) /\
  is_Some (Filter.streamFilterEPG e chunks options).
Proof.
  split; [|apply streamFilterEPG_total].
  match goal with |- context [Filter.loop ?f _ _ ?s0] =>
    destruct (loop_enough e cutoff f s0) as [s Hs] end.
  { simpl. rewrite Nat.sub_0_r. lia. }
  exists s. split; [exact Hs|].
  unfold Filter.transform.
  rewrite (loop_fuel_mono e cutoff _ (S (length (Filter.st_buffer st ++ chunk))) _ _ Hs); [done|].
  assert (length (Filter.st_buffer st ++ chunk) / 12 <= length (Filter.st_buffer st ++ chunk))%nat.
  { apply Nat.Div0.div_le_upper_bound. lia. }
  lia.
Qed.

Section FilterBuffer.
Variable e : JS.env.
Variable cutoff : JS.number.

Lemma seek_inside (s s1 : Filter.scan) :
  Filter.seek s = Filter.Next s1 -> Filter.insideProgramme s1 = true.
Proof.
  unfold Filter.seek. destruct (Filter.insideProgramme s) eqn:E.
  - by intros [= <-].
  - destruct (indexOf _ _ _); [by intros [= <-]|]. by destruct (_ <? _)%nat.
Qed.

Lemma seek_break (s s' : Filter.scan) :
  Filter.seek s = Filter.Break s' ->
  Filter.insideProgramme s' = false /\
  (length (slice_from (Filter.buffer s') (Filter.pos s')) <= 1000)%nat.
Proof.
  unfold Filter.seek. destruct (Filter.insideProgramme s) eqn:E; [done|].
  destruct (indexOf _ _ _); [done|].
  destruct (_ <? _)%nat eqn:Hlt; intros [= <-]; simpl.
  - split; [done|]. unfold slice_from, slice_last. rewrite !length_drop. lia.
  - split; [done|]. apply Nat.ltb_ge in Hlt. unfold slice_from. rewrite length_drop. lia.
Qed.

Lemma complete_break (s s' : Filter.scan) :
  Filter.complete e cutoff s = Filter.Break s' ->
  Filter.insideProgramme s' = Filter.insideProgramme s.
Proof.
  unfold Filter.complete. destruct (indexOf _ (txt ">") _); [|by intros [= <-]].
  destruct (indexOf _ (txt "</programme>") _); [done|]. by intros [= <-].
Qed.

Lemma loop_outside (fuel : nat) (s r : Filter.scan) :
  Filter.loop fuel e cutoff s = Some r ->
  Filter.insideProgramme r = false ->
  (length (slice_from (Filter.buffer r) (Filter.pos r)) <= 1000)%nat.
Proof.
  revert s. induction fuel as [|fuel IH]; intros s; simpl; [done|].
  destruct (Filter.seek s) as [s'|s1] eqn:E1.
  - intros [= <-] _. by apply seek_break in E1 as [_ H].
  - destruct (Filter.complete e cutoff s1) as [s'|s2] eqn:E2.
    + intros [= <-] Hin. apply complete_break in E2. apply seek_inside in E1. congruence.
    + apply IH.
Qed.

End FilterBuffer.

(** X2: the look-back of the filter is bounded. After every call of
    [transform] that leaves the scanner outside of a programme, the text
    kept for the next call is at most a thousand code units long,
    whatever the sizes of the buffer and of the chunk were. *)
Theorem X2_filter_keeps_at_most_1000 (e : JS.env) (cutoff : JS.number)
    (st st' : Filter.state) (chunk pushed : text) :
  Filter.transform e cutoff st chunk = Some (st', pushed) ->
  Filter.st_insideProgramme st' = false ->
  (length (Filter.st_buffer st') <= 1000)%nat.
Proof.
  unfold Filter.transform.
  destruct (Filter.loop _ _ _ _) as [r|] eqn:E; [|done].
  intros [= <- _] Hin. cbn [Filter.st_buffer Filter.st_insideProgramme] in *.
  exact (loop_outside e cutoff _ _ r E Hin).
Qed.

Lemma X2_filter_keeps_at_most_1000_witness :
  (length (Filter.st_buffer
             {| Filter.st_buffer := repeat " "%char 1000; Filter.st_insideProgramme := false;
                Filter.st_programmeStart := [] |}) <= 1000)%nat.
Proof.
  apply (X2_filter_keeps_at_most_1000 envUTC (Some 0%Z) Filter.initial _
           (repeat " "%char 1500) (repeat " "%char 500)).
  - vm_compute. reflexivity.
  - reflexivity.
Defined.

(** X3: nothing of a programme is written before its closing marker has
    arrived. While the scanner is inside a programme and the buffer with
    the new chunk holds no closing programme marker, [transform] pushes
    nothing, keeps the whole buffer and stays inside the programme. *)
Theorem X3_filter_no_partial_programme (e : JS.env) (cutoff : JS.number)
    (st : Filter.state) (chunk : text) :
  Filter.st_insideProgramme st = true ->
  absent closeMarker (Filter.st_buffer st ++ chunk) ->
  exists st',
    Filter.transform e cutoff st chunk = Some (st', []) /\
    Filter.st_buffer st' = Filter.st_buffer st ++ chunk /\
    Filter.st_insideProgramme st' = true.
Proof.
  intros Hin Habs. unfold Filter.transform.
  set (b := Filter.st_buffer st ++ chunk) in *.
  cbn [Filter.loop]. unfold Filter.seek.
  cbn [Filter.insideProgramme Filter.buffer Filter.pos Filter.output Filter.programmeStart].
  rewrite Hin. unfold Filter.complete.
  cbn [Filter.insideProgramme Filter.buffer Filter.pos Filter.output Filter.programmeStart].
  destruct (indexOf b (txt ">") 0).
  - fold closeMarker. rewrite (absent_indexOf _ _ _ Habs).
    eexists. split; [reflexivity|]. done.
  - eexists. split; [reflexivity|]. done.
Qed.

Lemma X3_filter_no_partial_programme_witness :
  exists st',
    Filter.transform envUTC (Some 0)
      {| Filter.st_buffer := txt "<programme start="; Filter.st_insideProgramme := true;
         Filter.st_programmeStart := [] |} (txt "x><title>News")
    = Some (st', []) /\
    Filter.st_buffer st' = txt "<programme start=" ++ txt "x><title>News" /\
    Filter.st_insideProgramme st' = true.
Proof.
  apply (X3_filter_no_partial_programme envUTC (Some 0)
           {| Filter.st_buffer := txt "<programme start="; Filter.st_insideProgramme := true;
              Filter.st_programmeStart := [] |} (txt "x><title>News") eq_refl).
  apply indexOf_absent. vm_compute. reflexivity.
Defined.

(** X4: the start value that the filter reads from an opening tag is a
    quoted attribute value of that tag: it is not empty, holds no quote,
    and the tag contains the letters start, an equals sign, a quote, the
    value and a quote, in this order. The name of the attribute is not
    delimited on the left, and a tag without the text start-equals-quote
    yields no value. *)
Theorem X4_matchStart_sound (s v : text) :
  (Filter.matchStart s = Some v ->
   v <> [] /\ Forall (fun c => c <> Filter.dquote) v /\
   exists a b, s = a ++ txt "start=" ++ [Filter.dquote] ++ v ++ [Filter.dquote] ++ b) /\
  (absent (txt "start=" ++ [Filter.dquote]) s -> Filter.matchStart s = None).
Proof.
  split.
  - induction s as [|c s IH].
    + simpl. done.
    + cbn [Filter.matchStart].
      destruct (startsWith (c :: s) (txt "start=" ++ [Filter.dquote])) eqn:Hsw.
      * destruct (span Filter.notQuote (drop 7 (c :: s))) as [value rest] eqn:Hsp.
        assert (forall l a b, span Filter.notQuote l = (a, b) ->
                  l = a ++ b /\ Forall (fun c => c <> Filter.dquote) a /\
                  match b with [] => True | q :: _ => q = Filter.dquote end) as Hspan.
        { clear. induction l as [|x l IHl]; intros a b; simpl.
          - intros [= <- <-]. done.
          - destruct (Filter.notQuote x) eqn:Hx.
            + destruct (span Filter.notQuote l) as [a' b'].
              intros [= <- <-]. destruct (IHl a' b' eq_refl) as (-> & Hall & Hb).
              split; [done|]. split; [|done]. constructor; [|done].
              intros ->. by vm_compute in Hx.
            + intros [= <- <-]. split; [done|]. split; [done|].
              unfold Filter.notQuote in Hx. apply negb_false_iff, Ascii.eqb_eq in Hx. done. }
        destruct (Hspan _ _ _ Hsp) as (Hl & Hall & Hq).
        destruct value as [|v0 value], rest as [|q rest];
          try (intros H; destruct (IH H) as (Hne & Hnq & a & b & ->);
               split; [done|]; split; [done|]; by exists (c :: a), b).
        intros [= <-]. split; [done|]. split; [done|]. subst q.
        exists [], rest. apply startsWith_inv in Hsw.
        change (length (txt "start=" ++ [Filter.dquote])) with 7%nat in Hsw.
        rewrite Hsw at 1. rewrite Hl. reflexivity.
      * intros H. destruct (IH H) as (Hne & Hnq & a & b & ->).
        split; [done|]. split; [done|]. by exists (c :: a), b.
  - intros Habs. induction s as [|c s IH]; [done|].
    cbn [Filter.matchStart]. pose proof (Habs 0%nat) as H0. simpl drop in H0. rewrite H0.
    apply IH. intros k. apply (Habs (S k)).
Qed.

Lemma X4_matchStart_sound_witness :
  txt "20240110120000 +0000" <> [] /\
  Forall (fun c => c <> Filter.dquote) (txt "20240110120000 +0000") /\
  exists a b, txt "<programme xstart=" ++ Dummy.quoted (txt "20240110120000 +0000") ++ txt ">"
              = a ++ txt "start=" ++ [Filter.dquote] ++ txt "20240110120000 +0000"
                  ++ [Filter.dquote] ++ b.
Proof.
  apply (proj1 (X4_matchStart_sound
                  (txt "<programme xstart=" ++ Dummy.quoted (txt "20240110120000 +0000")
                     ++ txt ">")
                  (txt "20240110120000 +0000"))).
  vm_compute. reflexivity.
Defined.

(** X5: only the first fourteen code units of a start attribute are read:
    the UTC offset that follows them never influences the date, which is
    taken as local wall-clock time of the server. *)
Theorem X5_offset_is_ignored (e : JS.env) (cutoff : JS.number) (stamp suffix suffix' : text) :
  length stamp = 14%nat ->
  Filter.programmeDate e (stamp ++ suffix) = Filter.programmeDate e (stamp ++ suffix') /\
  Filter.keepProgramme e cutoff (stamp ++ suffix) = Filter.keepProgramme e cutoff (stamp ++ suffix').
Proof.
  intros Hlen.
  assert (forall x a b, (b <= 14)%nat -> slice (stamp ++ x) a b = slice stamp a b) as Hs.
  { intros x a b Hb. unfold slice.
    destruct (decide (a <= 14)%nat) as [Ha|Ha].
    - rewrite drop_app_le by lia. rewrite take_app_le; [done|]. rewrite length_drop. lia.
    - replace (b - a)%nat with 0%nat by lia. done. }
  assert (Filter.programmeDate e (stamp ++ suffix) = Filter.programmeDate e (stamp ++ suffix'))
    as Hd.
  { unfold Filter.programmeDate. by rewrite !Hs by lia. }
  split; [exact Hd|]. unfold Filter.keepProgramme. rewrite Hd.
  destruct stamp; [done|]. done.
Qed.

Lemma X5_offset_is_ignored_witness :
  Filter.programmeDate envEST (txt "20240113000000" ++ txt " +0900")
  = Filter.programmeDate envEST (txt "20240113000000" ++ txt " -0500") /\
  Filter.keepProgramme envEST (Some 0) (txt "20240113000000" ++ txt " +0900")
  = Filter.keepProgramme envEST (Some 0) (txt "20240113000000" ++ txt " -0500").
Proof. apply X5_offset_is_ignored. reflexivity. Defined.



(** ** The calendar *)

Section Calendar.

Lemma allFrom_spec (p : Z -> bool) (n : nat) (from k : Z) :
  allFrom p n from = true -> from <= k < from + Z.of_nat n -> p k = true.
Proof.
  revert from. induction n as [|n IH]; intros from H Hk; [lia|].
  simpl in H. apply andb_prop in H as [H1 H2].
  destruct (decide (k = from)) as [->|Hne]; [done|].
  apply (IH (from + 1)); [done|lia].
Qed.

Lemma allFrom_range (p : Z -> bool) (n from k : Z) :
  allFrom p (Z.to_nat n) from = true -> from <= k < from + n -> p k = true.
Proof. intros H Hk. apply (allFrom_spec p (Z.to_nat n) from k H). lia. Qed.

Lemma eraCheck_all : allFrom eraCheck (Z.to_nat 146097) 0 = true.
Proof. vm_compute. reflexivity. Qed.

Lemma eraCheck_spec (doe : Z) : 0 <= doe < 146097 -> eraCheck doe = true.
Proof.
  intros H. apply (allFrom_range eraCheck 146097 0 doe eraCheck_all). lia.
Qed.

Lemma civil_era (day : Z) :
  JS.civil day =
  let '(y, m, d) := eraFields ((day + 719468) mod 146097) in
  (y + (day + 719468) / 146097 * 400, m, d).
Proof.
  unfold JS.civil, eraFields. cbv zeta.
  set (doe := (day + 719468) mod 146097).
  set (yoe := (doe - doe / 1460 + doe / 36524 - doe / 146096) / 365).
  set (doy := doe - (365 * yoe + yoe / 4 - yoe / 100)).
  set (mp := (5 * doy + 2) / 153).
  f_equal. f_equal. lia.
Qed.

Lemma DayFromYear_era (y k : Z) : JS.DayFromYear (y + k * 400) = JS.DayFromYear y + 146097 * k.
Proof.
  unfold JS.DayFromYear.
  replace (y + k * 400 - 1969) with (y - 1969 + (k * 100) * 4) by lia.
  replace (y + k * 400 - 1901) with (y - 1901 + (k * 4) * 100) by lia.
  replace (y + k * 400 - 1601) with (y - 1601 + k * 400) by lia.
  rewrite !Z.div_add by done. lia.
Qed.

Lemma InLeapYear_era (y k : Z) : JS.InLeapYear (y + k * 400) = JS.InLeapYear y.
Proof.
  unfold JS.InLeapYear.
  replace ((y + k * 400) mod 4) with (y mod 4)
    by (replace (y + k * 400) with (y + (k * 100) * 4) by lia; by rewrite Z.mod_add).
  replace ((y + k * 400) mod 100) with (y mod 100)
    by (replace (y + k * 400) with (y + (k * 4) * 100) by lia; by rewrite Z.mod_add).
  by rewrite Z.mod_add.
Qed.

(** The calendar fields of a day number lead back to the day number. *)
Lemma MakeDay_civil (day : Z) :
  let '(y, m, d) := JS.civil day in
  JS.MakeDay y m d = day /\ 0 <= m <= 11 /\ 1 <= d <= 31.
Proof.
  rewrite civil_era.
  pose proof (eraCheck_spec ((day + 719468) mod 146097)
                (Z.mod_pos_bound _ 146097 ltac:(lia))) as Hc.
  unfold eraCheck in Hc.
  destruct (eraFields ((day + 719468) mod 146097)) as [[y m] d].
  apply andb_prop in Hc as [Hc H5]. apply andb_prop in Hc as [Hc H4].
  apply andb_prop in Hc as [Hc H3]. apply andb_prop in Hc as [H1 H2].
  apply Z.leb_le in H1, H2, H3, H4. apply Z.eqb_eq in H5.
  split; [|lia]. unfold JS.MakeDay.
  rewrite (Z.div_small m 12), (Z.mod_small m 12), Z.add_0_r by lia.
  rewrite DayFromYear_era, InLeapYear_era.
  pose proof (Z.div_mod (day + 719468) 146097 ltac:(lia)). lia.
Qed.

Lemma yearCheck_all : allFrom yearCheck (Z.to_nat 9000) 1000 = true.
Proof. vm_compute. reflexivity. Qed.

Lemma fieldCheck_all : allFrom fieldCheck (Z.to_nat 100) 0 = true.
Proof. vm_compute. reflexivity. Qed.

Lemma year_printed (y : Z) :
  1000 <= y <= 9999 ->
  exists a b c d,
    stringOfInt y = [a; b; c; d] /\ forallb isDigit [a; b; c; d] = true /\
    JS.parseInt [a; b; c; d] = Some y.
Proof.
  intros H. pose proof (allFrom_range yearCheck 9000 1000 y yearCheck_all ltac:(lia)) as Hc. unfold yearCheck in Hc.
  apply andb_prop in Hc as [Hc Hp]. apply andb_prop in Hc as [Hl Hd].
  apply bool_decide_eq_true in Hl. apply bool_decide_eq_true in Hp.
  destruct (stringOfInt y) as [|a [|b [|c [|d [|]]]]]; try done.
  by exists a, b, c, d.
Qed.

Lemma field_printed (n : Z) :
  0 <= n <= 99 ->
  exists a b,
    Dummy.pad2 n = [a; b] /\ forallb isDigit [a; b] = true /\ JS.parseInt [a; b] = Some n.
Proof.
  intros H. pose proof (allFrom_range fieldCheck 100 0 n fieldCheck_all ltac:(lia)) as Hc. unfold fieldCheck in Hc.
  apply andb_prop in Hc as [Hc Hp]. apply andb_prop in Hc as [Hl Hd].
  apply bool_decide_eq_true in Hl. apply bool_decide_eq_true in Hp.
  destruct (Dummy.pad2 n) as [|a [|b [|]]]; try done.
  by exists a, b.
Qed.

End Calendar.

(** ** Timestamps written and read back *)

Section Timestamps.

Lemma local_ms (e : JS.env) (t : Z) : JS.LocalTime e t mod 1000 = t mod 1000.
Proof.
  unfold JS.LocalTime, JS.LocalTZA, JS.msPerMinute.
  replace (t + JS.tzOffsetMinutes e * 60000) with (t + (JS.tzOffsetMinutes e * 60) * 1000) by lia.
  apply Z.mod_add. done.
Qed.

Lemma clock_fields (t : Z) :
  0 <= JS.HourFromTime t <= 99 /\ 0 <= JS.MinFromTime t <= 99 /\ 0 <= JS.SecFromTime t <= 99 /\
  JS.MakeDate (JS.Day t) (JS.MakeTime (JS.HourFromTime t) (JS.MinFromTime t) (JS.SecFromTime t) 0)
  = t - t mod 1000.
Proof.
  pose proof (time_fields t) as Hf.
  unfold JS.MakeDate, JS.MakeTime, JS.Day, JS.HourFromTime, JS.MinFromTime,
    JS.SecFromTime, JS.msFromTime, JS.msPerDay, JS.msPerHour, JS.msPerMinute, JS.msPerSecond in *.
  pose proof (Z.mod_pos_bound (t / 3600000) 24 ltac:(lia)).
  pose proof (Z.mod_pos_bound (t / 60000) 60 ltac:(lia)).
  pose proof (Z.mod_pos_bound (t / 1000) 60 ltac:(lia)).
  lia.
Qed.

(** A time stamp written in a zone with offset [tzOffsetMinutes w] is
    fourteen digits, a blank and the offset; a reader in a zone with offset
    [tzOffsetMinutes r] takes the fourteen digits as its own local time,
    whatever follows them. *)
Lemma programmeDate_formatTimestamp (w : JS.env) (t : Z) :
  1000 <= JS.YearFromTime (JS.LocalTime w t) <= 9999 ->
  exists digits offset,
    Dummy.formatTimestamp w (Some t) = digits ++ " "%char :: offset /\
    length digits = 14%nat /\
    forallb isDigit digits = true /\
    forall (r : JS.env) (suffix : text),
      Filter.programmeDate r (digits ++ suffix)
      = JS.TimeClip (t - t mod 1000
                     + (JS.tzOffsetMinutes w - JS.tzOffsetMinutes r) * JS.msPerMinute).
Proof.
  intros Hy. unfold Dummy.formatTimestamp.
  set (lt := JS.LocalTime w t) in *.
  unfold JS.YearFromTime, JS.MonthFromTime, JS.DateFromTime in *.
  pose proof (MakeDay_civil (JS.Day lt)) as Hc.
  destruct (JS.civil (JS.Day lt)) as [[y m] d]. cbn [fst snd] in *.
  destruct Hc as (Hday & Hm & Hd).
  destruct (clock_fields lt) as (Hh & Hmi & Hs & Htime).
  destruct (year_printed y Hy) as (y1 & y2 & y3 & y4 & -> & Dy & Py).
  destruct (field_printed (m + 1) ltac:(lia)) as (m1 & m2 & -> & Dm & Pm).
  destruct (field_printed d ltac:(lia)) as (d1 & d2 & -> & Dd & Pd).
  destruct (field_printed _ Hh) as (h1 & h2 & -> & Dh & Ph).
  destruct (field_printed _ Hmi) as (i1 & i2 & -> & Di & Pi).
  destruct (field_printed _ Hs) as (s1 & s2 & -> & Ds & Ps).
  eexists [y1; y2; y3; y4; m1; m2; d1; d2; h1; h2; i1; i2; s1; s2], _.
  split; [reflexivity|]. split; [reflexivity|]. split.
  { cbn [forallb] in *. repeat (apply andb_prop in Dy as [? Dy] || apply andb_prop in Dm as [? Dm]
      || apply andb_prop in Dd as [? Dd] || apply andb_prop in Dh as [? Dh]
      || apply andb_prop in Di as [? Di] || apply andb_prop in Ds as [? Ds]).
    repeat (apply andb_true_intro; split; [assumption|]). done. }
  intros r suffix. unfold Filter.programmeDate, slice.
  cbn [app drop take Nat.sub].
  rewrite take_0, Py, Pm, Pd, Ph, Pi, Ps. cbn [JS.minus JS.newDate].
  assert ((0 <=? y) && (y <=? 99) = false) as ->.
  { apply andb_false_iff. right. apply Z.leb_gt. lia. }
  replace (m + 1 - 1) with m by lia. rewrite Hday, Htime. f_equal.
  pose proof (local_ms w t) as Hms. fold lt in Hms. rewrite Hms.
  unfold lt, JS.UTC, JS.LocalTime, JS.LocalTZA. lia.
Qed.

End Timestamps.

(** X7: a time stamp that [formatTimestamp] writes for an instant [t]
    whose local year has four digits is read by the date filter as [t]
    without its milliseconds, moved by the difference between the offset
    of the writer's zone and that of the reader's zone; in one and the
    same zone the round trip is exact to the second. *)
Theorem X7_timestamp_round_trip (w r : JS.env) (t : Z) :
  Z.abs t <= 8640000000000000 ->
  1000 <= JS.YearFromTime (JS.LocalTime w t) <= 9999 ->
  Filter.programmeDate r (Dummy.formatTimestamp w (Some t))
  = JS.TimeClip (t - t mod 1000
                 + (JS.tzOffsetMinutes w - JS.tzOffsetMinutes r) * JS.msPerMinute) /\
  (JS.tzOffsetMinutes w = JS.tzOffsetMinutes r ->
   Filter.programmeDate r (Dummy.formatTimestamp w (Some t)) = Some (t - t mod 1000)).
Proof.
  intros Ht Hy.
  destruct (programmeDate_formatTimestamp w t Hy) as (digits & offset & -> & _ & _ & Hread).
  split; [apply Hread|]. intros Hz.
  rewrite Hread, Hz, Z.sub_diag, Z.mul_0_l, Z.add_0_r.
  apply TimeClip_inRange.
  pose proof (Z.mod_pos_bound t 1000 ltac:(lia)).
  pose proof (Z.div_mod t 1000 ltac:(lia)).
  destruct (Z.abs_spec t) as [[? Ha]|[? Ha]]; rewrite Ha in Ht.
  - rewrite Z.abs_eq; lia.
  - assert (-8640000000000 <= t / 1000) by (apply Z.div_le_lower_bound; lia). lia.
Qed.

Lemma X7_timestamp_round_trip_witness :
  Filter.programmeDate envUTC (Dummy.formatTimestamp envEST (Some 1704888000123))
  = JS.TimeClip (1704888000123 - 1704888000123 mod 1000
                 + (JS.tzOffsetMinutes envEST - JS.tzOffsetMinutes envUTC) * JS.msPerMinute).
Proof.
  apply (X7_timestamp_round_trip envEST envUTC 1704888000123); vm_compute; by try split.
Defined.

(** ** From the generator to the date filter *)




(** ** Escaping *)

Section Escaping.

Lemma replaceAllChar_flat_map (c : ascii) (r : text) (f : ascii -> text) (t : text) :
  replaceAllChar c r (flat_map f t) = flat_map (fun d => replaceAllChar c r (f d)) t.
Proof.
  unfold replaceAllChar. induction t as [|d t IH]; simpl; [done|].
  by rewrite flat_map_app, IH.
Qed.

Lemma escapeXML_char (c : ascii) : Dummy.escapeXML [c] = escapeChar c.
Proof.
  unfold Dummy.escapeXML, escapeChar, replaceAllChar. cbn [flat_map].
  destruct (Ascii.eqb c "&") eqn:E1.
  { apply Ascii.eqb_eq in E1. subst c. reflexivity. }
  destruct (Ascii.eqb c "<") eqn:E2.
  { apply Ascii.eqb_eq in E2. subst c. reflexivity. }
  destruct (Ascii.eqb c ">") eqn:E3.
  { apply Ascii.eqb_eq in E3. subst c. reflexivity. }
  destruct (Ascii.eqb c "034") eqn:E4.
  { apply Ascii.eqb_eq in E4. subst c. reflexivity. }
  destruct (Ascii.eqb c "'") eqn:E5.
  { apply Ascii.eqb_eq in E5. subst c. reflexivity. }
  cbn [app flat_map]. rewrite E2. cbn [app flat_map]. rewrite E3. cbn [app flat_map].
  rewrite E4. cbn [app flat_map]. rewrite E5. reflexivity.
Qed.

Lemma escapeXML_flat_map (t : text) : Dummy.escapeXML t = flat_map escapeChar t.
Proof.
  transitivity (flat_map (fun c => Dummy.escapeXML [c]) t).
  - unfold Dummy.escapeXML.
    rewrite <- (replaceAllChar_flat_map "'"), <- (replaceAllChar_flat_map "034"),
      <- (replaceAllChar_flat_map ">"), <- (replaceAllChar_flat_map "<").
    do 4 f_equal. unfold replaceAllChar. apply flat_map_ext. intros c.
    cbn [flat_map]. by rewrite app_nil_r.
  - apply flat_map_ext. intros c. apply escapeXML_char.
Qed.

Lemma escapeXML_app (a b : text) :
  Dummy.escapeXML (a ++ b) = Dummy.escapeXML a ++ Dummy.escapeXML b.
Proof. rewrite !escapeXML_flat_map. apply flat_map_app. Qed.

(** A property of code units that holds of the letters of the five
    entities passes from a text to its escaped form. *)
Lemma escapeXML_Forall (P : ascii -> Prop) (t : text) :
  Forall P (txt "&amp;lt;gt;quot;apos;") ->
  Forall P t ->
  Forall P (Dummy.escapeXML t).
Proof.
  intros Hent Ht. rewrite escapeXML_flat_map.
  induction Ht as [|c t Hc Ht IH]; simpl; [done|].
  apply Forall_app. split; [|exact IH].
  rewrite Forall_forall in Hent. unfold escapeChar.
  repeat (destruct (Ascii.eqb c _);
          [apply Forall_forall; intros x Hx; apply Hent;
           cbn [txt list_ascii_of_string] in *;
           rewrite ?elem_of_cons, ?elem_of_nil in *; tauto|]).
  by constructor.
Qed.

Lemma escapeXML_no_markup (t : text) :
  Forall (fun c => markup c = false) (Dummy.escapeXML t).
Proof.
  rewrite escapeXML_flat_map. induction t as [|c t IH]; simpl; [done|].
  apply Forall_app. split; [|exact IH]. unfold escapeChar.
  destruct (Ascii.eqb c "&") eqn:E1; [by repeat constructor|].
  destruct (Ascii.eqb c "<") eqn:E2; [by repeat constructor|].
  destruct (Ascii.eqb c ">") eqn:E3; [by repeat constructor|].
  destruct (Ascii.eqb c "034") eqn:E4; [by repeat constructor|].
  destruct (Ascii.eqb c "'") eqn:E5; [by repeat constructor|].
  constructor; [|done]. unfold markup. by rewrite E2, E3, E4, E5.
Qed.

(** No entity is the beginning of another text that [escapeChar] yields. *)
Lemma escapeChar_prefix_free (c d : ascii) (x y : text) :
  escapeChar c ++ x = escapeChar d ++ y -> c = d /\ x = y.
Proof.
  unfold escapeChar.
  destruct (Ascii.eqb c "&") eqn:C1; [apply Ascii.eqb_eq in C1; subst c|];
  [|destruct (Ascii.eqb c "<") eqn:C2; [apply Ascii.eqb_eq in C2; subst c|]];
  [| |destruct (Ascii.eqb c ">") eqn:C3; [apply Ascii.eqb_eq in C3; subst c|]];
  [| | |destruct (Ascii.eqb c "034") eqn:C4; [apply Ascii.eqb_eq in C4; subst c|]];
  [| | | |destruct (Ascii.eqb c "'") eqn:C5; [apply Ascii.eqb_eq in C5; subst c|]];
  (destruct (Ascii.eqb d "&") eqn:D1; [apply Ascii.eqb_eq in D1; subst d|];
   [|destruct (Ascii.eqb d "<") eqn:D2; [apply Ascii.eqb_eq in D2; subst d|]];
   [| |destruct (Ascii.eqb d ">") eqn:D3; [apply Ascii.eqb_eq in D3; subst d|]];
   [| | |destruct (Ascii.eqb d "034") eqn:D4; [apply Ascii.eqb_eq in D4; subst d|]];
   [| | | |destruct (Ascii.eqb d "'") eqn:D5; [apply Ascii.eqb_eq in D5; subst d|]]);
  cbn [txt list_ascii_of_string app]; intros H; try discriminate H;
  try (injection H as ->; try done; by rewrite ?Ascii.eqb_refl in * );
  injection H; intros; subst; try done; by rewrite ?Ascii.eqb_refl in *.
Qed.

End Escaping.

(** X9: [escapeXML] replaces every code unit on its own, an ampersand and
    the four markup characters by their entities; the result holds no
    markup character, and two different texts never have the same escaped
    form. *)
Theorem X9_escapeXML_entities (s t : text) :
  Dummy.escapeXML t = flat_map escapeChar t /\
  Forall (fun c => markup c = false) (Dummy.escapeXML t) /\
  (Dummy.escapeXML s = Dummy.escapeXML t -> s = t).
Proof.
  split; [apply escapeXML_flat_map|]. split; [apply escapeXML_no_markup|].
  rewrite !escapeXML_flat_map. revert t.
  induction s as [|c s IH]; intros [|d t]; simpl.
  - done.
  - unfold escapeChar. by repeat destruct (Ascii.eqb d _).
  - unfold escapeChar. by repeat destruct (Ascii.eqb c _).
  - intros H. apply escapeChar_prefix_free in H as [-> H]. f_equal. by apply IH.
Qed.

Lemma X9_escapeXML_entities_witness :
  Dummy.escapeXML (txt "Tom & <Jerry>") = flat_map escapeChar (txt "Tom & <Jerry>") /\
  Forall (fun c => markup c = false) (Dummy.escapeXML (txt "Tom & <Jerry>")) /\
  txt "Tom & <Jerry>" = txt "Tom & <Jerry>".
Proof.
  destruct (X9_escapeXML_entities (txt "Tom & <Jerry>") (txt "Tom & <Jerry>")) as (H1 & H2 & H3).
  split; [exact H1|]. split; [exact H2|]. apply H3. reflexivity.
Defined.

(** ** The opening tag of a placeholder programme *)

Section PlaceholderTag.

Lemma search_char (x : ascii) (body rest : text) (i : nat) :
  Forall (fun c => c <> x) body ->
  search [x] (body ++ x :: rest) i = Some (i + length body)%nat.
Proof.
  revert i. induction body as [|c body IH]; intros i H;
    cbn [search startsWith app length] in *.
  - rewrite Ascii.eqb_refl. apply (f_equal Some). lia.
  - apply Forall_cons in H as [Hc H].
    destruct (Ascii.eqb x c) eqn:E.
    + apply Ascii.eqb_eq in E. by subst c.
    + rewrite IH by done. apply (f_equal Some). lia.
Qed.

Lemma digit_stampChar (n : Z) : stampChar (ascii_of_nat (Z.to_nat (48 + n mod 10))) = true.
Proof.
  pose proof (Z.mod_pos_bound n 10 ltac:(lia)) as H.
  assert (n mod 10 = 0 \/ n mod 10 = 1 \/ n mod 10 = 2 \/ n mod 10 = 3 \/ n mod 10 = 4 \/
          n mod 10 = 5 \/ n mod 10 = 6 \/ n mod 10 = 7 \/ n mod 10 = 8 \/ n mod 10 = 9)
    as Hc by lia.
  destruct Hc as [->|[->|[->|[->|[->|[->|[->|[->|[->| ->]]]]]]]]]; reflexivity.
Qed.

Lemma digitsOfPos_fuel_chars (fuel : nat) (n : Z) (acc : text) :
  Forall (fun c => stampChar c = true) acc ->
  Forall (fun c => stampChar c = true) (digitsOfPos_fuel fuel n acc).
Proof.
  revert n acc. induction fuel as [|fuel IH]; intros n acc Hacc; cbn [digitsOfPos_fuel]; [done|].
  assert (Forall (fun c => stampChar c = true)
            (ascii_of_nat (Z.to_nat (48 + n mod 10)) :: acc)) as H.
  { constructor; [apply digit_stampChar|done]. }
  destruct (n / 10 =? 0); [done|]. by apply IH.
Qed.

Lemma stringOfInt_chars (n : Z) : Forall (fun c => stampChar c = true) (stringOfInt n).
Proof.
  unfold stringOfInt. destruct (n <? 0).
  - constructor; [done|]. by apply digitsOfPos_fuel_chars.
  - by apply digitsOfPos_fuel_chars.
Qed.

Lemma pad2_chars (n : Z) : Forall (fun c => stampChar c = true) (Dummy.pad2 n).
Proof.
  unfold Dummy.pad2, padStart0. apply Forall_app. split; [|apply stringOfInt_chars].
  generalize (2 - length (stringOfInt n))%nat. intros k.
  induction k as [|k IH]; simpl; [done|by constructor].
Qed.

Lemma formatTimestamp_chars (e : JS.env) (d : JS.Date) :
  Forall (fun c => stampChar c = true) (Dummy.formatTimestamp e d) /\
  Dummy.formatTimestamp e d <> [].
Proof.
  unfold Dummy.formatTimestamp. destruct d as [t|].
  - split.
    + rewrite !Forall_app.
      repeat split; try apply pad2_chars; try apply stringOfInt_chars;
        try destruct (0 <=? _); by repeat constructor.
    + intros H. apply (f_equal length) in H. rewrite !length_app in H. simpl in H. lia.
  - split; [|done]. apply Forall_forall. intros c Hc.
    cbn [txt list_ascii_of_string] in Hc. rewrite ?elem_of_cons, ?elem_of_nil in Hc.
    repeat (destruct Hc as [->|Hc]; [reflexivity|]). done.
Qed.

Lemma stampChar_ne (x c : ascii) : stampChar x = false -> stampChar c = true -> c <> x.
Proof. intros Hx Hc ->. congruence. Qed.

Lemma matchStart_cons_ne (c : ascii) (s : text) :
  c <> "s"%char -> Filter.matchStart (c :: s) = Filter.matchStart s.
Proof.
  intros Hc. cbn [Filter.matchStart txt list_ascii_of_string app startsWith].
  destruct (Ascii.eqb "s" c) eqn:E; [|done].
  apply Ascii.eqb_eq in E. by subst c.
Qed.

(** An attribute value without equals sign, closed by its quote, holds no
    match of the pattern. *)
Lemma matchStart_skip_value (value rest : text) :
  Forall (fun c => c <> "="%char) value ->
  Filter.matchStart (value ++ Filter.dquote :: rest) = Filter.matchStart (Filter.dquote :: rest).
Proof.
  induction value as [|c value IH]; intros Hv; [done|].
  apply Forall_cons in Hv as [Hc Hv].
  cbn [app Filter.matchStart].
  destruct (startsWith _ _) eqn:E; [exfalso|by apply IH].
  apply startsWith_inv in E. revert E.
  generalize (drop (length (txt "start=" ++ [Filter.dquote]))
                (c :: value ++ Filter.dquote :: rest)).
  intros X E. cbn [txt list_ascii_of_string app] in E.
  destruct value as [|c2 [|c3 [|c4 [|c5 [|c6 value]]]]]; cbn [app] in E;
    try (injection E; intros; discriminate).
  injection E. intros. subst.
  repeat (apply Forall_cons in Hv as [? Hv]). done.
Qed.

Lemma span_until (p : ascii -> bool) (a r : text) (b : ascii) :
  Forall (fun c => p c = true) a -> p b = false -> span p (a ++ b :: r) = (a, b :: r).
Proof.
  intros Ha Hb. induction Ha as [|c a Hc Ha IH]; cbn [app span].
  - by rewrite Hb.
  - by rewrite Hc, IH.
Qed.

Lemma matchStart_found (value rest : text) :
  value <> [] -> Forall (fun c => c <> Filter.dquote) value ->
  Filter.matchStart ((txt "start=" ++ [Filter.dquote]) ++ value ++ Filter.dquote :: rest)
  = Some value.
Proof.
  intros Hne Hv.
  set (pattern := txt "start=" ++ [Filter.dquote]).
  assert (forall s, Filter.matchStart (pattern ++ s)
                    = match span Filter.notQuote s with
                      | ((_ :: _) as v, _ :: _) => Some v
                      | _ => Filter.matchStart (drop 1 (pattern ++ s))
                      end) as Hstep.
  { intros s. change (pattern ++ s) with ("s"%char :: drop 1 (pattern ++ s)) at 1.
    cbn [Filter.matchStart]. fold pattern.
    change ("s"%char :: drop 1 (pattern ++ s)) with (pattern ++ s).
    rewrite startsWith_app. change 7%nat with (length pattern). rewrite drop_app_length.
    destruct (span Filter.notQuote s) as [[|? ?] [|? ?]]; reflexivity. }
  rewrite Hstep, (span_until Filter.notQuote value rest Filter.dquote).
  - by destruct value.
  - eapply Forall_impl; [exact Hv|]. intros c Hc. unfold Filter.notQuote.
    apply negb_true_iff. by apply Ascii.eqb_neq.
  - reflexivity.
Qed.

Lemma matchStart_at (value rest : text) :
  value <> [] -> Forall (fun c => c <> Filter.dquote) value ->
  Filter.matchStart (txt "start=" ++ Dummy.quoted value ++ rest) = Some value.
Proof.
  intros Hne Hv. rewrite <- (matchStart_found value rest Hne Hv).
  unfold Dummy.quoted. by rewrite <- !app_assoc.
Qed.

Lemma placeholderTag_start (e : JS.env) (ch : Dummy.ChannelInfo) (cur next : JS.Date) :
  Forall (fun c => c <> "="%char) (Dummy.id ch) ->
  Filter.matchStart (placeholderTag e ch cur next) = Some (Dummy.formatTimestamp e cur).
Proof.
  intros Hid. unfold placeholderTag, Dummy.quoted.
  cbn [txt list_ascii_of_string app].
  rewrite !matchStart_cons_ne by done.
  rewrite <- app_assoc. cbn [app].
  rewrite matchStart_skip_value.
  2:{ apply escapeXML_Forall; [by repeat constructor|done]. }
  rewrite !matchStart_cons_ne by done.
  destruct (formatTimestamp_chars e cur) as [Hc Hne].
  apply (matchStart_at (Dummy.formatTimestamp e cur) _ Hne).
  eapply Forall_impl; [exact Hc|]. intros c. by apply stampChar_ne.
Qed.

Lemma placeholderTag_end (e : JS.env) (ch : Dummy.ChannelInfo) (cur next : JS.Date) :
  indexOf (placeholderTag e ch cur next) (txt ">") 0
  = Some (length (placeholderTag e ch cur next) - 1)%nat.
Proof.
  unfold indexOf. rewrite drop_0. cbn [Nat.min].
  unfold placeholderTag. rewrite !app_assoc. cbn [txt list_ascii_of_string].
  rewrite search_char.
  - apply (f_equal Some). rewrite (length_app _ [">"%char]). simpl. lia.
  - unfold Dummy.quoted. rewrite !Forall_app.
    repeat split; try by repeat constructor.
    + eapply Forall_impl; [apply escapeXML_no_markup|]. intros c Hc ->. done.
    + eapply Forall_impl; [apply (formatTimestamp_chars e cur)|]. intros c. by apply stampChar_ne.
    + eapply Forall_impl; [apply (formatTimestamp_chars e next)|]. intros c. by apply stampChar_ne.
Qed.

End PlaceholderTag.

(** X10: the opening tag of a placeholder programme, as the generator
    writes it for a channel whose id holds no equals sign, ends at the
    first closing angle bracket; the pattern of the date filter finds in it
    the start time stamp of the block; and for a block that starts at the
    instant [t], in a local year of four digits, the filter decides by
    comparing [t] without its milliseconds, moved by the difference of the
    zones of writer and reader, with the cutoff. *)
Theorem X10_placeholder_start_is_read (w r : JS.env) (ch : Dummy.ChannelInfo)
    (title description : text) (t : Z) (next : JS.Date) (cutoff : JS.number) :
  Forall (fun c => c <> "="%char) (Dummy.id ch) ->
  1000 <= JS.YearFromTime (JS.LocalTime w t) <= 9999 ->
  let tag := placeholderTag w ch (Some t) next in
  (exists rest, Dummy.programmeXML w ch title description (Some t) next = txt "  " ++ tag ++ rest) /\
  indexOf tag (txt ">") 0 = Some (length tag - 1)%nat /\
  Filter.matchStart tag = Some (Dummy.formatTimestamp w (Some t)) /\
  Filter.keepProgramme r cutoff (Dummy.formatTimestamp w (Some t))
  = JS.lt (JS.TimeClip (t - t mod 1000
                        + (JS.tzOffsetMinutes w - JS.tzOffsetMinutes r) * JS.msPerMinute))
          cutoff.
Proof.
  intros Hid Hy tag. split; [|split; [|split]].
  - eexists. unfold Dummy.programmeXML, tag, placeholderTag.
    rewrite <- !app_assoc. reflexivity.
  - apply placeholderTag_end.
  - by apply placeholderTag_start.
  - destruct (programmeDate_formatTimestamp w t Hy) as (digits & offset & -> & Hlen & _ & Hread).
    unfold Filter.keepProgramme. rewrite Hread. by destruct digits.
Qed.

Lemma X10_placeholder_start_is_read_witness :
  Filter.matchStart
    (placeholderTag envEST {| Dummy.id := txt "7.1"; Dummy.name := txt "KGO-HD" |}
       (Some 1704862800000) (Some 1704884400000))
  = Some (txt "20240110000000 -0500").
Proof.
  refine (proj1 (proj2 (proj2
    (X10_placeholder_start_is_read envEST envEST
       {| Dummy.id := txt "7.1"; Dummy.name := txt "KGO-HD" |} [] []
       1704862800000 (Some 1704884400000) None _ _)))).
  - by repeat constructor.
  - vm_compute. by split.
Defined.

(** ** Durations *)

Section Durations.

Lemma lowerChar_idem (c : ascii) : lowerChar (lowerChar c) = lowerChar c.
Proof. destruct c as [[] [] [] [] [] [] [] []]; reflexivity. Qed.

Lemma lowerChar_isDigit (c : ascii) : isDigit (lowerChar c) = isDigit c.
Proof. destruct c as [[] [] [] [] [] [] [] []]; reflexivity. Qed.

Lemma lowerChar_digit (c : ascii) : isDigit c = true -> lowerChar c = c.
Proof. destruct c as [[] [] [] [] [] [] [] []]; (reflexivity || discriminate). Qed.

Lemma lowerChar_dot (c : ascii) : Ascii.eqb (lowerChar c) "." = Ascii.eqb c ".".
Proof. destruct c as [[] [] [] [] [] [] [] []]; reflexivity. Qed.

Lemma toLowerCase_idem (s : text) : toLowerCase (toLowerCase s) = toLowerCase s.
Proof.
  unfold toLowerCase. rewrite map_map. apply map_ext. intros c. apply lowerChar_idem.
Qed.

Lemma toLowerCase_digits (ds : text) : forallb isDigit ds = true -> toLowerCase ds = ds.
Proof.
  induction ds as [|c ds IH]; simpl; [done|].
  intros H. apply andb_prop in H as [Hc H]. by rewrite lowerChar_digit, IH.
Qed.

Lemma clamp_bounds (h : JS.double) : (1 # 2 <= Dummy.clamp h)%Q /\ (Dummy.clamp h <= 12)%Q.
Proof.
  destruct h as [q|[|]]; [|done|done].
  unfold Dummy.clamp. split; [apply Q.le_max_l|].
  apply Q.max_lub; [done|apply Q.le_min_l].
Qed.

Lemma parseDuration_range (s : text) :
  (1 # 2 <= Dummy.parseDuration s)%Q /\ (Dummy.parseDuration s <= 12)%Q.
Proof.
  unfold Dummy.parseDuration.
  repeat (destruct (decide _); [done|]).
  destruct (Dummy.matchDuration _) as [[[ds fs] unit]|]; [|done].
  apply clamp_bounds.
Qed.

Lemma span_all (p : ascii -> bool) (a : text) :
  forallb p a = true -> span p a = (a, []).
Proof.
  induction a as [|c a IH]; simpl; [done|].
  intros H. apply andb_prop in H as [Hc H]. by rewrite Hc, IH.
Qed.

Lemma span_digits (a rest : text) :
  forallb isDigit a = true ->
  match rest with [] => True | c :: _ => isDigit c = false end ->
  span isDigit (a ++ rest) = (a, rest).
Proof.
  intros Ha Hr. induction a as [|x a IH]; cbn [app span].
  - destruct rest as [|c rest]; [done|]. cbn [span]. by rewrite Hr.
  - simpl in Ha. apply andb_prop in Ha as [Hx Ha]. by rewrite Hx, IH.
Qed.

Lemma startsWith_prefix (s p q : text) :
  startsWith s (p ++ q) = true -> startsWith s p = true.
Proof.
  intros H. apply startsWith_inv in H. rewrite H, <- app_assoc. apply startsWith_app.
Qed.

(** The unit counts as minutes exactly when the text after the number
    begins with the letters min. *)
Lemma unit_is_minutes (rest : text) :
  startsWith (default (txt "hr") (Dummy.matchUnit rest)) (txt "min")
  = startsWith rest (txt "min").
Proof.
  unfold Dummy.matchUnit, Dummy.units. cbn [List.find].
  destruct (startsWith rest (txt "min")) eqn:M.
  - apply startsWith_inv in M. rewrite M. reflexivity.
  - destruct (startsWith rest (txt "hr")); [reflexivity|].
    destruct (startsWith rest (txt "hour")); [reflexivity|].
    destruct (startsWith rest (txt "hours")); [reflexivity|].
    destruct (startsWith rest (txt "mins")) eqn:M1.
    { apply (startsWith_prefix rest (txt "min") (txt "s")) in M1. congruence. }
    destruct (startsWith rest (txt "minutes")) eqn:M2.
    { apply (startsWith_prefix rest (txt "min") (txt "utes")) in M2. congruence. }
    destruct (startsWith rest (txt "minute")) eqn:M3.
    { apply (startsWith_prefix rest (txt "min") (txt "ute")) in M3. congruence. }
    reflexivity.
Qed.

Lemma matchNumber_nondigit (c : ascii) (s : text) :
  isDigit c = false -> Dummy.matchNumber (c :: s) = None.
Proof. intros H. unfold Dummy.matchNumber. cbn [span]. by rewrite H. Qed.

Lemma matchDuration_skip (pre s : text) :
  Forall (fun c => isDigit c = false) pre ->
  Dummy.matchDuration (pre ++ s) = Dummy.matchDuration s.
Proof.
  induction 1 as [|c pre Hc Hpre IH]; [done|].
  cbn [app Dummy.matchDuration]. by rewrite matchNumber_nondigit.
Qed.

Lemma matchNumber_number (ds fs rest : text) :
  ds <> [] -> forallb isDigit ds = true -> forallb isDigit fs = true ->
  afterNumber fs rest = true ->
  Dummy.matchNumber (numberText ds fs ++ rest) = Some (ds, fs, rest).
Proof.
  intros Hne Hds Hfs Hrest. unfold Dummy.matchNumber, numberText.
  destruct fs as [|f fs].
  - rewrite span_digits; [|done|].
    + destruct ds; [done|]. destruct rest as [|c rest]; [done|].
      simpl in Hrest. apply andb_prop in Hrest as [_ Hdot]. simpl in Hdot.
      apply negb_true_iff in Hdot. by rewrite Hdot.
    + destruct rest as [|c rest]; [done|]. simpl in Hrest.
      apply andb_prop in Hrest as [Hd _]. by apply negb_true_iff.
  - rewrite <- app_assoc.
    change (("."%char :: f :: fs) ++ rest) with ("."%char :: (f :: fs) ++ rest).
    set (F := f :: fs) in *.
    rewrite span_digits; [|done|done].
    destruct ds; [done|]. rewrite Ascii.eqb_refl.
    rewrite (span_digits F rest); [done|done|].
    destruct rest as [|c rest]; [done|]. simpl in Hrest.
    apply andb_prop in Hrest as [Hd _]. by apply negb_true_iff.
Qed.

End Durations.

Section DurationsRead.

Lemma matchDuration_number (ds fs rest : text) :
  ds <> [] -> forallb isDigit ds = true -> forallb isDigit fs = true ->
  afterNumber fs rest = true ->
  Dummy.matchDuration (numberText ds fs ++ rest) = Some (ds, fs, Dummy.matchUnit rest).
Proof.
  intros Hne Hds Hfs Hrest.
  assert (forall s, Dummy.matchDuration s
                    = match Dummy.matchNumber s with
                      | Some (ds, fs, rest) => Some (ds, fs, Dummy.matchUnit rest)
                      | None => match s with
                                | [] => None
                                | _ :: s' => Dummy.matchDuration s'
                                end
                      end) as Hstep by (by intros [|? ?]).
  by rewrite Hstep, matchNumber_number.
Qed.

Lemma toLowerCase_numberText (ds fs : text) :
  forallb isDigit ds = true -> forallb isDigit fs = true ->
  toLowerCase (numberText ds fs) = numberText ds fs.
Proof.
  intros Hds Hfs. unfold numberText. destruct fs as [|f fs]; [by apply toLowerCase_digits|].
  transitivity (toLowerCase ds ++ "."%char :: toLowerCase (f :: fs)).
  - unfold toLowerCase. by rewrite map_app.
  - by rewrite !toLowerCase_digits.
Qed.

Lemma afterNumber_toLowerCase (fs rest : text) :
  afterNumber fs (toLowerCase rest) = afterNumber fs rest.
Proof.
  destruct rest as [|c rest]; [done|]. cbn [toLowerCase map afterNumber].
  by rewrite lowerChar_isDigit, lowerChar_dot.
Qed.

Lemma normalized_number (pre ds fs rest : text) :
  forallb isDigit ds = true -> forallb isDigit fs = true ->
  toLowerCase (pre ++ numberText ds fs ++ rest)
  = toLowerCase pre ++ numberText ds fs ++ toLowerCase rest.
Proof.
  intros Hds Hfs. unfold toLowerCase. rewrite !map_app.
  fold (toLowerCase (numberText ds fs)). by rewrite toLowerCase_numberText.
Qed.

Lemma with_digit (pre ds fs rest : text) :
  ds <> [] -> forallb isDigit ds = true ->
  existsb isDigit (pre ++ numberText ds fs ++ rest) = true.
Proof.
  intros Hne Hds. rewrite existsb_app. apply orb_true_iff. right.
  rewrite existsb_app. apply orb_true_iff. left.
  destruct ds as [|d ds]; [done|]. simpl in Hds. apply andb_prop in Hds as [Hd _].
  unfold numberText. destruct fs; simpl; by rewrite Hd.
Qed.

End DurationsRead.

(** X11: every duration that [parseDuration] returns lies between half an
    hour and twelve hours; the case of the letters of its argument does not
    matter; and the copy in dummy-programming.ts computes the same value. *)
Theorem X11_parseDuration_bounds (s : text) :
  (1 # 2 <= Dummy.parseDuration s)%Q /\ (Dummy.parseDuration s <= 12)%Q /\
  Dummy.parseDuration (toLowerCase s) = Dummy.parseDuration s /\
  DummyProgramming.parseDuration s = Dummy.parseDuration s.
Proof.
  destruct (parseDuration_range s) as [H1 H2].
  split; [exact H1|]. split; [exact H2|]. split; [|reflexivity].
  unfold Dummy.parseDuration. by rewrite toLowerCase_idem.
Qed.

(** [parseFloat] rounds: twenty nines after the dot are read as 1, and
    a tenth is read as the double next to it. *)
Lemma parseFloat_rounds :
  Dummy.parseFloat (txt "0") (txt "99999999999999999999") = JS.Finite 1 /\
  Dummy.parseFloat (txt "0") (txt "1") = JS.Finite (3602879701896397 # 36028797018963968) /\
  (Dummy.parseDuration (txt "0.99999999999999999999hr") == 1)%Q.
Proof. repeat split; vm_compute; reflexivity. Qed.

(** X12: [parseDuration] reads the first number of its argument. When the
    argument is a text without digits, then a number with the integer
    digits [ds] and the fraction digits [fs], then a rest that does not
    continue the number, the value comes from the double nearest to that
    number: taken as minutes (divided by 60, which rounds again) exactly
    when the rest begins with the letters min in either case, as hours
    otherwise, and clamped. *)
Theorem X12_parseDuration_reads_first_number (pre ds fs rest : text) :
  Forall (fun c => isDigit c = false) pre ->
  ds <> [] -> forallb isDigit ds = true -> forallb isDigit fs = true ->
  afterNumber fs rest = true ->
  (Dummy.parseDuration (pre ++ numberText ds fs ++ rest)
   == Dummy.clamp (if startsWith (toLowerCase rest) (txt "min")
                   then JS.divideBy (JS.toDouble (decimal ds fs)) 60
                   else JS.toDouble (decimal ds fs)))%Q.
Proof.
  intros Hpre Hne Hds Hfs Hrest. unfold Dummy.parseDuration.
  rewrite normalized_number by done.
  set (lpre := toLowerCase pre). set (lrest := toLowerCase rest).
  pose proof (with_digit lpre ds fs lrest Hne Hds) as Hdigit.
  destruct (decide (_ = txt "true")) as [E|_]; [by rewrite E in Hdigit|].
  destruct (decide (_ = txt "1")) as [E|_].
  { assert (length (lpre ++ numberText ds fs ++ lrest) = 1%nat) as Hlen by (by rewrite E).
    rewrite !length_app in Hlen.
    destruct ds as [|d [|d' ds]]; [done| |unfold numberText in Hlen; destruct fs;
      rewrite ?length_app in Hlen; simpl in Hlen; lia].
    destruct fs as [|f fs]; [|unfold numberText in Hlen; rewrite length_app in Hlen;
      simpl in Hlen; lia].
    simpl in Hlen.
    destruct lpre as [|? ?]; [|simpl in Hlen; lia].
    destruct lrest as [|? ?]; [|simpl in Hlen; lia].
    simpl in E. injection E as ->. vm_compute. reflexivity. }
  destruct (decide (_ = txt "yes")) as [E|_]; [by rewrite E in Hdigit|].
  rewrite matchDuration_skip.
  2:{ unfold lpre, toLowerCase. apply Forall_map. eapply Forall_impl; [exact Hpre|].
      intros c Hc. simpl. by rewrite lowerChar_isDigit. }
  rewrite matchDuration_number; [|done|done|done|].
  2:{ unfold lrest. by rewrite afterNumber_toLowerCase. }
  rewrite unit_is_minutes. reflexivity.
Qed.

Lemma X12_parseDuration_reads_first_number_witness :
  (Dummy.parseDuration (txt "every " ++ numberText (txt "90") [] ++ txt "Minutes")
   == Dummy.clamp (if startsWith (toLowerCase (txt "Minutes")) (txt "min")
                   then JS.divideBy (JS.toDouble (decimal (txt "90") [])) 60
                   else JS.toDouble (decimal (txt "90") [])))%Q.
Proof.
  apply (X12_parseDuration_reads_first_number (txt "every ") (txt "90") [] (txt "Minutes")).
  - by repeat constructor.
  - done.
  - reflexivity.
  - reflexivity.
  - reflexivity.
Defined.

(** ** Merging a window again *)

Section MergeAgain.
Import Merge.

Lemma exists_grows (guide extra : list ProgrammeGuide) (p : ProgrammeGuide) :
  exists_ guide p = true -> exists_ (guide ++ extra) p = true.
Proof. intros H. unfold exists_ in *. by rewrite existsb_app, H. Qed.

Lemma covered_grows (guide extra newGuide : list ProgrammeGuide) :
  covered guide newGuide -> covered (guide ++ extra) newGuide.
Proof. intros H. eapply Forall_impl; [exact H|]. intros p. apply exists_grows. Qed.

Lemma mergeGuide_covers (newGuide guide : list ProgrammeGuide) :
  covered (mergeGuide guide newGuide) newGuide.
Proof.
  unfold mergeGuide, covered. revert guide.
  induction newGuide as [|p rest IH]; intros guide; simpl; [done|].
  constructor; [|apply IH].
  set (g1 := if exists_ guide p then guide else guide ++ [p]).
  assert (exists_ g1 p = true) as H1.
  { unfold g1. destruct (exists_ guide p) eqn:E; [done|].
    unfold exists_. rewrite existsb_app. simpl. by rewrite Z.eqb_refl, !orb_true_r. }
  destruct (mergeGuide_spec rest g1) as (extra & Heq & _).
  unfold mergeGuide in Heq. rewrite Heq. by apply exists_grows.
Qed.

Lemma mergeGuide_noop (newGuide guide : list ProgrammeGuide) :
  covered guide newGuide -> mergeGuide guide newGuide = guide.
Proof.
  unfold mergeGuide. induction 1 as [|p rest Hp Hrest IH]; simpl; [done|].
  by rewrite Hp.
Qed.

Lemma mergeChannel_cons (ch : ChannelGuide) (baseGuide : EPGResponse) (nc : ChannelGuide) :
  mergeChannel (ch :: baseGuide) nc
  = if decide (GuideNumber ch = GuideNumber nc)
    then withGuide ch (mergeGuide (Guide ch) (Guide nc)) :: baseGuide
    else ch :: mergeChannel baseGuide nc.
Proof.
  unfold mergeChannel. cbn [list_find].
  destruct (decide (GuideNumber ch = GuideNumber nc)); [done|].
  destruct (list_find _ baseGuide) as [[i baseChannel]|]; done.
Qed.

Lemma absorbed_cons (ch : ChannelGuide) (baseGuide : EPGResponse) (nc : ChannelGuide) :
  absorbed (ch :: baseGuide) nc
  <-> if decide (GuideNumber ch = GuideNumber nc)
      then covered (Guide ch) (Guide nc)
      else absorbed baseGuide nc.
Proof.
  unfold absorbed. cbn [list_find].
  destruct (decide (GuideNumber ch = GuideNumber nc)); [done|].
  destruct (list_find _ baseGuide) as [[i baseChannel]|]; done.
Qed.

Lemma mergeChannel_absorbs (baseGuide : EPGResponse) (nc : ChannelGuide) :
  absorbed (mergeChannel baseGuide nc) nc.
Proof.
  induction baseGuide as [|ch baseGuide IH]; [done|].
  rewrite mergeChannel_cons.
  destruct (decide (GuideNumber ch = GuideNumber nc)) as [E|E]; apply absorbed_cons; simpl.
  - rewrite decide_True by done. apply mergeGuide_covers.
  - by rewrite decide_False.
Qed.

Lemma mergeChannel_keeps_absorbed (baseGuide : EPGResponse) (nc nc' : ChannelGuide) :
  absorbed baseGuide nc -> absorbed (mergeChannel baseGuide nc') nc.
Proof.
  induction baseGuide as [|ch baseGuide IH]; [done|].
  rewrite mergeChannel_cons, absorbed_cons. intros H.
  destruct (decide (GuideNumber ch = GuideNumber nc')) as [E'|E']; apply absorbed_cons; simpl.
  - destruct (decide (GuideNumber ch = GuideNumber nc)) as [E|E]; [|done].
    destruct (mergeGuide_spec (Guide nc') (Guide ch)) as (extra & -> & _).
    by apply covered_grows.
  - destruct (decide (GuideNumber ch = GuideNumber nc)) as [E|E]; [done|]. by apply IH.
Qed.

Lemma mergeChannel_noop (baseGuide : EPGResponse) (nc : ChannelGuide) :
  absorbed baseGuide nc -> mergeChannel baseGuide nc = baseGuide.
Proof.
  induction baseGuide as [|ch baseGuide IH]; [done|].
  rewrite mergeChannel_cons, absorbed_cons.
  destruct (decide (GuideNumber ch = GuideNumber nc)) as [E|E]; intros H.
  - by rewrite mergeGuide_noop, withGuide_same.
  - by rewrite IH.
Qed.

Lemma mergeEPGData_absorbs (newData seen : list ChannelGuide) (baseGuide : EPGResponse) :
  Forall (absorbed baseGuide) seen ->
  Forall (absorbed (mergeEPGData baseGuide newData)) (seen ++ newData).
Proof.
  unfold mergeEPGData. revert seen baseGuide.
  induction newData as [|nc rest IH]; intros seen baseGuide Hseen; simpl.
  - by rewrite app_nil_r.
  - replace (seen ++ nc :: rest) with ((seen ++ [nc]) ++ rest) by (by rewrite <- app_assoc).
    apply IH. apply Forall_app. split.
    + eapply Forall_impl; [exact Hseen|]. intros x. apply mergeChannel_keeps_absorbed.
    + constructor; [|done]. apply mergeChannel_absorbs.
Qed.

Lemma mergeEPGData_noop (newData : list ChannelGuide) (baseGuide : EPGResponse) :
  Forall (absorbed baseGuide) newData -> mergeEPGData baseGuide newData = baseGuide.
Proof.
  unfold mergeEPGData. induction 1 as [|nc rest Hnc Hrest IH]; simpl; [done|].
  by rewrite mergeChannel_noop.
Qed.

End MergeAgain.

(** X13: the merge loses no start time. After a window has been merged,
    the channel that a channel of the window is matched with, the first
    one of the guide with its guide number, holds a programme with the start
    time of every programme of that window channel. *)
Theorem X13_merge_covers_the_window (baseGuide newData : Merge.EPGResponse)
    (newChannel baseChannel : Merge.ChannelGuide) (i : nat) (p : Merge.ProgrammeGuide) :
  newChannel ∈ newData ->
  list_find (fun ch => Merge.GuideNumber ch = Merge.GuideNumber newChannel)
            (Merge.mergeEPGData baseGuide newData) = Some (i, baseChannel) ->
  p ∈ Merge.Guide newChannel ->
  Merge.StartTime p ∈ Merge.StartTime <$> Merge.Guide baseChannel.
Proof.
  intros Hnc Hfind Hp.
  pose proof (mergeEPGData_absorbs newData [] baseGuide (Forall_nil_2 _)) as H.
  rewrite Forall_forall in H. specialize (H newChannel Hnc).
  unfold absorbed in H. rewrite Hfind in H. unfold covered in H.
  rewrite Forall_forall in H. specialize (H p Hp).
  apply existsb_exists in H as (q & Hq & Heq). apply Z.eqb_eq in Heq.
  rewrite <- Heq. apply list_elem_of_fmap_2. by apply list_elem_of_In.
Qed.

Lemma X13_merge_covers_the_window_witness :
  Merge.StartTime (sampleProgramme 1704889800 "Sports")
  ∈ Merge.StartTime <$> Merge.Guide
      (sampleChannel "5.1" "KQED"
         [sampleProgramme 1704888000 "News"; sampleProgramme 1704889800 "Weather";
          sampleProgramme 1704891600 "Late Show"]).
Proof.
  apply (X13_merge_covers_the_window sampleBase sampleWindow
           (sampleChannel "5.1" "KQED"
              [sampleProgramme 1704889800 "Sports"; sampleProgramme 1704891600 "Late Show"])
           _ 0%nat).
  - apply list_elem_of_here.
  - vm_compute. reflexivity.
  - apply list_elem_of_here.
Defined.

(** X14: merging is idempotent: a window that is merged a second time
    changes nothing, whatever the guide and the window are. *)
Theorem X14_merge_idempotent (baseGuide newData : Merge.EPGResponse) :
  Merge.mergeEPGData (Merge.mergeEPGData baseGuide newData) newData
  = Merge.mergeEPGData baseGuide newData.
Proof.
  apply mergeEPGData_noop.
  apply (mergeEPGData_absorbs newData [] baseGuide (Forall_nil_2 _)).
Qed.

(** ** The window loop *)

Section Windows.
Variable fetchEPGChunk : JS.number -> option Merge.EPGResponse.

Lemma loop_fetched (maxTimestamp step : Z) (n : nat) :
  0 < step ->
  forall (fuel : nat) (t : Z) (baseGuide : Merge.EPGResponse),
    (n < fuel)%nat ->
    maxTimestamp < t + Z.of_nat n * step ->
    ((0 < n)%nat -> t + (Z.of_nat n - 1) * step <= maxTimestamp) ->
    Client.loop fuel fetchEPGChunk (Some maxTimestamp) (Some step) (Some t) baseGuide
    = match fetched fetchEPGChunk n t step with
      | Some ws => Client.Done (Merge.mergeWindows baseGuide ws)
      | None => Client.Thrown
      end.
Proof.
  intros Hstep. induction n as [|n IH]; intros fuel t baseGuide Hfuel Hmax Hmin.
  - destruct fuel as [|fuel]; [lia|]. cbn [Client.loop Client.le fetched].
    assert ((t <=? maxTimestamp) = false) as -> by (apply Z.leb_gt; lia). done.
  - destruct fuel as [|fuel]; [lia|]. cbn [Client.loop Client.le fetched].
    assert ((t <=? maxTimestamp) = true) as -> by (apply Z.leb_le; nia).
    destruct (fetchEPGChunk (Some t)) as [[|c w]|]; [done| |done].
    cbn [Client.plus]. rewrite IH by (lia || nia).
    by destruct (fetched fetchEPGChunk n (t + step) step).
Qed.

Lemma loop_runs (maxTimestamp step : Z) :
  step <= 0 ->
  (forall t, exists c w, fetchEPGChunk (Some t) = Some (c :: w)) ->
  forall (fuel : nat) (t : Z) (baseGuide : Merge.EPGResponse),
    t <= maxTimestamp ->
    Client.loop fuel fetchEPGChunk (Some maxTimestamp) (Some step) (Some t) baseGuide
    = Client.Running.
Proof.
  intros Hstep Hdata. induction fuel as [|fuel IH]; intros t baseGuide Ht; [done|].
  cbn [Client.loop Client.le].
  assert ((t <=? maxTimestamp) = true) as -> by (by apply Z.leb_le).
  destruct (Hdata t) as (c & w & ->). cbn [Client.plus]. apply IH. lia.
Qed.

End Windows.

(** X15: with a window of at least one hour, [fetchEPGData] ends, and its
    result is the first response merged with the windows that start one
    increment, two increments, ... after the current second, as far as they
    start within the horizon and up to the first empty response; a request
    that throws before ends the call with its error. The number of
    requests in the loop is at most the horizon divided by the increment,
    plus one. *)
Theorem X15_fetch_merges_the_windows (fuel : nat) (e : JS.env) (baseGuide : Merge.EPGResponse)
    (fetchEPGChunk : JS.number -> option Merge.EPGResponse) (days hoursIncrement : Z) :
  1 <= hoursIncrement ->
  let now := JS.now e / 1000 in
  let step := 3600 * hoursIncrement in
  let n := Z.to_nat (days * 86400 / step) in
  (n < fuel)%nat ->
  Client.fetchEPGData fuel e (Some baseGuide) fetchEPGChunk (Some days) (Some hoursIncrement)
  = match fetched fetchEPGChunk n (now + step) step with
    | Some ws => Client.Done (Merge.mergeWindows baseGuide ws)
    | None => Client.Thrown
    end.
Proof.
  intros Hh now step n Hfuel. unfold Client.fetchEPGData.
  cbn [Client.plus Client.times]. change (86400 / 24) with 3600.
  fold now. fold step.
  assert (0 < step) as Hstep by (unfold step; lia).
  apply loop_fetched; [done|done| |].
  - unfold n. destruct (Z.neg_nonneg_cases (days * 86400)) as [Hneg|Hpos].
    + rewrite Z2Nat.nonpos; [lia|]. apply Z.lt_le_incl. apply Z.div_lt_upper_bound; lia.
    + rewrite Z2Nat.id by (by apply Z.div_pos).
      pose proof (Z.mul_succ_div_gt (days * 86400) step Hstep). lia.
  - intros Hn. unfold n in *.
    assert (0 < days * 86400 / step) as Hq by lia.
    rewrite Z2Nat.id by lia.
    pose proof (Z.mul_div_le (days * 86400) step Hstep). lia.
Qed.

Lemma X15_fetch_merges_the_windows_witness :
  Client.fetchEPGData 10 envUTC (Some sampleBase)
    (fun t => if decide (t = Some (1704888000 + 10800)) then Some sampleWindow else Some [])
    (Some 1) (Some 3)
  = Client.Done sampleMerged.
Proof.
  refine (eq_trans (X15_fetch_merges_the_windows 10 envUTC sampleBase
            (fun t => if decide (t = Some (1704888000 + 10800)) then Some sampleWindow
                      else Some [])
            1 3 _ _) _).
  - lia.
  - vm_compute. lia.
  - vm_compute. reflexivity.
Defined.

(** X16: with an increment of zero or less and a horizon that is not
    negative, the loop of [fetchEPGData] never ends as long as every
    response holds data: the start of the window does not move forward. *)
Theorem X16_fetch_needs_a_positive_increment (fuel : nat) (e : JS.env)
    (baseGuide : Merge.EPGResponse) (fetchEPGChunk : JS.number -> option Merge.EPGResponse)
    (days hoursIncrement : Z) :
  hoursIncrement <= 0 -> 0 <= days ->
  (forall t, exists c w, fetchEPGChunk (Some t) = Some (c :: w)) ->
  Client.fetchEPGData fuel e (Some baseGuide) fetchEPGChunk (Some days) (Some hoursIncrement)
  = Client.Running.
Proof.
  intros Hh Hd Hdata. unfold Client.fetchEPGData.
  cbn [Client.plus Client.times]. change (86400 / 24) with 3600.
  apply loop_runs; [lia|done|lia].
Qed.

Lemma X16_fetch_needs_a_positive_increment_witness :
  Client.fetchEPGData 1000 envUTC (Some sampleBase) (fun _ => Some sampleWindow)
    (Some 7) (Some 0)
  = Client.Running.
Proof.
  apply (X16_fetch_needs_a_positive_increment 1000 envUTC sampleBase
           (fun _ => Some sampleWindow) 7 0); [lia|lia|].
  intros t. eexists _, _. reflexivity.
Defined.

(** ** The blocks of the placeholder generator *)

Section Tiles.
Variable e : JS.env.

Lemma blocks_tiles (d : Q) (E : Z) (n : nat) :
  (0 <= d)%Q -> (d <= 12)%Q -> (d <= inject_Z (Qfloor d + 1) - JS.pow2 (-47))%Q ->
  1 <= Qfloor d ->
  forall (fuel : nat) (t : Z),
    (n < fuel)%nat ->
    Z.abs t <= 8640000000000000 ->
    Z.abs (t + Z.of_nat n * (Qfloor d * JS.msPerHour)) <= 8640000000000000 ->
    E <= t + Z.of_nat n * (Qfloor d * JS.msPerHour) ->
    ((0 < n)%nat -> t + (Z.of_nat n - 1) * (Qfloor d * JS.msPerHour) < E) ->
    Dummy.blocks fuel e d (Some E) (Some t) = Some (tiles t (Qfloor d * JS.msPerHour) n).
Proof.
  intros Hd Hd12 Hfrac Hk. set (step := Qfloor d * JS.msPerHour).
  assert (0 < step) as Hstep by (unfold step, JS.msPerHour; lia).
  induction n as [|n IH]; intros fuel t Hfuel Ht Hend Hcover Hlast.
  - destruct fuel as [|fuel]; [lia|]. cbn [Dummy.blocks JS.lt tiles].
    assert ((t <? E) = false) as -> by (apply Z.ltb_ge; lia). done.
  - destruct fuel as [|fuel]; [lia|]. cbn [Dummy.blocks JS.lt tiles].
    assert ((t <? E) = true) as -> by (apply Z.ltb_lt; nia).
    rewrite setHoursPlus_whole by done. fold step.
    rewrite TimeClip_inRange by lia.
    rewrite IH; [done|lia|lia|lia|lia|intros _; lia].
Qed.

End Tiles.

(** The sum of the clock hour and the duration is a double. With the
    duration 1.9999999999999998 the first block lasts one hour, from hour
    0 to hour 1; at hour 1 the sum rounds to 3, and every later block
    lasts two hours. *)
Lemma blocks_round_the_hour :
  (Dummy.parseDuration (txt "1.9999999999999998hr") < 2)%Q /\
  Dummy.blocks 100 envEST (Dummy.parseDuration (txt "1.9999999999999998hr"))
    (Dummy.endDate envEST 1) (Dummy.startDate envEST)
  = Some ((Some 1704862800000, Some (1704862800000 + 3600000))
            :: tiles (1704862800000 + 3600000) 7200000 12).
Proof. split; vm_compute; reflexivity. Qed.

(** X17: the placeholder programmes of a channel tile the horizon. For a
    duration of at least one hour and at most twelve, whose fraction is
    not within [2 ^ -47] of one (so that the sum of a clock hour and the
    duration rounds to a double with the same whole hours), and a horizon
    of [days >= 0] days, the generator ends and yields one programme per
    block of the whole hours of the duration, back to back from the local
    midnight of the invocation day, as many as are needed to reach the end
    of the horizon: 24 * days hours divided by the whole hours, rounded
    up. The local zone has a constant UTC offset. *)
Theorem X17_placeholders_tile_the_horizon (fuel : nat) (e : JS.env)
    (channel : Dummy.ChannelInfo) (durationHours : Q) (title descTemplate : text)
    (days : Z) :
  (1 <= durationHours)%Q -> (durationHours <= 12)%Q ->
  (durationHours <= inject_Z (Qfloor durationHours + 1) - JS.pow2 (-47))%Q ->
  0 <= days ->
  let hours := Qfloor durationHours in
  let midnight := JS.UTC e (JS.Day (JS.LocalTime e (JS.now e)) * JS.msPerDay) in
  let n := Z.to_nat ((24 * days + hours - 1) / hours) in
  Z.abs midnight <= 8640000000000000 ->
  Z.abs (midnight + (24 * days + hours) * JS.msPerHour) <= 8640000000000000 ->
  (n < fuel)%nat ->
  Dummy.generateDummyProgrammes fuel e channel durationHours title descTemplate days
  = Some (map (fun b =>
                 Dummy.programmeXML e channel title
                   (replaceFirst descTemplate (txt "{channel}") (Dummy.name channel))
                   (fst b) (snd b))
              (tiles midnight (hours * JS.msPerHour) n)).
Proof.
  intros Hd Hd12 Hfrac Hdays hours midnight n Hmid Hend Hfuel.
  assert (1 <= hours) as Hk.
  { unfold hours. change 1 with (Qfloor 1). by apply Qfloor_resp_le. }
  assert (0 <= durationHours)%Q as Hd0 by (by apply Qle_trans with 1%Q).
  pose proof (Z.div_mod (24 * days + hours - 1) hours ltac:(lia)) as Hdm.
  pose proof (Z.mod_pos_bound (24 * days + hours - 1) hours ltac:(lia)) as Hmb.
  assert (0 <= (24 * days + hours - 1) / hours) as Hq by (apply Z.div_pos; lia).
  assert (Z.of_nat n = (24 * days + hours - 1) / hours) as Hn by (unfold n; lia).
  unfold Dummy.generateDummyProgrammes.
  rewrite startDate_eq, (endDate_eq e days Hmid). fold midnight.
  rewrite (TimeClip_inRange _ Hmid).
  assert (JS.UTC e ((JS.Day (JS.LocalTime e (JS.now e)) + days) * JS.msPerDay)
          = midnight + 24 * days * JS.msPerHour) as ->.
  { unfold midnight, JS.UTC, JS.msPerDay, JS.msPerHour. lia. }
  unfold JS.msPerHour in *.
  rewrite (TimeClip_inRange (midnight + _)) by lia.
  rewrite (blocks_tiles e durationHours _ n Hd0 Hd12 Hfrac Hk); unfold JS.msPerHour; fold hours;
    [done|done|done|rewrite Hn; lia|rewrite Hn; lia|intros _; rewrite Hn; lia].
Qed.

Lemma X17_placeholders_tile_the_horizon_witness :
  Dummy.generateDummyProgrammes 100 envEST
    {| Dummy.id := txt "7.1"; Dummy.name := txt "KGO-HD" |} (3 # 2) (txt "No Information")
    (txt "{channel}") 1
  = Some (map (fun b =>
                 Dummy.programmeXML envEST {| Dummy.id := txt "7.1"; Dummy.name := txt "KGO-HD" |}
                   (txt "No Information")
                   (replaceFirst (txt "{channel}") (txt "{channel}") (txt "KGO-HD"))
                   (fst b) (snd b))
              (tiles 1704862800000 3600000 24)).
Proof.
  apply (X17_placeholders_tile_the_horizon 100 envEST
           {| Dummy.id := txt "7.1"; Dummy.name := txt "KGO-HD" |} (3 # 2)
           (txt "No Information") (txt "{channel}") 1).
  - done.
  - done.
  - vm_compute. discriminate.
  - lia.
  - vm_compute. discriminate.
  - vm_compute. discriminate.
  - vm_compute. lia.
Defined.

(** ** The injector after the closing tag *)

Section InjectorAfter.
Variable ins : option text.

Lemma injector_transform_closed (st : Dummy.state) (chunk : text) :
  Dummy.insideClosingTag st = true ->
  Dummy.transform ins st chunk
  = Some ({| Dummy.insideClosingTag := true; Dummy.buffer := Dummy.buffer st ++ chunk |}, []).
Proof.
  intros Hin. unfold Dummy.transform. rewrite Hin. cbn [negb].
  by rewrite andb_false_r.
Qed.

Lemma injector_run_closed (chunks : list text) (st : Dummy.state) :
  Dummy.insideClosingTag st = true -> Dummy.run ins st chunks = Some [].
Proof.
  revert st. induction chunks as [|chunk chunks IH]; intros st Hin; cbn [Dummy.run].
  - unfold Dummy.flush. rewrite Hin. by rewrite andb_false_r.
  - rewrite (injector_transform_closed st chunk Hin). by rewrite IH.
Qed.

End InjectorAfter.

(** X18: once a chunk has completed the closing root tag, nothing that
    arrives later is written: the output of the injector does not depend
    on the chunks that follow that chunk. *)
Theorem X18_nothing_is_written_after_the_closing_chunk (ins : option text)
    (st : Dummy.state) (chunk : text) (rest : list text) :
  Dummy.insideClosingTag st = false ->
  includes (Dummy.buffer st ++ chunk) closingTag = true ->
  Dummy.run ins st (chunk :: rest) = Dummy.run ins st [chunk].
Proof.
  intros Hin Hinc. cbn [Dummy.run]. unfold Dummy.transform.
  fold closingTag. rewrite Hinc, Hin. cbn [andb negb].
  destruct ins as [inserted|]; [|done].
  rewrite (injector_run_closed (Some inserted) rest) by done.
  unfold Dummy.flush. cbn [Dummy.buffer truthy andb]. done.
Qed.

Lemma X18_nothing_is_written_after_the_closing_chunk_witness :
  Dummy.run (Some []) Dummy.initial [txt "<tv></tv>"; txt "<!-- end -->"]
  = Dummy.run (Some []) Dummy.initial [txt "<tv></tv>"].
Proof.
  apply (X18_nothing_is_written_after_the_closing_chunk (Some []) Dummy.initial
           (txt "<tv></tv>") [txt "<!-- end -->"]); reflexivity.
Defined.

(** X19: the buffer of the injector. As long as the closing root tag has
    not been seen, a call of [transform] writes a beginning of the buffer
    and keeps the rest, at most ten thousand code units. After the closing
    root tag every chunk is added to the buffer and nothing is written. *)
Theorem X19_injector_buffer (ins : option text) (st st' : Dummy.state)
    (chunk pushed : text) :
  Dummy.transform ins st chunk = Some (st', pushed) ->
  (Dummy.insideClosingTag st' = false ->
   pushed ++ Dummy.buffer st' = Dummy.buffer st ++ chunk /\
   Z.of_nat (length (Dummy.buffer st')) <= 10000) /\
  (Dummy.insideClosingTag st = true ->
   pushed = [] /\ Dummy.buffer st' = Dummy.buffer st ++ chunk /\
   Dummy.insideClosingTag st' = true).
Proof.
  intros Ht. split.
  - revert Ht. unfold Dummy.transform.
    destruct (includes _ _ && negb _).
    { destruct ins; [|done]. by intros [= <- <-]. }
    destruct (negb (Dummy.insideClosingTag st)) eqn:Hn.
    + destruct (10000 <? _) eqn:E; intros [= <- <-] _; cbn [Dummy.buffer].
      * unfold slice_but_last, slice_last. split; [apply take_drop|].
        rewrite length_drop. lia.
      * split; [done|]. apply Z.ltb_ge in E. lia.
    + apply negb_false_iff in Hn. intros [= <- <-]. cbn. congruence.
  - intros Hin. rewrite (injector_transform_closed ins st chunk Hin) in Ht.
    by injection Ht as <- <-.
Qed.

Lemma X19_injector_buffer_witness :
  Z.of_nat (length (Dummy.buffer
                      {| Dummy.insideClosingTag := false;
                         Dummy.buffer := slice_last (repeat " "%char (Z.to_nat 10001)) 1000 |}))
  <= 10000.
Proof.
  refine (proj2 (proj1 (X19_injector_buffer None Dummy.initial _
                          (repeat " "%char (Z.to_nat 10001))
                          (slice_but_last (repeat " "%char (Z.to_nat 10001)) 1000) _) _)).
  - vm_compute. reflexivity.
  - reflexivity.
Defined.

(** X20: what is kept of the text after the closing root tag. When the
    buffer with the new chunk holds its first closing root tag after
    [pre], the injector writes [pre], the insertion, the closing tag, and
    of the text [post] after the tag only the part before the next closing
    root tag; a second closing root tag and everything after it are
    dropped. *)
Theorem X20_text_after_a_second_closing_tag_is_dropped (inserted : text)
    (st : Dummy.state) (chunk pre post : text) :
  Dummy.insideClosingTag st = false ->
  Dummy.buffer st ++ chunk = pre ++ closingTag ++ post ->
  indexOf (pre ++ closingTag ++ post) closingTag 0 = Some (length pre) ->
  Dummy.transform (Some inserted) st chunk
  = Some ({| Dummy.insideClosingTag := true; Dummy.buffer := [] |},
          pre ++ inserted ++ closingTag
            ++ match indexOf post closingTag 0 with
               | Some j => take j post
               | None => post
               end).
Proof.
  intros Hin Hdoc Hidx. unfold Dummy.transform. fold closingTag.
  rewrite Hdoc. unfold includes. rewrite Hidx, Hin. cbn [andb negb].
  unfold split. rewrite !length_app. change (length closingTag) with 5%nat.
  replace (length pre + (5 + length post))%nat with (S (S (length pre + 3 + length post)))
    by lia.
  cbn [split_fuel]. rewrite Hidx.
  rewrite take_app_length.
  change 5%nat with (length closingTag).
  rewrite drop_app_add' by done. rewrite drop_app_length.
  destruct (indexOf post closingTag 0) as [j|]; reflexivity.
Qed.

Lemma X20_text_after_a_second_closing_tag_is_dropped_witness :
  Dummy.transform (Some (txt "<!-- new -->")) Dummy.initial (txt "<tv></tv> <tv></tv> end")
  = Some ({| Dummy.insideClosingTag := true; Dummy.buffer := [] |},
          txt "<tv>" ++ txt "<!-- new -->" ++ closingTag ++ txt " <tv>").
Proof.
  apply (X20_text_after_a_second_closing_tag_is_dropped (txt "<!-- new -->") Dummy.initial
           (txt "<tv></tv> <tv></tv> end") (txt "<tv>") (txt " <tv></tv> end"));
    reflexivity.
Defined.

(** ** The channels that receive placeholders *)

Lemma filter_none {A : Type} (P : A -> Prop) `{forall x, Decision (P x)} (l : list A) :
  Forall (fun x => ~ P x) l -> filter P l = [].
Proof.
  induction 1 as [|x l Hx Hl IH]; [done|]. by rewrite filter_cons_False.
Qed.

Section Roster.
Variable parsed : Dummy.Parsed.
Variable lineup : list Dummy.LineupItem.

Lemma missing_ids :
  Dummy.id <$> Dummy.missingChannels parsed lineup
  = filter (fun g => truthy g = true /\ g ∉ Dummy.existingChannels parsed)
           (Dummy.GuideNumber <$> lineup).
Proof.
  unfold Dummy.missingChannels. induction lineup as [|item rest IH]; [done|].
  cbn [omap list_omap fmap list_fmap]. rewrite filter_cons.
  destruct (truthy (Dummy.GuideNumber item)) eqn:Ht; cbn [andb].
  - destruct (decide (Dummy.GuideNumber item ∈ Dummy.existingChannels parsed)) as [Hin|Hin].
    + rewrite bool_decide_eq_true_2 by done. cbn [negb].
      rewrite decide_False by tauto. exact IH.
    + rewrite bool_decide_eq_false_2 by done. cbn [negb].
      rewrite decide_True by done. cbn [fmap list_fmap Dummy.id]. f_equal. exact IH.
  - rewrite decide_False by (intros [? _]; done). exact IH.
Qed.

Lemma needing_ids :
  Dummy.id <$> Dummy.channelsNeedingDummy parsed lineup
  = filter (fun cid => truthy cid = true /\ cid ∉ Dummy.channelsWithPrograms parsed)
           (omap Dummy.attr_id (Dummy.channel parsed)).
Proof.
  unfold Dummy.channelsNeedingDummy. induction (Dummy.channel parsed) as [|ch rest IH]; [done|].
  cbn [omap list_omap]. destruct (Dummy.attr_id ch) as [cid|]; [|exact IH].
  rewrite filter_cons.
  destruct (truthy cid) eqn:Ht; cbn [andb].
  - destruct (decide (cid ∈ Dummy.channelsWithPrograms parsed)) as [Hin|Hin].
    + rewrite bool_decide_eq_true_2 by done. cbn [negb].
      rewrite decide_False by tauto. exact IH.
    + rewrite bool_decide_eq_false_2 by done. cbn [negb].
      rewrite decide_True by done. cbn [fmap list_fmap Dummy.id]. f_equal. exact IH.
  - rewrite decide_False by (intros [? _]; done). exact IH.
Qed.

Lemma existing_id (cid : text) :
  cid ∈ omap Dummy.attr_id (Dummy.channel parsed) -> truthy cid = true ->
  cid ∈ Dummy.existingChannels parsed.
Proof.
  intros Hin Ht. unfold Dummy.existingChannels, Dummy.filterBoolean.
  apply elem_of_list_to_set. apply list_elem_of_omap in Hin as (ch & Hch & Hid).
  apply list_elem_of_omap. exists (Some cid). split.
  - rewrite <- Hid. by apply list_elem_of_fmap_2.
  - by rewrite Ht.
Qed.

End Roster.

(** X21: when the parser returns a tree with a [tv] root, the device
    lists no channel that the document lacks and every channel of the
    document has a programme, [streamDummyProgramming] copies its input,
    whatever the chunks, the duration and the fuel are, and reports no
    additions. When the parser throws or returns a tree without [tv] root
    the call throws before anything is written. *)
Theorem X21_nothing_missing_is_a_copy (fuel : nat) (e : JS.env) (chunks : list text)
    (tv : Dummy.Parsed) (lineup : list Dummy.LineupItem)
    (options : Dummy.StreamingDummyOptions) :
  Forall (fun item => truthy (Dummy.GuideNumber item) = true ->
                      Dummy.GuideNumber item ∈ Dummy.existingChannels tv) lineup ->
  Forall (fun cid => truthy cid = true -> cid ∈ Dummy.channelsWithPrograms tv)
         (omap Dummy.attr_id (Dummy.channel tv)) ->
  Dummy.streamDummyProgramming fuel e chunks (Dummy.Root tv) lineup options
  = Dummy.Returns {| Dummy.written := concat chunks;
                     Dummy.channelsAdded := 0; Dummy.dummyChannels := 0 |} /\
  Dummy.streamDummyProgramming fuel e chunks Dummy.NoRoot lineup options = Dummy.Throws /\
  Dummy.streamDummyProgramming fuel e chunks Dummy.ParseThrows lineup options = Dummy.Throws.
Proof.
  intros Hl Hc. split; [|done]. unfold Dummy.streamDummyProgramming.
  assert (Dummy.missingChannels tv lineup = []) as ->.
  { apply fmap_nil_inv with (f := Dummy.id). rewrite missing_ids.
    apply filter_none. apply Forall_forall. intros g Hg [Ht Hn]. apply Hn.
    apply list_elem_of_fmap in Hg as (item & -> & Hitem).
    rewrite Forall_forall in Hl. by apply Hl. }
  assert (Dummy.channelsNeedingDummy tv lineup = []) as ->.
  { apply fmap_nil_inv with (f := Dummy.id). rewrite needing_ids.
    apply filter_none. apply Forall_forall. intros g Hg [Ht Hn]. apply Hn.
    rewrite Forall_forall in Hc. by apply Hc. }
  done.
Qed.

Lemma X21_nothing_missing_is_a_copy_witness :
  let tv := {| Dummy.channel := [ {| Dummy.attr_id := Some (txt "5.1");
                                     Dummy.display_name := Dummy.DNString (txt "KQED") |} ];
               Dummy.programme := [Some (txt "5.1")] |} in
  let lineup := [ {| Dummy.GuideNumber := txt "5.1"; Dummy.GuideName := txt "KQED-HD" |} ] in
  let options := {| Dummy.duration := txt "30min"; Dummy.title := None;
                    Dummy.description := None; Dummy.daysFilter := None |} in
  Dummy.streamDummyProgramming 0 envEST [txt "<tv>"; txt "</tv>"] (Dummy.Root tv) lineup options
  = Dummy.Returns {| Dummy.written := concat [txt "<tv>"; txt "</tv>"];
                     Dummy.channelsAdded := 0; Dummy.dummyChannels := 0 |} /\
  Dummy.streamDummyProgramming 0 envEST [txt "<tv>"; txt "</tv>"] Dummy.NoRoot lineup options
  = Dummy.Throws /\
  Dummy.streamDummyProgramming 0 envEST [txt "<tv>"; txt "</tv>"] Dummy.ParseThrows lineup options
  = Dummy.Throws.
Proof.
  intros tv lineup options.
  apply X21_nothing_missing_is_a_copy.
  - apply Forall_cons. split; [|apply Forall_nil_2].
    intros _. apply (bool_decide_unpack _). vm_compute. exact I.
  - apply Forall_cons. split; [|apply Forall_nil_2].
    intros _. apply (bool_decide_unpack _). vm_compute. exact I.
Defined.

(** X22: no channel receives placeholders twice. When the guide numbers
    of the device lineup are distinct and the channel ids of the document
    are distinct, the channels for which [streamDummyProgramming] writes
    placeholder programmes have distinct ids: the channels of the document
    without programmes, which all are channels of the document, followed
    by the channels of the lineup that the document lacks. *)
Theorem X22_placeholders_once_per_channel (parsed : Dummy.Parsed)
    (lineup : list Dummy.LineupItem) :
  NoDup (Dummy.GuideNumber <$> lineup) ->
  NoDup (omap Dummy.attr_id (Dummy.channel parsed)) ->
  NoDup (Dummy.id <$> (Dummy.channelsNeedingDummy parsed lineup
                       ++ Dummy.missingChannels parsed lineup)) /\
  Forall (fun c => Dummy.id c ∈ Dummy.existingChannels parsed)
         (Dummy.channelsNeedingDummy parsed lineup) /\
  Forall (fun c => Dummy.id c ∉ Dummy.existingChannels parsed)
         (Dummy.missingChannels parsed lineup).
Proof.
  intros Hl Hc.
  assert (forall x, x ∈ Dummy.id <$> Dummy.channelsNeedingDummy parsed lineup ->
                    x ∈ Dummy.existingChannels parsed) as Hneed.
  { intros x. rewrite needing_ids. intros Hx.
    apply list_elem_of_filter in Hx as [[Ht _] Hin]. by apply existing_id. }
  assert (forall x, x ∈ Dummy.id <$> Dummy.missingChannels parsed lineup ->
                    x ∉ Dummy.existingChannels parsed) as Hmiss.
  { intros x. rewrite missing_ids. intros Hx.
    by apply list_elem_of_filter in Hx as [[_ Hn] _]. }
  split; [|split].
  - rewrite fmap_app. apply NoDup_app. split; [|split].
    + rewrite needing_ids. by apply NoDup_filter.
    + intros x Hx Hx'. by apply (Hmiss x Hx'), Hneed.
    + rewrite missing_ids. by apply NoDup_filter.
  - apply Forall_forall. intros c Hin. apply Hneed. by apply list_elem_of_fmap_2.
  - apply Forall_forall. intros c Hin. apply Hmiss. by apply list_elem_of_fmap_2.
Qed.

Lemma X22_placeholders_once_per_channel_witness :
  NoDup (Dummy.id <$> (Dummy.channelsNeedingDummy sampleParsed sampleLineup
                       ++ Dummy.missingChannels sampleParsed sampleLineup)) /\
  Forall (fun c => Dummy.id c ∈ Dummy.existingChannels sampleParsed)
         (Dummy.channelsNeedingDummy sampleParsed sampleLineup) /\
  Forall (fun c => Dummy.id c ∉ Dummy.existingChannels sampleParsed)
         (Dummy.missingChannels sampleParsed sampleLineup).
Proof.
  apply X22_placeholders_once_per_channel.
  - apply (bool_decide_unpack _). vm_compute. exact I.
  - apply (bool_decide_unpack _). vm_compute. exact I.
Defined.

(** ** File names *)

Section Paths.

Lemma startsWith_lookup (s p : text) :
  startsWith s p = true <-> forall i c, p !! i = Some c -> s !! i = Some c.
Proof.
  revert s. induction p as [|x p IH]; intros s.
  - split; [|done]. intros _ i c Hi. by rewrite lookup_nil in Hi.
  - destruct s as [|y s]; cbn [startsWith].
    + split; [done|]. intros H. by specialize (H 0%nat x eq_refl).
    + destruct (Ascii.eqb x y) eqn:E.
      * apply Ascii.eqb_eq in E. subst y. rewrite IH. split.
        -- intros H [|i] c Hi; [done|]. by apply H.
        -- intros H i c Hi. by apply (H (S i)).
      * split; [done|]. intros H. specialize (H 0%nat x eq_refl). simpl in H.
        injection H as ->. by rewrite Ascii.eqb_refl in E.
Qed.

Lemma indexOf_Some_split (s needle : text) (n : nat) :
  (0 < length needle)%nat ->
  indexOf s needle 0 = Some n ->
  s = take n s ++ needle ++ drop (n + length needle) s /\
  length (take n s) = n /\
  forall k, (k < n)%nat -> startsWith (drop k s) needle = false.
Proof.
  intros Hneedle. unfold indexOf. rewrite drop_0. cbn [Nat.min]. intros H.
  apply search_Some in H as (_ & Hat & Hbefore). rewrite Nat.sub_0_r in *.
  pose proof (startsWith_length _ _ Hat) as Hlen. rewrite length_drop in Hlen.
  split; [|split; [rewrite length_take; lia|done]].
  rewrite <- (take_drop n s) at 1. f_equal.
  rewrite (startsWith_inv _ _ Hat) at 1. by rewrite drop_drop.
Qed.

(** The inserted name does not overlap itself, and the extension does not
    occur in the text before its first occurrence: the inserted name is
    found where it was put. *)
Lemma inserted_name_first (a b : text) :
  (forall k, (k < length a)%nat ->
     startsWith (drop k (a ++ txt ".xml" ++ b)) (txt ".xml") = false) ->
  indexOf (a ++ txt "-with-dummy.xml" ++ b) (txt "-with-dummy.xml") 0 = Some (length a).
Proof.
  intros Hfirst. unfold indexOf. rewrite drop_0. cbn [Nat.min].
  apply (search_first _ _ 0 (length a)).
  - rewrite drop_app_length. apply startsWith_app.
  - intros k Hk. destruct (startsWith _ _) eqn:E; [exfalso|done].
    rewrite startsWith_lookup in E.
    assert (forall i c, txt "-with-dummy.xml" !! i = Some c ->
              (a ++ txt "-with-dummy.xml" ++ b) !! (k + i)%nat = Some c) as Hocc.
    { intros i c Hi. rewrite <- lookup_drop. by apply E. }
    assert (forall i c, txt "-with-dummy.xml" !! i = Some c ->
              (a ++ txt "-with-dummy.xml" ++ b) !! (length a + i)%nat = Some c) as Hins.
    { intros i c Hi. rewrite lookup_app_r by lia.
      replace (length a + i - length a)%nat with i by lia.
      by apply lookup_app_l_Some. }
    destruct (decide (length a - k <= 14)%nat) as [Hd|Hd].
    + pose proof (Hins 0%nat _ eq_refl) as H0. pose proof (Hins 1%nat _ eq_refl) as H1.
      rewrite Nat.add_0_r in H0.
      assert (length a - k = 1 \/ length a - k = 2 \/ length a - k = 3 \/ length a - k = 4 \/
              length a - k = 5 \/ length a - k = 6 \/ length a - k = 7 \/ length a - k = 8 \/
              length a - k = 9 \/ length a - k = 10 \/ length a - k = 11 \/
              length a - k = 12 \/ length a - k = 13 \/ length a - k = 14)%nat as Hcases by lia.
      repeat (destruct Hcases as [Hc|Hcases];
              [match type of Hc with
               | (_ = ?d)%nat =>
                   pose proof (Hocc d _ eq_refl) as Hd0;
                   pose proof (Hocc (S d) _ eq_refl) as Hd1;
                   replace (k + d)%nat with (length a) in Hd0 by lia;
                   replace (k + S d)%nat with (length a + 1)%nat in Hd1 by lia;
                   congruence
               end|]).
      match type of Hcases with
      | (_ = ?d)%nat =>
          pose proof (Hocc d _ eq_refl) as Hd0;
          replace (k + d)%nat with (length a) in Hd0 by lia; congruence
      end.
    + specialize (Hfirst (k + 11)%nat ltac:(lia)).
      assert (startsWith (drop (k + 11) (a ++ txt ".xml" ++ b)) (txt ".xml") = true) as Ht;
        [|congruence].
      apply startsWith_lookup. intros i c Hi. rewrite lookup_drop.
      assert (i < 4)%nat as Hi4 by (apply lookup_lt_Some in Hi; simpl in Hi; lia).
      rewrite lookup_app_l by lia.
      assert (txt "-with-dummy.xml" !! (11 + i)%nat = Some c) as Hp.
      { destruct i as [|[|[|[|i]]]]; first [exact Hi|lia]. }
      specialize (Hocc _ _ Hp). rewrite lookup_app_l in Hocc by lia.
      rewrite <- Hocc. f_equal. lia.
  - rewrite length_app. lia.
Qed.

End Paths.

(** X23: the two file names lead back to each other. [update] names the
    file with placeholders by replacing the first occurrence of the
    extension in the path of the versioned file, and [serveEPG] replaces
    the first occurrence of the inserted name by the extension: for every
    path this gives the path of the versioned file again; and when the
    path holds the extension at all, the two files differ. *)
Theorem X23_file_names_round_trip (versionedPath : text) :
  EPGServer.currentFile (EPGUpdater.dummyPath versionedPath) = versionedPath /\
  (includes versionedPath (txt ".xml") = true ->
   EPGUpdater.dummyPath versionedPath <> versionedPath).
Proof.
  unfold EPGUpdater.dummyPath, EPGServer.currentFile, replaceFirst, includes.
  destruct (indexOf versionedPath (txt ".xml") 0) as [n|] eqn:E.
  - destruct (indexOf_Some_split versionedPath (txt ".xml") n ltac:(simpl; lia) E) as (Hp & Hn & Hfirst).
    set (a := take n versionedPath) in *.
    set (b := drop (n + length (txt ".xml")) versionedPath) in *.
    change (getSubstitution (txt ".xml") a b (txt "-with-dummy.xml"))
      with (txt "-with-dummy.xml").
    assert (indexOf (a ++ txt "-with-dummy.xml" ++ b) (txt "-with-dummy.xml") 0
            = Some (length a)) as Hfound.
    { apply inserted_name_first. intros k Hk. rewrite <- Hp. apply Hfirst. lia. }
    rewrite Hfound. split.
    + rewrite take_app_length, drop_app_add', drop_app_length by done.
      change (getSubstitution (txt "-with-dummy.xml") a b (txt ".xml")) with (txt ".xml").
      by rewrite <- Hp.
    + intros _ Heq. apply (f_equal length) in Heq. rewrite Hp in Heq.
      rewrite !length_app in Heq. simpl in Heq. lia.
  - split; [|done].
    assert (indexOf versionedPath (txt "-with-dummy.xml") 0 = None) as ->; [|done].
    apply absent_indexOf. apply indexOf_absent in E. intros k.
    destruct (startsWith _ _) eqn:Hs; [|done].
    apply startsWith_inv in Hs.
    specialize (E (k + 11)%nat). rewrite <- drop_drop, Hs in E.
    by cbn in E.
Qed.

Lemma X23_file_names_round_trip_witness :
  EPGUpdater.dummyPath (txt "output/epg-2024-01-10.xml") <> txt "output/epg-2024-01-10.xml".
Proof.
  apply (proj2 (X23_file_names_round_trip (txt "output/epg-2024-01-10.xml"))).
  reflexivity.
Defined.

(** ** The injector for any roster *)

Section AnyRoster.


End AnyRoster.



(** ** The one-shot variant only inserts *)

Section OneShot.



End OneShot.


